(** * FilePurger: the scan / classify / quarantine engine

    A shallow embedding of [auto_purge.py] (the configuration-driven engine)
    and [safe_purge.py] (the older engine with built-in paths), together with
    the parts of the Python standard library the two scripts lean on
    ([str] methods, [ntpath], [pathlib], [hashlib.sha256], [os.walk]).

    Conventions.
    - A Python [str] is a [string]; text is held UTF-8 encoded, so
      [s.encode("utf-8", errors="ignore")] is the identity on it.
    - Python integers and epoch times are [Z]; string indices returned by
      [find]/[rfind] are [Z] with [-1] for "not found", as in Python.
    - Both scripts only enumerate drive roots of the form [X:\], so paths
      follow the Windows flavour ([ntpath], [PureWindowsPath]).
    - An exception is a value of type [exn]; a call that may raise returns a
      [result], either [Ok] with its value or [Raise] with the exception.
    - The file system is a tree of directories per drive; each file carries
      what reading its time stamp and moving it will do.  A run yields the
      lines it logs ([event]) and the calls that change the file system
      ([fs_op]), both in order. *)

From Stdlib Require Import ZArith Ascii String List Bool Lia.
From stdpp Require Import base tactics option list strings sorting gmap.

Local Open Scope Z_scope.

(** ** Python [str] methods *)

Module PyStr.

Definition lower_char (c : ascii) : ascii :=
  let n := N_of_ascii c in
  if ((65 <=? n) && (n <=? 90))%N then ascii_of_N (n + 32) else c.

Definition upper_char (c : ascii) : ascii :=
  let n := N_of_ascii c in
  if ((97 <=? n) && (n <=? 122))%N then ascii_of_N (n - 32) else c.

Fixpoint map_chars (f : ascii -> ascii) (s : string) : string :=
  match s with
  | EmptyString => EmptyString
  | String c s' => String (f c) (map_chars f s')
  end.

(** [s.lower()] and [s.upper()] *)
Definition lower : string -> string := map_chars lower_char.
Definition upper : string -> string := map_chars upper_char.

(** [s.replace(a, b)] for one-character [a] and [b] *)
Definition replace_char (a b : ascii) : string -> string :=
  map_chars (fun c => if Ascii.eqb c a then b else c).

(** [s.replace(a, empty)] for a one-character [a] *)
Fixpoint remove_char (a : ascii) (s : string) : string :=
  match s with
  | EmptyString => EmptyString
  | String c s' =>
      if Ascii.eqb c a then remove_char a s' else String c (remove_char a s')
  end.

(** [s.split(sep)] for a one-character separator: never the empty list *)
Fixpoint split (sep : ascii) (s : string) : list string :=
  match s with
  | EmptyString => [EmptyString]
  | String c s' =>
      if Ascii.eqb c sep then EmptyString :: split sep s'
      else match split sep s' with
           | x :: r => String c x :: r
           | [] => [String c EmptyString]
           end
  end.

(** [sep.join(l)] *)
Fixpoint join (sep : string) (l : list string) : string :=
  match l with
  | [] => EmptyString
  | [x] => x
  | x :: r => x +:+ sep +:+ join sep r
  end.

(** [s[:n]], [s[n:]] and [s[n:m]] for indices that are not negative *)
Fixpoint slice_to (n : nat) (s : string) : string :=
  match n, s with
  | S n', String c s' => String c (slice_to n' s')
  | _, _ => EmptyString
  end.

Fixpoint slice_from (n : nat) (s : string) : string :=
  match n, s with
  | S n', String _ s' => slice_from n' s'
  | _, _ => s
  end.

Definition slice (n m : nat) (s : string) : string :=
  slice_to (m - n) (slice_from n s).

(** [s.find(c)]: index of the first occurrence, [-1] when there is none *)
Fixpoint find (c : ascii) (s : string) : Z :=
  match s with
  | EmptyString => -1
  | String a s' =>
      if Ascii.eqb a c then 0
      else let i := find c s' in if i <? 0 then -1 else i + 1
  end.

(** [s.find(c, start)] *)
Definition find_from (c : ascii) (start : nat) (s : string) : Z :=
  let i := find c (slice_from start s) in
  if i <? 0 then -1 else i + Z.of_nat start.

(** [s.rfind(c)]: index of the last occurrence, [-1] when there is none *)
Fixpoint rfind (c : ascii) (s : string) : Z :=
  match s with
  | EmptyString => -1
  | String a s' =>
      let i := rfind c s' in
      if 0 <=? i then i + 1 else if Ascii.eqb a c then 0 else -1
  end.

(** [s.startswith(p)] and [s.endswith(p)] *)
Definition startswith (p s : string) : bool := String.prefix p s.

Definition endswith (p s : string) : bool :=
  String.prefix (String.rev p) (String.rev s).

(** truth value of a string: [bool(s)] *)
Definition nonempty (s : string) : bool :=
  match s with EmptyString => false | _ => true end.

(** [a or b] on strings *)
Definition or_else (a b : string) : string := if nonempty a then a else b.

(** [sorted(l)] on a list of strings (code-point order) *)
Definition sorted (l : list string) : list string := merge_sort String.le l.

End PyStr.

(** ** [ntpath]: [os.path] on Windows (CPython 3.12) *)

Module NtPath.
Import PyStr.

Definition sep : ascii := "\"%char.
Definition altsep : ascii := "/"%char.
Definition colon : ascii := ":"%char.
Definition sep_s : string := String sep EmptyString.
Definition curdir : string := ".".
Definition pardir : string := "..".

(** [splitroot(p)]: drive, root and rest of a path *)
Definition splitroot (p : string) : string * string * string :=
  let normp := replace_char altsep sep p in
  if String.eqb (slice_to 1 normp) sep_s then
    if String.eqb (slice 1 2 normp) sep_s then
      (* UNC and device drives *)
      let start :=
        if String.eqb (upper (slice_to 8 normp)) "\\?\UNC\" then 8%nat
        else 2%nat in
      let index := find_from sep start normp in
      if index =? -1 then (p, EmptyString, EmptyString)
      else
        let index2 := find_from sep (Z.to_nat (index + 1)) normp in
        if index2 =? -1 then (p, EmptyString, EmptyString)
        else
          let i2 := Z.to_nat index2 in
          (slice_to i2 p, slice i2 (i2 + 1) p, slice_from (i2 + 1) p)
    else
      (* rooted path without a drive, e.g. \Windows *)
      (EmptyString, slice_to 1 p, slice_from 1 p)
  else if String.eqb (slice 1 2 normp) (String colon EmptyString) then
    if String.eqb (slice 2 3 normp) sep_s then
      (* absolute drive-letter path, e.g. X:\Windows *)
      (slice_to 2 p, slice 2 3 p, slice_from 3 p)
    else
      (* path relative to a drive, e.g. X:Windows *)
      (slice_to 2 p, EmptyString, slice_from 2 p)
  else
    (EmptyString, EmptyString, p).

(** [splitdrive(p)] *)
Definition splitdrive (p : string) : string * string :=
  let '(drive, root, tail) := splitroot p in (drive, root +:+ tail).

(** [isabs(s)] *)
Definition isabs (s : string) : bool :=
  let s3 := replace_char altsep sep (slice_to 3 s) in
  startswith sep_s s3 || String.eqb (slice 1 3 s3) ":\".

Definition is_sep (c : ascii) : bool := Ascii.eqb c sep || Ascii.eqb c altsep.

Definition last_char (s : string) : option ascii :=
  match String.rev s with
  | String c _ => Some c
  | EmptyString => None
  end.

(** [join(path, p)] *)
Definition join (path p : string) : string :=
  let '(result_drive, result_root, result_path) := splitroot path in
  let '(p_drive, p_root, p_path) := splitroot p in
  let finish (result_drive result_root result_path : string) :=
    if nonempty result_path && negb (nonempty result_root)
       && nonempty result_drive
       && negb (from_option (fun c => Ascii.eqb c colon || is_sep c) false
                            (last_char result_drive))
    then result_drive +:+ sep_s +:+ result_path
    else result_drive +:+ result_root +:+ result_path in
  if nonempty p_root then
    (* the second path is absolute *)
    let d := if nonempty p_drive || negb (nonempty result_drive)
             then p_drive else result_drive in
    finish d p_root p_path
  else if nonempty p_drive && negb (String.eqb p_drive result_drive)
          && negb (String.eqb (lower p_drive) (lower result_drive)) then
    (* different drives: the first path is ignored *)
    finish p_drive p_root p_path
  else
    let d := if nonempty p_drive && negb (String.eqb p_drive result_drive)
             then p_drive else result_drive in
    let rp :=
      if nonempty result_path
         && negb (from_option is_sep false (last_char result_path))
      then result_path +:+ sep_s else result_path in
    finish d result_root (rp +:+ p_path).

(** the [while] loop of [normpath]: [done] holds the components kept so
    far, last one first *)
Fixpoint normpath_comps (root : string) (done : list string)
    (comps : list string) : list string :=
  match comps with
  | [] => rev done
  | c :: rest =>
      if negb (nonempty c) || String.eqb c curdir then
        normpath_comps root done rest
      else if String.eqb c pardir then
        match done with
        | d :: done' =>
            if negb (String.eqb d pardir) then normpath_comps root done' rest
            else normpath_comps root (c :: done) rest
        | [] =>
            if nonempty root then normpath_comps root done rest
            else normpath_comps root (c :: done) rest
        end
      else normpath_comps root (c :: done) rest
  end.

(** [normpath(path)] *)
Definition normpath (path : string) : string :=
  let path := replace_char altsep sep path in
  let '(drive, root, path) := splitroot path in
  let prefix := drive +:+ root in
  let comps := normpath_comps root [] (split sep path) in
  let comps :=
    if negb (nonempty prefix) && bool_decide (comps = [])
    then [curdir] else comps in
  prefix +:+ PyStr.join sep_s comps.

(** [abspath(path)], for a process whose working directory is [cwd] *)
Definition abspath (cwd path : string) : string :=
  normpath (if isabs path then path else join cwd path).

Definition keep_comp (c : string) : bool :=
  nonempty c && negb (String.eqb c curdir).

(** length of the common prefix of two lists of components *)
Fixpoint common_len (a b : list string) : nat :=
  match a, b with
  | x :: a', y :: b' => if String.eqb x y then S (common_len a' b') else 0%nat
  | _, _ => 0%nat
  end.

(** [commonpath([p1, p2])]; [None] is [ValueError] *)
Definition commonpath (p1 p2 : string) : option string :=
  let '(d1, r1, t1) := splitroot (lower (replace_char altsep sep p1)) in
  let '(d2, r2, t2) := splitroot (lower (replace_char altsep sep p2)) in
  if negb (String.eqb r1 r2) then None      (* absolute and relative mixed *)
  else if negb (String.eqb d1 d2) then None (* not the same drive *)
  else
    let '(drive, root, path) := splitroot (replace_char altsep sep p1) in
    let common := filter (fun c => Is_true (keep_comp c)) (split sep path) in
    let s1 := filter (fun c => Is_true (keep_comp c)) (split sep t1) in
    let s2 := filter (fun c => Is_true (keep_comp c)) (split sep t2) in
    Some (drive +:+ root +:+
          PyStr.join sep_s (take (common_len s1 s2) common)).

(** [splitext(p)] *)
Definition splitext (p : string) : string * string :=
  let sepIndex := Z.max (rfind sep p) (rfind altsep p) in
  let dotIndex := rfind "."%char p in
  if (sepIndex <? dotIndex)
     && negb (String.eqb
                (remove_char "."
                   (slice (Z.to_nat (sepIndex + 1)) (Z.to_nat dotIndex) p))
                EmptyString)
  then (slice_to (Z.to_nat dotIndex) p, slice_from (Z.to_nat dotIndex) p)
  else (p, EmptyString).

(** [relpath(path, start)]; [None] is [ValueError] *)
Definition relpath (cwd path start : string) : option string :=
  let start_abs := abspath cwd (normpath start) in
  let path_abs := abspath cwd (normpath path) in
  let '(start_drive, _, start_rest) := splitroot start_abs in
  let '(path_drive, _, path_rest) := splitroot path_abs in
  if negb (String.eqb (lower start_drive) (lower path_drive)) then None
  else
    let start_list :=
      filter (fun x => Is_true (nonempty x)) (split sep start_rest) in
    let path_list :=
      filter (fun x => Is_true (nonempty x)) (split sep path_rest) in
    let i := common_len (lower <$> start_list) (lower <$> path_list) in
    let rel_list :=
      replicate (length start_list - i) pardir ++ drop i path_list in
    match rel_list with
    | [] => Some curdir
    | x :: r => Some (fold_left join r x)
    end.

(** [s.rstrip(seps)] *)
Definition rstrip_seps (s : string) : string :=
  let fix strip (r : string) : string :=
    match r with
    | String c r' => if is_sep c then strip r' else r
    | EmptyString => r
    end in
  String.rev (strip (String.rev s)).

(** [split(p)] and [dirname(p)] *)
Definition split (p : string) : string * string :=
  let '(d, r, p) := splitroot p in
  let i := Z.to_nat (Z.max (rfind sep p) (rfind altsep p) + 1) in
  (d +:+ r +:+ rstrip_seps (slice_to i p), slice_from i p).

Definition dirname (p : string) : string := fst (split p).

End NtPath.

(** ** [hashlib.sha256] (FIPS 180-4), on 32-bit words held in [N] *)

Module Sha256.
Local Open Scope N_scope.

Definition w32 (x : N) : N := x mod 2 ^ 32.
Definition add32 (x y : N) : N := w32 (x + y).
Definition rotr (n x : N) : N :=
  N.lor (N.shiftr x n) (w32 (N.shiftl x (32 - n))).
Definition shr (n x : N) : N := N.shiftr x n.
Definition not32 (x : N) : N := N.lxor x (2 ^ 32 - 1).

Definition Ch (x y z : N) : N := N.lxor (N.land x y) (N.land (not32 x) z).
Definition Maj (x y z : N) : N :=
  N.lxor (N.lxor (N.land x y) (N.land x z)) (N.land y z).
Definition Sigma0 (x : N) : N := N.lxor (N.lxor (rotr 2 x) (rotr 13 x)) (rotr 22 x).
Definition Sigma1 (x : N) : N := N.lxor (N.lxor (rotr 6 x) (rotr 11 x)) (rotr 25 x).
Definition sigma0 (x : N) : N := N.lxor (N.lxor (rotr 7 x) (rotr 18 x)) (shr 3 x).
Definition sigma1 (x : N) : N := N.lxor (N.lxor (rotr 17 x) (rotr 19 x)) (shr 10 x).

(** the round constants: the first 32 bits of the fractional parts of the
    cube roots of the first 64 primes *)
Definition K : list N :=
  [ 1116352408; 1899447441; 3049323471; 3921009573;
    961987163; 1508970993; 2453635748; 2870763221;
    3624381080; 310598401; 607225278; 1426881987;
    1925078388; 2162078206; 2614888103; 3248222580;
    3835390401; 4022224774; 264347078; 604807628;
    770255983; 1249150122; 1555081692; 1996064986;
    2554220882; 2821834349; 2952996808; 3210313671;
    3336571891; 3584528711; 113926993; 338241895;
    666307205; 773529912; 1294757372; 1396182291;
    1695183700; 1986661051; 2177026350; 2456956037;
    2730485921; 2820302411; 3259730800; 3345764771;
    3516065817; 3600352804; 4094571909; 275423344;
    430227734; 506948616; 659060556; 883997877;
    958139571; 1322822218; 1537002063; 1747873779;
    1955562222; 2024104815; 2227730452; 2361852424;
    2428436474; 2756734187; 3204031479; 3329325298 ].

(** the eight working variables, and the chaining value *)
Record state := State { sa : N; sb : N; sc : N; sd : N;
                        se : N; sf : N; sg : N; sh : N }.

Definition H0 : state :=
  State 1779033703 3144134277 1013904242 2773480762
        1359893119 2600822924 528734635 1541459225.

Definition bytes_of (s : string) : list N :=
  N_of_ascii <$> list_ascii_of_string s.

(** big-endian bytes of [x], [n] of them *)
Fixpoint be_bytes (n : nat) (x : N) : list N :=
  match n with
  | O => []
  | S n' => (x / 256 ^ N.of_nat n') mod 256 :: be_bytes n' x
  end.

(** the message followed by 128, zeros up to 56 mod 64, and its length in
    bits on 8 bytes *)
Definition pad (msg : list N) : list N :=
  let len := length msg in
  let zeros := ((64 - (len + 9) mod 64) mod 64)%nat in
  msg ++ [128] ++ replicate zeros 0 ++ be_bytes 8 (8 * N.of_nat len).

Fixpoint words_of (fuel : nat) (bs : list N) : list N :=
  match fuel, bs with
  | S fuel', b0 :: b1 :: b2 :: b3 :: rest =>
      (((b0 * 256 + b1) * 256 + b2) * 256 + b3) :: words_of fuel' rest
  | _, _ => []
  end.

(** the message schedule: [w] holds W[0..t-1], the last one first *)
Fixpoint schedule (n : nat) (w : list N) : list N :=
  match n with
  | O => rev w
  | S n' =>
      let x :=
        add32 (add32 (sigma1 (nth 1 w 0)) (nth 6 w 0))
              (add32 (sigma0 (nth 14 w 0)) (nth 15 w 0)) in
      schedule n' (x :: w)
  end.

Definition round (s : state) (kw : N * N) : state :=
  let '(k, w) := kw in
  let t1 := add32 (add32 (add32 (sh s) (Sigma1 (se s)))
                         (add32 (Ch (se s) (sf s) (sg s)) k)) w in
  let t2 := add32 (Sigma0 (sa s)) (Maj (sa s) (sb s) (sc s)) in
  State (add32 t1 t2) (sa s) (sb s) (sc s) (add32 (sd s) t1) (se s) (sf s) (sg s).

Definition compress (h : state) (block : list N) : state :=
  let w := schedule 48 (rev (words_of 16 block)) in
  let s := fold_left round (combine K w) h in
  State (add32 (sa h) (sa s)) (add32 (sb h) (sb s))
        (add32 (sc h) (sc s)) (add32 (sd h) (sd s))
        (add32 (se h) (se s)) (add32 (sf h) (sf s))
        (add32 (sg h) (sg s)) (add32 (sh h) (sh s)).

Fixpoint blocks (fuel : nat) (h : state) (bs : list N) : state :=
  match fuel, bs with
  | S fuel', _ :: _ => blocks fuel' (compress h (take 64 bs)) (drop 64 bs)
  | _, _ => h
  end.

Definition digest (s : string) : state :=
  let m := pad (bytes_of s) in blocks (length m) H0 m.

Definition hex_digit (d : N) : ascii :=
  if d <? 10 then ascii_of_N (48 + d) else ascii_of_N (87 + d).

Definition nib (i x : N) : ascii := hex_digit ((x / 16 ^ i) mod 16).

(** a word as eight hexadecimal digits, followed by [k] *)
Definition hex8 (x : N) (k : string) : string :=
  String (nib 7 x) (String (nib 6 x) (String (nib 5 x) (String (nib 4 x)
    (String (nib 3 x) (String (nib 2 x) (String (nib 1 x)
      (String (nib 0 x) k))))))).

(** [hashlib.sha256(s.encode("utf-8", errors="ignore")).hexdigest()] *)
Definition hexdigest (s : string) : string :=
  let h := digest s in
  hex8 (sa h) (hex8 (sb h) (hex8 (sc h) (hex8 (sd h)
    (hex8 (se h) (hex8 (sf h) (hex8 (sg h) (hex8 (sh h) EmptyString))))))).

End Sha256.


(** ** Exceptions and results *)

Inductive exn :=
| FileNotFoundError
| PermissionError
| ValueError
| KeyError
| SystemExit (code : Z)
| OtherException.

Inductive result (A : Type) :=
| Ok (a : A)
| Raise (e : exn).
Arguments Ok {A} a.
Arguments Raise {A} e.

Global Instance result_ret : MRet result := fun A a => Ok a.

Global Instance result_bind : MBind result := fun A B k r =>
  match r with
  | Ok a => k a
  | Raise e => Raise e
  end.

(** the values a Python function of this program may return *)
Inductive pyval :=
| PyNone
| PyInt (n : Z).

(** ** [pathlib.PureWindowsPath] *)

Module PathLib.
Import PyStr.

(** a parsed path: drive, root, and the components below the anchor *)
Record PurePath := MkPath { drv : string; root : string; tail : list string }.

(** [x in "?."] *)
Definition in_qdot (x : string) : bool :=
  String.eqb x EmptyString || String.eqb x "?" || String.eqb x "." || String.eqb x "?.".

(** [PurePath(path)], that is [_parse_path] *)
Definition parse_path (path : string) : PurePath :=
  if negb (nonempty path) then MkPath EmptyString EmptyString []
  else
    let path := replace_char NtPath.altsep NtPath.sep path in
    let '(drv, root, rel) := NtPath.splitroot path in
    let root :=
      if negb (nonempty root) && startswith NtPath.sep_s drv
         && negb (endswith NtPath.sep_s drv)
      then
        let drv_parts := split NtPath.sep drv in
        if (length drv_parts =? 4)%nat
           && negb (in_qdot (nth 2 drv_parts EmptyString))
        then NtPath.sep_s
        else if (length drv_parts =? 6)%nat then NtPath.sep_s
        else root
      else root in
    MkPath drv root
      (filter (fun x => Is_true (NtPath.keep_comp x)) (split NtPath.sep rel)).

Definition format_parsed_parts (drv root : string) (tail : list string)
    : string :=
  if nonempty drv || nonempty root then
    drv +:+ root +:+ join NtPath.sep_s tail
  else
    match tail with
    | t0 :: _ =>
        if nonempty (fst (NtPath.splitdrive t0))
        then join NtPath.sep_s ("." :: tail)
        else join NtPath.sep_s tail
    | [] => join NtPath.sep_s tail
    end.

(** [str(p)] *)
Definition str (p : PurePath) : string :=
  or_else (format_parsed_parts (drv p) (root p) (tail p)) ".".

(** [p / q]: the cases of [ntpath.join] on parsed paths *)
Definition truediv (p q : PurePath) : PurePath :=
  if nonempty (root q) then
    MkPath (if nonempty (drv q) || negb (nonempty (drv p))
            then drv q else drv p)
           (root q) (tail q)
  else if nonempty (drv q) && negb (String.eqb (drv q) (drv p)) then
    if negb (String.eqb (lower (drv q)) (lower (drv p))) then q
    else MkPath (drv q) (root p) (tail p ++ tail q)
  else MkPath (drv p) (root p) (tail p ++ tail q).

(** [p / s] for a string [s] *)
Definition truediv_str (p : PurePath) (s : string) : PurePath :=
  truediv p (parse_path s).

(** [PurePath(s1, ..., sn)] *)
Definition with_segments (segments : list string) : PurePath :=
  fold_left truediv_str segments (MkPath EmptyString EmptyString []).

(** [p.name], [p.suffix], [p.stem] *)
Definition name (p : PurePath) : string := List.last (tail p) EmptyString.

Definition suffix (p : PurePath) : string :=
  let name := name p in
  let i := rfind "." name in
  if (0 <? i) && (i <? Z.of_nat (String.length name) - 1)
  then slice_from (Z.to_nat i) name else EmptyString.

Definition stem (p : PurePath) : string :=
  let name := name p in
  let i := rfind "." name in
  if (0 <? i) && (i <? Z.of_nat (String.length name) - 1)
  then slice_to (Z.to_nat i) name else name.

(** [p.parent] and [p.parents] *)
Definition parent (p : PurePath) : PurePath :=
  match tail p with
  | [] => p
  | _ => MkPath (drv p) (root p) (removelast (tail p))
  end.

Definition parents (p : PurePath) : list PurePath :=
  (fun i => MkPath (drv p) (root p) (take (length (tail p) - S i) (tail p)))
    <$> seq 0 (length (tail p)).

(** [p == q]: Windows paths compare with the case folded *)
Definition eqb (p q : PurePath) : bool :=
  String.eqb (lower (str p)) (lower (str q)).

(** [p.is_relative_to(other)] *)
Definition is_relative_to (p other : PurePath) : bool :=
  eqb other p || existsb (eqb other) (parents p).

(** [p.relative_to(other)] *)
Definition relative_to (p other : PurePath) : result PurePath :=
  if is_relative_to p other
  then Ok (with_segments (drop (length (tail other)) (tail p)))
  else Raise ValueError.

End PathLib.

(** ** The host the scripts run on *)

(** what [os.path.getmtime], and creating the destination folders and then
    [shutil.move], do for one file *)
Record file := File {
  file_name : string;
  file_stat : result Z;
  file_mkdir : option exn;
  file_move : option exn
}.

(** a directory as [os.walk] lists it: sub-directories and files *)
#[warnings="-register-all"]
Inductive dir :=
| Dir (subdirs : list (string * dir)) (files : list file).

(** an entry of the directory handed to [clear_directory] *)
Inductive entry_kind := IsFile | IsLink | IsDir | IsOther.

Record entry := Entry {
  entry_name : string;
  entry_kind_of : entry_kind;
  entry_delete : option exn     (* what [os.unlink] / [shutil.rmtree] does *)
}.

Record world := Host {
  getcwd : string;
  clock : nat -> Z;                          (* successive clock readings *)
  drives : gmap string dir;                  (* the drive roots that exist *)
  disk_usage : string -> option (Z * Z * Z);
  listdir : string -> option (list entry);   (* [None]: not a directory *)
  realpath : string -> string;               (* [os.path.realpath] *)
  utcoffset : Z -> Z;    (* local time minus UTC, in seconds, at an instant *)
  fromtimestamp_error : Z -> option exn
    (* the time stamps [datetime.fromtimestamp] refuses, with its exception *)
}.

(** a host without links, whose paths are spelt as on disk, whose local
    time is UTC and for which every time stamp has a date *)
Definition World (cwd : string) (clock : nat -> Z) (drives : gmap string dir)
    (disk_usage : string -> option (Z * Z * Z))
    (listdir : string -> option (list entry)) : world :=
  Host cwd clock drives disk_usage listdir (NtPath.abspath cwd)
       (fun _ => 0) (fun _ => None).

(** the lines written to the scan log, the move log and the console *)
Inductive event :=
| EvHeader (retention_days : Z) (dry_run : bool)
| EvDiskUsage (drive : string) (usage : option (Z * Z * Z))
| EvScan (root : string)
| EvMatch (fpath : string) (age_days : Z)
| EvSkip (fpath : string) (age_days : Z)
| EvMove (fpath dest : string) (age_days : Z)
| EvGone (fpath : string)
| EvDenied (fpath : string)
| EvError (fpath : string)
| EvDeniedMove (fpath : string)
| EvErrorMove (fpath : string)
| EvEnd
| EvNotFound (directory : string)
| EvClearing (directory : string)
| EvFailedDelete (item_path : string)
| EvFinished (directory : string).

(** the calls that change the file system *)
Inductive fs_op :=
| OpMkdir (path : string)
| OpMove (src dest : string)
| OpUnlink (path : string)
| OpRmtree (path : string).

(** what a run has produced so far *)
Record state := St {
  log : list event;     (* oldest first *)
  ops : list fs_op;     (* oldest first *)
  ticks : nat           (* number of clock readings taken *)
}.

Definition st0 : state := St [] [] 0.

Definition emit (e : event) (s : state) : state :=
  St (log s ++ [e]) (ops s) (ticks s).

Definition perform (o : fs_op) (s : state) : state :=
  St (log s) (ops s ++ [o]) (ticks s).

(** [time.time()] *)
Definition time_time (w : world) (s : state) : Z * state :=
  (clock w (ticks s), St (log s) (ops s) (S (ticks s))).

(** a naive local [datetime], counted in seconds on the local calendar: the
    reading of the wall clock at the instant [t] *)
Definition local_time (w : world) (t : Z) : Z := t + utcoffset w t.

(** [datetime.datetime.now()] *)
Definition datetime_now (w : world) (s : state) : Z * state :=
  let '(t, s) := time_time w s in (local_time w t, s).

(** [datetime.datetime.fromtimestamp(t)] *)
Definition fromtimestamp (w : world) (t : Z) : result Z :=
  match fromtimestamp_error w t with
  | Some e => Raise e
  | None => Ok (local_time w t)
  end.

Definition ascii_uppercase : list ascii :=
  list_ascii_of_string "ABCDEFGHIJKLMNOPQRSTUVWXYZ".

(** [list.remove(x)]: drops the first occurrence *)
Fixpoint list_remove_first (x : string) (l : list string) : list string :=
  match l with
  | [] => []
  | y :: l' => if String.eqb y x then l' else y :: list_remove_first x l'
  end.

(** [os.walk(top, topdown=True)] driven by a loop body: the body receives
    [(root, dirs, files)] and hands back the [dirs] list as it has left it;
    the walk then descends into the names still on that list, in order.
    Every directory of the tree is visited; [os.walk] itself passes over a
    directory it cannot list and does not enter a linked one, so that it
    visits no more than this walk does. *)
Fixpoint os_walk {S : Type}
    (body : string -> list string -> list file -> S -> S * list string)
    (top : string) (d : dir) (s : S) : S :=
  match d with
  | Dir subdirs files =>
      let '(s1, dirs) := body top (fst <$> subdirs) files s in
      fold_left
        (fun acc dirname =>
           (fix lookup (l : list (string * dir)) : S :=
              match l with
              | [] => acc
              | (n, sub) :: l' =>
                  if String.eqb n dirname
                  then os_walk body (NtPath.join top dirname) sub acc
                  else lookup l'
              end) subdirs)
        dirs s1
  end.

(** ** auto_purge.py *)

Module AutoPurge.
Import PyStr.

(** [list_fixed_drives()] *)
Definition list_fixed_drives (w : world) : list string :=
  filter (fun root => is_Some (drives w !! root))
         ((fun letter => String letter ":\") <$> ascii_uppercase).

(** [disk_usage_safe(root)] *)
Definition disk_usage_safe (w : world) (root : string) : option (Z * Z * Z) :=
  disk_usage w root.

(** [short_hash(s)] *)
Definition short_hash (s : string) : string :=
  slice_to 8 (Sha256.hexdigest s).

(** [same_drive(p1, p2)] *)
Definition same_drive (p1 p2 : string) : bool :=
  String.eqb (lower (fst (NtPath.splitdrive p1)))
             (lower (fst (NtPath.splitdrive p2))).

(** [is_under(path, prefix)]; the [ValueError] of [commonpath] is the only
    exception the body can raise, and it is turned into [False] *)
Definition is_under (cwd path prefix : string) : bool :=
  if negb (same_drive path prefix) then false
  else
    match NtPath.commonpath (NtPath.abspath cwd path)
                            (NtPath.abspath cwd prefix) with
    | Some cp => String.eqb cp (NtPath.abspath cwd prefix)
    | None => false
    end.

(** [should_exclude_dir(root, exclude_dirs)] *)
Fixpoint should_exclude_dir (cwd root : string) (exclude_dirs : list string)
    : bool :=
  match exclude_dirs with
  | [] => false
  | ex :: rest =>
      if is_under cwd root ex then true
      else should_exclude_dir cwd root rest
  end.

(** [build_quarantine_dest(quarantine_root, src_path)] *)
Definition build_quarantine_dest (quarantine_root src_path : PathLib.PurePath)
    : result PathLib.PurePath :=
  let '(drive, _) := NtPath.splitdrive (PathLib.str src_path) in
  let drive_letter := or_else (remove_char ":" drive) "ROOT" in
  rel ← PathLib.relative_to src_path
          (PathLib.parse_path (drive +:+ NtPath.sep_s));
  let base := PathLib.stem src_path in
  let ext := PathLib.suffix src_path in
  let suffix := "__" +:+ short_hash (PathLib.str src_path) +:+ ext in
  Ok (PathLib.truediv_str
        (PathLib.truediv
           (PathLib.truediv_str quarantine_root drive_letter)
           (PathLib.parent rel))
        (base +:+ suffix)).

(** *** Configuration *)

(** the object read from config.json: a key that is absent is [None] *)
Record raw_config := RawConfig {
  raw_PROGRAM_DATA_DIR : option string;
  raw_EXCLUDE_DIRS : option (list string);
  raw_FILE_CATEGORIES : option (gmap string (list string));
  raw_retention_days : option Z;
  raw_dry_run : option bool;
  raw_AutoDelete : option bool
}.

Inductive config_file :=
| NoConfigFile
| BadConfigFile
| ConfigFile (raw : raw_config).

Record config := Config {
  PROGRAM_DATA_DIR : string;
  EXCLUDE_DIRS : list string;
  FILE_CATEGORIES : gmap string (list string);
  retention_days : Z;
  dry_run : bool;
  AutoDelete : bool
}.

(** the set built by the loop over [cfg["FILE_CATEGORIES"].values()] *)
Definition all_exts (cats : gmap string (list string)) : gset string :=
  fold_left (fun acc exts => acc ∪ list_to_set (lower <$> exts))
            (snd <$> map_to_list cats) ∅.

(** [load_config_or_exit()] *)
Definition load_config_or_exit (f : config_file) : result config :=
  match f with
  | NoConfigFile => Raise (SystemExit 1)
  | BadConfigFile => Raise (SystemExit 1)
  | ConfigFile raw =>
      match raw_PROGRAM_DATA_DIR raw, raw_EXCLUDE_DIRS raw,
            raw_FILE_CATEGORIES raw with
      | Some pdd, Some excl, Some cats =>
          Ok (Config pdd excl
                (<["all" := sorted (elements (all_exts cats))]> cats)
                (default 7 (raw_retention_days raw))
                (default false (raw_dry_run raw))
                (default false (raw_AutoDelete raw)))
      | _, _, _ => Raise (SystemExit 1)
      end
  end.

(** *** Clearing the quarantine *)

(** the body of the loop of [clear_directory] for one item *)
Definition clear_item (directory_path : string) (item : entry) (s : state)
    : state :=
  let item_path := NtPath.join directory_path (entry_name item) in
  match entry_kind_of item with
  | IsFile | IsLink =>
      let s := perform (OpUnlink item_path) s in
      match entry_delete item with
      | None => s
      | Some _ => emit (EvFailedDelete item_path) s
      end
  | IsDir =>
      let s := perform (OpRmtree item_path) s in
      match entry_delete item with
      | None => s
      | Some _ => emit (EvFailedDelete item_path) s
      end
  | IsOther => s
  end.

(** [clear_directory(directory_path, logger)]: the function has no
    [return] statement, so a call that does not raise yields [None] *)
Definition clear_directory (w : world) (directory_path : string) (s : state)
    : result pyval * state :=
  match listdir w directory_path with
  | None =>
      (Raise FileNotFoundError, emit (EvNotFound directory_path) s)
  | Some items =>
      let s := emit (EvClearing directory_path) s in
      let s := fold_left (fun s item => clear_item directory_path item s)
                         items s in
      (Ok PyNone, emit (EvFinished directory_path) s)
  end.

(** *** The scan *)

Section scan.
Context (w : world) (cfg : config).
Context (QUARANTINE_DIR : PathLib.PurePath).
Context (EXCLUDE_DIRS' : list string) (SELECTED_EXTS : gset string).
Context (cutoff_epoch : Z).

(** the [try] block that quarantines one matching file *)
Definition quarantine (f : file) (fpath : string) (age_days : Z)
    (s : state) : state :=
  let handler (e : exn) (s : state) : state :=
    match e with
    | PermissionError => emit (EvDeniedMove fpath) s
    | _ => emit (EvErrorMove fpath) s
    end in
  match build_quarantine_dest QUARANTINE_DIR (PathLib.parse_path fpath) with
  | Raise e => handler e s
  | Ok dest =>
      let s := perform (OpMkdir (PathLib.str (PathLib.parent dest))) s in
      match file_mkdir f with
      | Some e => handler e s
      | None =>
          let s := perform (OpMove fpath (PathLib.str dest)) s in
          match file_move f with
          | Some e => handler e s
          | None => emit (EvMove fpath (PathLib.str dest) age_days) s
          end
      end
  end.

(** the body of [for fname in files] *)
Definition scan_file (root : string) (f : file) (s : state) : state :=
  let fname := file_name f in
  let fpath := NtPath.join root fname in
  let ext := lower (snd (NtPath.splitext fname)) in
  if negb (bool_decide (ext ∈ SELECTED_EXTS)) then s
  else
    match file_stat f with
    | Raise FileNotFoundError => emit (EvGone fpath) s
    | Raise PermissionError => emit (EvDenied fpath) s
    | Raise _ => emit (EvError fpath) s
    | Ok mtime =>
        let '(now, s) := time_time w s in
        let age_days := (now - mtime) / 86400 in
        if mtime <? cutoff_epoch then
          let s := emit (EvMatch fpath age_days) s in
          if negb (dry_run cfg) then quarantine f fpath age_days s
          else s
        else emit (EvSkip fpath age_days) s
    end.

(** the body of [for root, dirs, files in os.walk(drive, topdown=True)] *)
Definition scan_dir (root : string) (dirs : list string)
    (files : list file) (s : state) : state * list string :=
  let pruned :=
    filter (fun d => Is_true (should_exclude_dir (getcwd w)
                                (NtPath.join root d) EXCLUDE_DIRS'))
           dirs in
  let dirs := fold_left (fun ds d => list_remove_first d ds) pruned dirs in
  let s := emit (EvScan root) s in
  let s := fold_left (fun s f => scan_file root f s) files s in
  (s, dirs).

(** [for drive in list_fixed_drives(): for ... in os.walk(drive)] *)
Definition scan_drives (s : state) : state :=
  fold_left
    (fun s drive =>
       match drives w !! drive with
       | Some d => os_walk scan_dir drive d s
       | None => s
       end)
    (list_fixed_drives w) s.
End scan.

(** [Path(p).resolve()]: the path that [os.path.realpath] gives, parsed *)
Definition resolve (w : world) (p : PathLib.PurePath) : PathLib.PurePath :=
  PathLib.parse_path (realpath w (PathLib.str p)).

(** [run_scan(cfg)] *)
Definition run_scan (w : world) (cfg : config) : result pyval * state :=
  let PROGRAM_DATA_DIR := PathLib.parse_path (PROGRAM_DATA_DIR cfg) in
  let QUARANTINE_DIR := PathLib.truediv_str PROGRAM_DATA_DIR "Quarantine" in
  let LOGS_DIR := PathLib.truediv_str PROGRAM_DATA_DIR "Logs" in
  let s := perform (OpMkdir (PathLib.str QUARANTINE_DIR)) st0 in
  let s := perform (OpMkdir (PathLib.str LOGS_DIR)) s in
  let EXCLUDE_DIRS' :=
    (NtPath.abspath (getcwd w) <$> EXCLUDE_DIRS cfg)
    ++ [ PathLib.str (resolve w QUARANTINE_DIR);
         PathLib.str (resolve w LOGS_DIR);
         PathLib.str (resolve w PROGRAM_DATA_DIR) ] in
  match FILE_CATEGORIES cfg !! "all" with
  | None => (Raise KeyError, s)
  | Some all =>
      let SELECTED_EXTS : gset string := list_to_set all in
      let s := emit (EvHeader (retention_days cfg) (dry_run cfg)) s in
      let s := fold_left
                 (fun s drive => emit (EvDiskUsage drive
                                         (disk_usage_safe w drive)) s)
                 (list_fixed_drives w) s in
      let '(now, s) := time_time w s in
      let cutoff_epoch := now - retention_days cfg * 86400 in
      let s := scan_drives w cfg QUARANTINE_DIR EXCLUDE_DIRS' SELECTED_EXTS
                           cutoff_epoch s in
      let s := emit EvEnd s in
      if AutoDelete cfg
      then clear_directory w (PathLib.str QUARANTINE_DIR) s
      else (Ok PyNone, s)
  end.

End AutoPurge.

(** ** safe_purge.py *)

Module SafePurge.
Import PyStr.

Definition PROGRAM_DATA_DIR : string := "C:\FilePurger".
Definition QUARANTINE_DIR : string := NtPath.join PROGRAM_DATA_DIR "Quarantine".
Definition LOG_DIR : string := NtPath.join PROGRAM_DATA_DIR "logs".

(** the dictionary literal, before the "all" entry is added *)
Definition FILE_CATEGORIES_literal : gmap string (list string) :=
  list_to_map
    [ ("documents", [".doc"; ".docx"; ".xls"; ".xlsx"; ".ppt"; ".pptx";
                     ".pdf"; ".csv"; ".rtf"]);
      ("videos", [".mp4"; ".avi"; ".mov"; ".mkv"; ".wmv"; ".m4v"; ".3gp";
                  ".flv"; ".webm"]);
      ("images", [".jpg"; ".jpeg"; ".png"; ".gif"; ".bmp"; ".tiff"; ".webp"]);
      ("archives", [".zip"; ".rar"; ".7z"; ".tar"; ".gz"]) ].

Definition FILE_CATEGORIES : gmap string (list string) :=
  <["all" :=
      sorted (elements
        (list_to_set (mjoin (snd <$> map_to_list FILE_CATEGORIES_literal))
           : gset string))]>
    FILE_CATEGORIES_literal.

Definition EXCLUDE_DIRS : list string :=
  [ "C:\Windows";
    "C:\Program Files";
    "C:\Program Files (x86)";
    "C:\ProgramData";
    "C:\Users\All Users";
    "C:\$Recycle.Bin";
    "C:\System Volume Information";
    "D:\Program Files";
    "D:\Program Files (x86)";
    "E:\Program Files";
    "E:\Program Files (x86)";
    "C:\FilePurger" ].

(** the loop of [is_excluded] over a list of entries *)
Fixpoint is_excluded_in (abs_path : string) (excludes : list string) : bool :=
  match excludes with
  | [] => false
  | excl :: rest =>
      match NtPath.commonpath abs_path excl with
      | Some cp =>
          if String.eqb cp excl then true else is_excluded_in abs_path rest
      | None => is_excluded_in abs_path rest     (* ValueError: continue *)
      end
  end.

(** [is_excluded(path)] *)
Definition is_excluded (cwd path : string) : bool :=
  is_excluded_in (NtPath.abspath cwd path) EXCLUDE_DIRS.

(** [get_all_drives()] *)
Definition get_all_drives (w : world) : list string :=
  filter (fun root => is_Some (drives w !! root))
         ((fun d => String d ":\") <$> ascii_uppercase).

(** [log_disk_usage()] *)
Definition log_disk_usage (w : world) (s : state) : state :=
  fold_left (fun s drive => emit (EvDiskUsage drive (disk_usage w drive)) s)
            (get_all_drives w) s.

(** [extensions and not file.lower().endswith(tuple(extensions))] *)
Definition filtered_out (extensions : list string) (file : string) : bool :=
  match extensions with
  | [] => false
  | _ => negb (existsb (fun e => endswith e (lower file)) extensions)
  end.

Section purge.
Context (w : world) (extensions : list string).
Context (now retention_days : Z) (dry_run : bool).

(** the body of [for file in files]; [now] and [mtime] are naive local
    datetimes, and [(now - mtime).days] is the floor of their difference in
    days *)
Definition purge_file (drive root : string) (f : file) (s : state)
    : state :=
  let file := file_name f in
  let file_path := NtPath.join root file in
  if filtered_out extensions file then s
  else
    match file_stat f ≫= fromtimestamp w with
    | Raise _ => emit (EvError file_path) s
    | Ok mtime =>
        let age_days := (now - mtime) / 86400 in
        if retention_days <=? age_days then
          let s := emit (EvMatch file_path age_days) s in
          if negb dry_run then
            match NtPath.relpath (getcwd w) file_path drive with
            | None => emit (EvError file_path) s
            | Some rel =>
                let dest_path := NtPath.join QUARANTINE_DIR rel in
                let s := perform (OpMkdir (NtPath.dirname dest_path)) s in
                match file_mkdir f with
                | Some _ => emit (EvError file_path) s
                | None =>
                    let s := perform (OpMove file_path dest_path) s in
                    match file_move f with
                    | Some _ => emit (EvError file_path) s
                    | None => emit (EvMove file_path dest_path age_days) s
                    end
                end
            end
          else s
        else emit (EvSkip file_path age_days) s
    end.

(** the body of [for root, dirs, files in os.walk(drive)] *)
Definition purge_dir (drive root : string) (dirs : list string)
    (files : list file) (s : state) : state * list string :=
  if is_excluded (getcwd w) root then (s, [])
  else (fold_left (fun s f => purge_file drive root f s) files s, dirs).

Definition purge_drives (s : state) : state :=
  fold_left
    (fun s drive =>
       match drives w !! drive with
       | Some d => os_walk (purge_dir drive) drive d s
       | None => s
       end)
    (get_all_drives w) s.
End purge.

(** [purge_files(categories, retention_days, dry_run)] *)
Definition purge_files (w : world) (categories : list string)
    (retention_days : Z) (dry_run : bool) : state :=
  let '(now, s) := datetime_now w st0 in
  let extensions :=
    mjoin ((fun cat => default [] (FILE_CATEGORIES !! cat)) <$> categories) in
  let s := log_disk_usage w s in
  let s := purge_drives w extensions now retention_days dry_run s in
  log_disk_usage w s.

End SafePurge.

(** ** Vocabulary of the specification *)

Module Spec.
Import PyStr.

(** the file a per-file event is about *)
Definition event_path (e : event) : option string :=
  match e with
  | EvMatch p _ | EvSkip p _ | EvMove p _ _ | EvGone p | EvDenied p
  | EvError p | EvDeniedMove p | EvErrorMove p => Some p
  | _ => None
  end.

Definition is_file_event (e : event) : bool :=
  bool_decide (is_Some (event_path e)).

Definition is_match (e : event) : bool :=
  match e with EvMatch _ _ => true | _ => false end.

Definition is_skip (e : event) : bool :=
  match e with EvSkip _ _ => true | _ => false end.

(** events of an attempted move: done, denied or failed *)
Definition is_move_event (e : event) : bool :=
  match e with
  | EvMove _ _ _ | EvDeniedMove _ | EvErrorMove _ => true
  | _ => false
  end.

(** what a step has added to the log *)
Definition new_events (s s' : state) : list event :=
  drop (length (log s)) (log s').

(** the directories the scan of a drive can reach: the drive root, and
    every child of a reached directory that the exclude list does not
    cover *)
Inductive reached (cwd : string) (exclude_dirs : list string)
    (drive : string) : string -> Prop :=
| reached_drive : reached cwd exclude_dirs drive drive
| reached_child root d :
    reached cwd exclude_dirs drive root ->
    AutoPurge.should_exclude_dir cwd (NtPath.join root d) exclude_dirs
      = false ->
    reached cwd exclude_dirs drive (NtPath.join root d).

(** the spec's [isExcludedDirectory], written after its words: the
    candidate is on the volume of some entry of the list (drive names do not
    distinguish letter case on Windows) and is that entry or below it,
    component by component *)
Definition volume (p : string) : string :=
  lower (fst (NtPath.splitdrive p)).

Definition segments (p : string) : list string :=
  let '(_, _, rest) :=
    NtPath.splitroot (replace_char NtPath.altsep NtPath.sep p) in
  filter (fun c => Is_true (NtPath.keep_comp c)) (split NtPath.sep rest).

Definition is_excluded_directory (candidate : string)
    (exclude_list : list string) : bool :=
  existsb (fun entry =>
             bool_decide (volume candidate = volume entry
                          ∧ segments entry `prefix_of` segments candidate))
          exclude_list.

(** the name of a file or of a folder: not empty, not ".", and free of
    separators and colons; [plain_char] is a character such a name may hold *)
Definition plain_char (c : ascii) : bool :=
  negb (NtPath.is_sep c) && negb (Ascii.eqb c NtPath.colon).

Fixpoint all_chars (P : ascii -> bool) (s : string) : bool :=
  match s with
  | EmptyString => true
  | String c s' => P c && all_chars P s'
  end.

Definition plain_name (s : string) : bool :=
  nonempty s && negb (String.eqb s ".") && all_chars plain_char s.

(** a hexadecimal digit, in lower case *)
Definition is_hex (c : ascii) : bool :=
  let n := N_of_ascii c in
  ((48 <=? n) && (n <=? 57) || (97 <=? n) && (n <=? 102))%N.

(** a character other than the alternative separator *)
Definition no_altsep (c : ascii) : bool := negb (Ascii.eqb c NtPath.altsep).

(** a name that is also not ".." *)
Definition proper_name (s : string) : bool :=
  plain_name s && negb (String.eqb s "..").

(** the spelling of an absolute path on a letter drive: [X:\a\b] *)
Definition render (c : ascii) (segs : list string) : string :=
  String c (String ":" (String "\" (join NtPath.sep_s segs))).

(** the spec's union of the lowercased extensions of all categories of a
    mapping *)
Definition lowered_union (cats : gmap string (list string)) : gset string :=
  ⋃ ((fun kv => list_to_set (lower <$> snd kv)) <$> map_to_list cats).

(** the extension filter of auto_purge as a function of the file name *)
Definition passes_filter (selected : gset string) (fname : string) : bool :=
  bool_decide (lower (snd (NtPath.splitext fname)) ∈ selected).

(** the spec's filter on an extension: [ext] is looked up lowercased *)
Definition ext_filter (selected : gset string) (ext : string) : bool :=
  bool_decide (lower ext ∈ selected).

(** two configurations that differ in letter case only *)
Definition same_up_to_case (cats cats' : gmap string (list string)) : Prop :=
  ∀ k, (fmap lower <$> cats !! k) = (fmap lower <$> cats' !! k).

(** deleting an item of the quarantine is attempted, and fails *)
Definition delete_fails (item : entry) : bool :=
  match entry_kind_of item, entry_delete item with
  | IsOther, _ => false
  | _, Some _ => true
  | _, None => false
  end.

(** the call that deletes an item *)
Definition delete_op (directory_path : string) (item : entry)
    : option fs_op :=
  let item_path := NtPath.join directory_path (entry_name item) in
  match entry_kind_of item with
  | IsFile | IsLink => Some (OpUnlink item_path)
  | IsDir => Some (OpRmtree item_path)
  | IsOther => None
  end.

(** a character map that leaves [c] alone and sends nothing else to it *)
Definition respects (f : ascii → ascii) (c : ascii) : Prop :=
  ∀ a, Ascii.eqb (f a) c = Ascii.eqb a c.

(** a string that is empty or begins with a character of a plain name *)
Definition head_plain (s : string) : Prop :=
  match s with
  | EmptyString => True
  | String c _ => plain_char c = true
  end.

(** the volume tag of a drive: the drive without its colon, or ROOT *)
Definition tag_of (d tag : string) : Prop :=
  (d = EmptyString ∧ tag = "ROOT")
  ∨ ∃ c, plain_name (String c EmptyString) = true
         ∧ d = String c ":" ∧ tag = String c EmptyString.

(** a line of the scan of auto_purge about file [f] of directory [root]: the
    file has passed the filter, and in a dry run the line is not about a
    move *)
Definition file_line (cfg : AutoPurge.config) (selected : gset string)
    (root : string) (f : file) (e : event) : Prop :=
  passes_filter selected (file_name f) = true
  ∧ event_path e = Some (NtPath.join root (file_name f))
  ∧ (AutoPurge.dry_run cfg = true → is_move_event e = false).

(** a line of the scan of [drive]: the visit of a reached directory, or a
    line about a file of a reached directory *)
Definition drive_line (w : world) (cfg : AutoPurge.config)
    (excl : list string) (selected : gset string) (drive : string)
    (e : event) : Prop :=
  ∃ root, reached (getcwd w) excl drive root
          ∧ (e = EvScan root ∨ ∃ f, file_line cfg selected root f e).

(** a line of the scan of safe_purge about file [f] of directory [root] *)
Definition purge_line (extensions : list string) (dry_run : bool)
    (root : string) (f : file) (e : event) : Prop :=
  SafePurge.filtered_out extensions (file_name f) = false
  ∧ event_path e = Some (NtPath.join root (file_name f))
  ∧ (dry_run = true → is_move_event e = false).

(** a line of safe_purge: about a file that was not filtered out, in a
    directory that [is_excluded] does not cover *)
Definition purge_scan_line (w : world) (extensions : list string)
    (dry_run : bool) (e : event) : Prop :=
  ∃ root f, SafePurge.is_excluded (getcwd w) root = false
            ∧ purge_line extensions dry_run root f e.

End Spec.

(** ** Hosts, configurations and files used as examples *)

Module Scenarios.
Import AutoPurge.

Definition cats_with_all : gmap string (list string) :=
  {[ "documents" := [".pdf"]; "all" := [".exe"] ]}.



Definition cats_upper : gmap string (list string) := {[ "documents" := [".PDF"] ]}.
Definition cats_lower : gmap string (list string) := {[ "documents" := [".pdf"] ]}.

Definition a_host : world :=
  World "C:\" (fun _ => 1000000) ∅ (fun _ => None) (fun _ => None).

Definition a_config : AutoPurge.config :=
  AutoPurge.Config "C:\FilePurger" [] ∅ 1 true false.



Definition old_file : file := File "a.pdf" (Ok 0) None None.

Definition exe_file : file := File "setup.EXE" (Ok 0) None None.

Definition host_with_drive_d : world :=
World "C:\tools" (fun _ => 1000000)
      {[ "D:\" := Dir [("Data", Dir [] [File "deep.pdf" (Ok 0) None None])]
                      [File "old.pdf" (Ok 0) None None] ]}
      (fun _ => None) (fun _ => None).

Definition config_excluding_d : config_file :=
ConfigFile (RawConfig (Some "C:\FilePurger") (Some ["D:\"])
                      (Some {[ "documents" := [".pdf"] ]})
                      (Some 7) (Some true) None).

(** the end-to-end scenario of the specification: one document aged two
    days, one recent document, one program, with a retention of one day *)
Definition host_with_documents : world :=
  World "C:\tools" (fun _ => 1000000)
        {[ "C:\" :=
             Dir [ ("Users",
                    Dir [("Bob", Dir [] [ File "report.pdf" (Ok 827200) None None;
                                          File "notes.PDF" (Ok 999000) None None;
                                          File "setup.exe" (Ok 0) None None ])]
                        []);
                   ("Windows", Dir [] [File "old.pdf" (Ok 0) None None]);
                   ("FilePurger",
                    Dir [("Quarantine", Dir [] [File "kept.pdf" (Ok 0) None None])]
                        []) ]
                 [] ]}
        (fun _ => None) (fun _ => None).

Definition config_documents (dry : bool) : config_file :=
  ConfigFile (RawConfig (Some "C:\FilePurger") (Some ["C:\Windows"])
                        (Some {[ "documents" := [".pdf"] ]})
                        (Some 1) (Some dry) None).

End Scenarios.

(** ** More hosts and configurations *)

Module Hosts.
Import AutoPurge.

(** what [load_config_or_exit] makes of [config_documents] *)
Definition documents_cfg (dry auto : bool) : config :=
  Config "C:\FilePurger" ["C:\Windows"]
         {[ "documents" := [".pdf"]; "all" := [".pdf"] ]} 1 dry auto.

(** a host whose quarantine holds a folder and a file that is locked *)
Definition host_with_full_quarantine : world :=
  World "C:\tools" (fun _ => 1000000) {[ "C:\" := Dir [] [] ]}
        (fun _ => None)
        (fun d => if String.eqb d "C:\FilePurger\Quarantine"
                  then Some [ Entry "C" IsDir None;
                              Entry "x.tmp" IsFile (Some PermissionError) ]
                  else None).

End Hosts.

(** ** Positions in a directory tree *)

Module Tree.

(** the sub-directory [os.walk] descends into for a name: the first entry of
    that name *)
Fixpoint lookup_dir (n : string) (l : list (string * dir)) : option dir :=
  match l with
  | [] => None
  | (n', sub) :: l' => if String.eqb n' n then Some sub else lookup_dir n l'
  end.

(** the directory found by following [names] downwards from [d] *)
Fixpoint descend (d : dir) (names : list string) : option dir :=
  match names with
  | [] => Some d
  | n :: rest =>
      match d with
      | Dir subdirs _ =>
          match lookup_dir n subdirs with
          | Some sub => descend sub rest
          | None => None
          end
      end
  end.

Definition files_of (d : dir) : list file :=
  match d with Dir _ files => files end.

(** the path [os.walk] gives to the directory reached from [top] through
    [names]: one [os.path.join] per level *)
Definition walk_path (top : string) (names : list string) : string :=
  fold_left NtPath.join names top.

(** no directory on the way from [top] down through [names] is covered by
    the exclude list *)
Fixpoint unpruned (cwd : string) (exclude_dirs : list string) (top : string)
    (names : list string) : bool :=
  match names with
  | [] => true
  | n :: rest =>
      negb (AutoPurge.should_exclude_dir cwd (NtPath.join top n) exclude_dirs)
      && unpruned cwd exclude_dirs (NtPath.join top n) rest
  end.

End Tree.

(** ** Vocabulary for safe_purge *)

Module PurgeVocabulary.

(** the entries of [EXCLUDE_DIRS] of safe_purge: drive letter and
    components *)
Definition excluded_entries : list (ascii * list string) :=
  [ ("C"%char, ["Windows"]);
    ("C"%char, ["Program Files"]);
    ("C"%char, ["Program Files (x86)"]);
    ("C"%char, ["ProgramData"]);
    ("C"%char, ["Users"; "All Users"]);
    ("C"%char, ["$Recycle.Bin"]);
    ("C"%char, ["System Volume Information"]);
    ("D"%char, ["Program Files"]);
    ("D"%char, ["Program Files (x86)"]);
    ("E"%char, ["Program Files"]);
    ("E"%char, ["Program Files (x86)"]);
    ("C"%char, ["FilePurger"]) ].

(** the [extensions] list that [purge_files] builds from the categories *)
Definition extensions_of (categories : list string) : list string :=
  mjoin ((fun cat => default [] (SafePurge.FILE_CATEGORIES !! cat))
           <$> categories).

(** [is_excluded] holds neither of [top] nor of a directory on the way from
    [top] down through [names] *)
Fixpoint unexcluded (cwd top : string) (names : list string) : bool :=
  negb (SafePurge.is_excluded cwd top)
  && match names with
     | [] => true
     | n :: rest => unexcluded cwd (NtPath.join top n) rest
     end.

(** a directory of the host that safe_purge examines *)
Definition examined_dir (w : world) (drive : string) (names : list string)
    (d' : dir) : Prop :=
  drive ∈ SafePurge.get_all_drives w
  ∧ ∃ d, drives w !! drive = Some d
         ∧ Tree.descend d names = Some d'
         ∧ unexcluded (getcwd w) drive names = true.

(** the line safe_purge writes first about a file it does not filter out *)
Definition purge_verdict (w : world) (now retention_days : Z)
    (fpath : string) (f : file) (e : event) : Prop :=
  match file_stat f ≫= fromtimestamp w with
  | Ok mtime =>
      e = if retention_days <=? (now - mtime) / 86400
          then EvMatch fpath ((now - mtime) / 86400)
          else EvSkip fpath ((now - mtime) / 86400)
  | Raise _ => e = EvError fpath
  end.

End PurgeVocabulary.

(** ** What the scan of auto_purge covers *)

Module Coverage.
Import AutoPurge Tree.

(** a directory of the host the scan comes to: it lies on an existing drive,
    at the end of [names], and no directory on the way is pruned *)
Definition scanned_dir (w : world) (exclude_dirs : list string)
    (drive : string) (names : list string) (d' : dir) : Prop :=
  drive ∈ list_fixed_drives w
  ∧ ∃ d, drives w !! drive = Some d
         ∧ descend d names = Some d'
         ∧ unpruned (getcwd w) exclude_dirs drive names = true.



(** the calls [o] of a stretch of the scan are accounted for by its lines
    [l]: nothing is deleted; a folder is created only for a file reported as
    a match; a move is that of a file reported as a match, to the destination
    computed for it, and the call just before it is the creation of the
    folder of that destination; and a line about a move being done has its
    move *)
Definition accounted (Q : PathLib.PurePath) (l : list event)
    (o : list fs_op) : Prop :=
  (∀ op, op ∈ o →
     match op with OpMkdir _ | OpMove _ _ => True | _ => False end)
  ∧ (∀ p, OpMkdir p ∈ o →
       ∃ src age d,
         EvMatch src age ∈ l
         ∧ build_quarantine_dest Q (PathLib.parse_path src) = Ok d
         ∧ p = PathLib.str (PathLib.parent d))
  ∧ (∀ i src dest,
       o !! i = Some (OpMove src dest) →
       ∃ age d j,
         EvMatch src age ∈ l
         ∧ build_quarantine_dest Q (PathLib.parse_path src) = Ok d
         ∧ dest = PathLib.str d
         ∧ i = S j
         ∧ o !! j = Some (OpMkdir (PathLib.str (PathLib.parent d))))
  ∧ (∀ src dest age,
       EvMove src dest age ∈ l → OpMove src dest ∈ o ∧ EvMatch src age ∈ l).

End Coverage.

(** ** The local variables of [run_scan] *)

Module RunScan.
Import AutoPurge.

Definition program_data_dir (cfg : config) : PathLib.PurePath :=
  PathLib.parse_path (PROGRAM_DATA_DIR cfg).

Definition quarantine_dir (cfg : config) : PathLib.PurePath :=
  PathLib.truediv_str (program_data_dir cfg) "Quarantine".

Definition logs_dir (cfg : config) : PathLib.PurePath :=
  PathLib.truediv_str (program_data_dir cfg) "Logs".

(** the directories of the program itself *)
Definition own_dirs (cfg : config) : list PathLib.PurePath :=
  [ quarantine_dir cfg; logs_dir cfg; program_data_dir cfg ].

(** the effective exclude list: the entries of the configuration made
    absolute, then the quarantine, log and data directories of the program *)
Definition effective_excludes (w : world) (cfg : config) : list string :=
  (NtPath.abspath (getcwd w) <$> EXCLUDE_DIRS cfg)
  ++ [ PathLib.str (resolve w (quarantine_dir cfg));
       PathLib.str (resolve w (logs_dir cfg));
       PathLib.str (resolve w (program_data_dir cfg)) ].

(** a call that deletes *)
Definition is_delete (o : fs_op) : bool :=
  match o with
  | OpUnlink _ | OpRmtree _ => true
  | _ => false
  end.

(** [SELECTED_EXTS], when the "all" category is there *)
Definition selected_exts (cfg : config) : gset string :=
  list_to_set (default [] (FILE_CATEGORIES cfg !! "all")).

(** the run up to the reading of the clock for the cutoff *)
Definition at_clock (w : world) (cfg : config) : state :=
  let s := perform (OpMkdir (PathLib.str (quarantine_dir cfg))) st0 in
  let s := perform (OpMkdir (PathLib.str (logs_dir cfg))) s in
  let s := emit (EvHeader (retention_days cfg) (dry_run cfg)) s in
  fold_left (fun s drive => emit (EvDiskUsage drive (disk_usage_safe w drive)) s)
            (list_fixed_drives w) s.

Definition cutoff_epoch (w : world) (cfg : config) : Z :=
  fst (time_time w (at_clock w cfg)) - retention_days cfg * 86400.

(** the state in which the walk over the drives starts, and the one in which
    it ends *)
Definition before_walk (w : world) (cfg : config) : state :=
  snd (time_time w (at_clock w cfg)).

Definition after_walk (w : world) (cfg : config) : state :=
  scan_drives w cfg (quarantine_dir cfg) (effective_excludes w cfg)
              (selected_exts cfg) (cutoff_epoch w cfg) (before_walk w cfg).

(** the configuration as the file that [json.dump] would write from it *)
Definition dump (cfg : config) : config_file :=
  ConfigFile (RawConfig (Some (PROGRAM_DATA_DIR cfg)) (Some (EXCLUDE_DIRS cfg))
                        (Some (FILE_CATEGORIES cfg))
                        (Some (retention_days cfg)) (Some (dry_run cfg))
                        (Some (AutoDelete cfg))).

End RunScan.

(** * Properties *)

(** ** SHA-256 on known digests *)

Module Sha256Tests.

Example sha256_empty :
  Sha256.hexdigest EmptyString = "e3b0c44298fc1c149afbf4c8996fb92427ae41e4649b934ca495991b7852b855".
Proof. vm_compute. reflexivity. Qed.
Example sha256_abc :
  Sha256.hexdigest "abc" = "ba7816bf8f01cfea414140de5dae2223b00361a396177a9cb410ff61f20015ad".
Proof. vm_compute. reflexivity. Qed.
Example sha256_70 :
  Sha256.hexdigest "aaaaaaaaaaaaaaaaaaaaaaaaaaaaaaaaaaaaaaaaaaaaaaaaaaaaaaaaaaaaaaaaaaaaaa" = "6bd5e5034855a11241f0dee8fc72850ffd9955b28347a86428b5fa19119f6ad0".
Proof. vm_compute. reflexivity. Qed.
Example sha256_path :
  Sha256.hexdigest "C:\Users\Bob\Docs\report.pdf" = "cfed6ca1eb38852d57b689ff1534cba47a0d05dcd43ad187dc13faf669133a77".
Proof. vm_compute. reflexivity. Qed.

End Sha256Tests.

(** ** Strings *)

Module PyStrFacts.
Import PyStr.

Lemma lower_char_idemp c : lower_char (lower_char c) = lower_char c.
Proof. destruct c as [[] [] [] [] [] [] [] []]; reflexivity. Qed.

Lemma lower_idemp s : lower (lower s) = lower s.
Proof.
  induction s as [|c s IH]; simpl; [done|].
  unfold lower in *; simpl. by rewrite lower_char_idemp, IH.
Qed.

Lemma elem_of_sorted (x : string) l : x ∈ sorted l ↔ x ∈ l.
Proof. unfold sorted. by rewrite merge_sort_Permutation. Qed.

Lemma sorted_Sorted l : Sorted String.le (sorted l).
Proof. apply (Sorted_merge_sort String.le). Qed.

Lemma sorted_NoDup l : NoDup l → NoDup (sorted l).
Proof. unfold sorted. by rewrite merge_sort_Permutation. Qed.

Lemma nonempty_true s : nonempty s = true ↔ s ≠ EmptyString.
Proof. destruct s; simpl; split; congruence. Qed.

Lemma append_nil_r s : s +:+ EmptyString = s.
Proof. induction s; simpl; unfold String.app in *; simpl; congruence. Qed.

Lemma append_assoc a b c : (a +:+ b) +:+ c = a +:+ (b +:+ c).
Proof. induction a; simpl; unfold String.app in *; simpl; congruence. Qed.

End PyStrFacts.

(** ** Loading the configuration *)

Module ConfigFacts.
Import PyStr PyStrFacts AutoPurge.

Lemma elem_of_fold_exts (l : list (list string)) (acc : gset string) x :
  x ∈ fold_left (fun acc exts => acc ∪ list_to_set (lower <$> exts)) l acc
  ↔ x ∈ acc ∨ ∃ exts e, exts ∈ l ∧ e ∈ exts ∧ x = lower e.
Proof.
  revert acc. induction l as [|exts l IH]; intros acc; simpl.
  - split; [auto|]. intros [?|(?&?&H&_)]; [done|]. by apply elem_of_nil in H.
  - rewrite IH, elem_of_union, elem_of_list_to_set, list_elem_of_fmap.
    split.
    + intros [[?|(e&->&?)]|(exts'&e&?&?&->)]; [by left|right..].
      * exists exts, e. by rewrite elem_of_cons; auto.
      * exists exts', e. by rewrite elem_of_cons; auto.
    + intros [?|(exts'&e&[->|?]%elem_of_cons&?&->)]; [by auto|left|right].
      * right. by exists e.
      * by exists exts', e.
Qed.

(** the set gathered by the loop holds the lowered extensions of every
    category of the input, whatever its key *)
Lemma elem_of_all_exts (cats : gmap string (list string)) x :
  x ∈ all_exts cats
  ↔ ∃ k exts e, cats !! k = Some exts ∧ e ∈ exts ∧ x = lower e.
Proof.
  unfold all_exts. rewrite elem_of_fold_exts. split.
  - intros [H|(exts&e&H&?&->)]; [by apply not_elem_of_empty in H|].
    apply list_elem_of_fmap in H as ([k exts']&->&H).
    apply elem_of_map_to_list in H. by exists k, exts', e.
  - intros (k&exts&e&H&?&->). right. exists exts, e. split; [|done].
    apply list_elem_of_fmap. exists (k, exts). split; [done|].
    by apply elem_of_map_to_list.
Qed.

Lemma all_exts_lowered cats x : x ∈ all_exts cats → lower x = x.
Proof.
  intros (k&exts&e&_&_&->)%elem_of_all_exts. apply lower_idemp.
Qed.

End ConfigFacts.

Module ConfigTheorems.
Import PyStr PyStrFacts AutoPurge ConfigFacts Spec Scenarios.

Lemma elem_of_lowered_union cats x :
  x ∈ lowered_union cats
  ↔ ∃ k exts e, cats !! k = Some exts ∧ e ∈ exts ∧ x = lower e.
Proof.
  unfold lowered_union. rewrite elem_of_union_list. split.
  - intros (X&HX&Hx). apply list_elem_of_fmap in HX as ([k exts]&->&H).
    apply elem_of_map_to_list in H. simpl in Hx.
    apply elem_of_list_to_set, list_elem_of_fmap in Hx as (e&->&?).
    by exists k, exts, e.
  - intros (k&exts&e&H&?&->).
    exists (list_to_set (lower <$> exts)). split.
    + apply list_elem_of_fmap. exists (k, exts). split; [done|].
      by apply elem_of_map_to_list.
    + apply elem_of_list_to_set, list_elem_of_fmap. by exists e.
Qed.

(** the loop of [load_config_or_exit] computes the union of the spec *)
Lemma all_exts_lowered_union cats : all_exts cats = lowered_union cats.
Proof.
  apply set_eq. intros x.
  by rewrite elem_of_all_exts, elem_of_lowered_union.
Qed.

(** C8, as stated, fails: when the input has an "all" key of its own, the
    loaded "all" category is not the union of the other categories; the
    extensions the user listed under "all" are part of it. *)
Lemma C8_user_all_is_merged :
  ∃ cfg l,
    load_config_or_exit
      (ConfigFile (RawConfig (Some "C:\FilePurger") (Some [])
                             (Some cats_with_all) None None None)) = Ok cfg
    ∧ FILE_CATEGORIES cfg !! "all" = Some l
    ∧ list_to_set l ≠ lowered_union (delete "all" cats_with_all).
Proof.
  eexists _, _. split; [reflexivity|]. split.
  { simpl. apply lookup_insert_eq. }
  intros Heq.
  assert (".exe" ∈ lowered_union (delete "all" cats_with_all)) as Hin.
  { rewrite <- Heq.
    apply elem_of_list_to_set, elem_of_sorted, elem_of_elements.
    apply elem_of_all_exts. exists "all", [".exe"], ".exe".
    split; [vm_compute; reflexivity|].
    split; [apply list_elem_of_here|reflexivity]. }
  apply elem_of_lowered_union in Hin as (k&exts&e&Hk&He&Hx).
  destruct (decide (k = "all")) as [->|Hne].
  { rewrite lookup_delete_eq in Hk. discriminate. }
  rewrite lookup_delete_ne in Hk by (intros E; apply Hne; symmetry; exact E).
  unfold cats_with_all in Hk.
  destruct (decide (k = "documents")) as [->|Hne'].
  - rewrite lookup_insert_eq in Hk. injection Hk as <-.
    apply list_elem_of_singleton in He as ->. discriminate.
  - rewrite lookup_insert_ne in Hk
      by (intros E; apply Hne'; symmetry; exact E).
    rewrite lookup_singleton_ne in Hk
      by (intros E; apply Hne; symmetry; exact E).
    discriminate.
Qed.

(** C8, amended: loading succeeds whenever the three required keys are
    there, and the "all" category of the result is the sorted,
    duplicate-free union of the lowercased extensions of every category of
    the input, an "all" entry of the input included; the other categories
    are kept as they are.  When the input has no "all" key, this is the
    union of the other categories. *)
Theorem C8_all_is_union_of_every_input_category
    (pdd : string) (excl : list string) (cats : gmap string (list string))
    (rd : option Z) (dr ad : option bool) :
  ∃ cfg l,
    load_config_or_exit
      (ConfigFile (RawConfig (Some pdd) (Some excl) (Some cats) rd dr ad))
      = Ok cfg
    ∧ FILE_CATEGORIES cfg = <["all" := l]> cats
    ∧ list_to_set l = lowered_union cats
    ∧ NoDup l ∧ Sorted String.le l
    ∧ (cats !! "all" = None →
       list_to_set l = lowered_union (delete "all" cats)).
Proof.
  eexists _, _. split; [reflexivity|]. split; [reflexivity|].
  assert (list_to_set (sorted (elements (all_exts cats)))
          = lowered_union cats) as Hset.
  { apply set_eq. intros x.
    by rewrite elem_of_list_to_set, elem_of_sorted, elem_of_elements,
      all_exts_lowered_union. }
  split; [done|]. split; [apply sorted_NoDup, NoDup_elements|].
  split; [apply sorted_Sorted|].
  intros Hnone. by rewrite delete_id.
Qed.

Lemma C8_all_is_union_of_every_input_category_witness :
  ({[ "documents" := [".PDF"] ]} : gmap string (list string)) !! "all" = None
  ∧ ∃ cfg l,
      load_config_or_exit
        (ConfigFile (RawConfig (Some "C:\FilePurger") (Some [])
                               (Some {[ "documents" := [".PDF"] ]})
                               None None None)) = Ok cfg
      ∧ FILE_CATEGORIES cfg = <["all" := l]> {[ "documents" := [".PDF"] ]}
      ∧ list_to_set l
        = lowered_union (delete "all" {[ "documents" := [".PDF"] ]}).
Proof.
  assert (({[ "documents" := [".PDF"] ]} : gmap string (list string))
            !! "all" = None) as Hnone by (vm_compute; reflexivity).
  split; [exact Hnone|].
  destruct (C8_all_is_union_of_every_input_category "C:\FilePurger" []
              {[ "documents" := [".PDF"] ]} None None None)
    as (cfg&l&Hload&Hcats&_&_&_&Hother).
  exists cfg, l. split; [exact Hload|]. split; [exact Hcats|].
  exact (Hother Hnone).
Defined.

End ConfigTheorems.

(** ** Clearing the quarantine *)

Module ClearTheorems.
Import PyStr AutoPurge Spec Scenarios.

Lemma clear_item_ops d item s :
  ops (clear_item d item s) = ops s ++ option_list (delete_op d item).
Proof.
  unfold clear_item, delete_op.
  destruct (entry_kind_of item), (entry_delete item); simpl;
    by rewrite ?app_nil_r.
Qed.

Lemma clear_item_log d item s :
  log (clear_item d item s)
  = log s ++ (if delete_fails item
              then [EvFailedDelete (NtPath.join d (entry_name item))]
              else []).
Proof.
  unfold clear_item, delete_fails.
  destruct (entry_kind_of item), (entry_delete item); simpl;
    by rewrite ?app_nil_r.
Qed.

Lemma clear_items_ops d items s :
  ops (fold_left (fun s item => clear_item d item s) items s)
  = ops s ++ omap (delete_op d) items.
Proof.
  revert s. induction items as [|item items IH]; intros s; simpl.
  - by rewrite app_nil_r.
  - rewrite IH, clear_item_ops.
    destruct (delete_op d item); simpl; by rewrite <- ?app_assoc, ?app_nil_r.
Qed.

Lemma clear_items_log d items s :
  log (fold_left (fun s item => clear_item d item s) items s)
  = log s ++ ((fun item => EvFailedDelete (NtPath.join d (entry_name item)))
              <$> filter (fun item => Is_true (delete_fails item)) items).
Proof.
  revert s. induction items as [|item items IH]; intros s; simpl.
  - by rewrite app_nil_r.
  - rewrite IH, clear_item_log, filter_cons.
    case_decide as Hf; destruct (delete_fails item); try done; simpl.
    + by rewrite <- app_assoc.
    + by rewrite app_nil_r.
Qed.




End ClearTheorems.

(** ** The extension filter *)

Module FilterFacts.
Import PyStr PyStrFacts Spec.

Lemma lower_respects_dot : respects lower_char ".".
Proof. intros [[] [] [] [] [] [] [] []]; reflexivity. Qed.
Lemma lower_respects_sep : respects lower_char NtPath.sep.
Proof. intros [[] [] [] [] [] [] [] []]; reflexivity. Qed.
Lemma lower_respects_altsep : respects lower_char NtPath.altsep.
Proof. intros [[] [] [] [] [] [] [] []]; reflexivity. Qed.

Lemma rfind_map f c s : respects f c → rfind c (map_chars f s) = rfind c s.
Proof.
  intros Hf. induction s as [|a s IH]; simpl; [done|]. by rewrite IH, Hf.
Qed.

Lemma slice_to_map f n s :
  slice_to n (map_chars f s) = map_chars f (slice_to n s).
Proof.
  revert s. induction n as [|n IH]; intros [|a s]; simpl; try done.
  by rewrite IH.
Qed.

Lemma slice_from_map f n s :
  slice_from n (map_chars f s) = map_chars f (slice_from n s).
Proof. revert s. induction n as [|n IH]; intros [|a s]; simpl; by auto. Qed.

Lemma slice_map f n m s :
  slice n m (map_chars f s) = map_chars f (slice n m s).
Proof. unfold slice. by rewrite slice_from_map, slice_to_map. Qed.

Lemma remove_char_map f c s :
  respects f c →
  remove_char c (map_chars f s) = map_chars f (remove_char c s).
Proof.
  intros Hf. induction s as [|a s IH]; simpl; [done|].
  rewrite Hf, IH. by destruct (Ascii.eqb a c).
Qed.

Lemma eqb_empty_map f s :
  String.eqb (map_chars f s) EmptyString = String.eqb s EmptyString.
Proof. by destruct s. Qed.

(** [splitext] commutes with lowering the name *)
Lemma splitext_lower p :
  NtPath.splitext (lower p)
  = (lower (fst (NtPath.splitext p)), lower (snd (NtPath.splitext p))).
Proof.
  unfold NtPath.splitext, lower.
  rewrite !rfind_map
    by auto using lower_respects_dot, lower_respects_sep,
                  lower_respects_altsep.
  rewrite slice_map, remove_char_map, eqb_empty_map
    by apply lower_respects_dot.
  rewrite slice_to_map, slice_from_map.
  by destruct (_ && _).
Qed.

Lemma passes_filter_lower selected fname :
  passes_filter selected (lower fname) = passes_filter selected fname.
Proof.
  unfold passes_filter. rewrite splitext_lower. simpl.
  by rewrite lower_idemp.
Qed.

Lemma all_exts_same_up_to_case cats cats' :
  same_up_to_case cats cats' → AutoPurge.all_exts cats = AutoPurge.all_exts cats'.
Proof.
  assert (∀ c c', same_up_to_case c c' →
            AutoPurge.all_exts c ⊆ AutoPurge.all_exts c') as Hsub.
  { intros c c' H x (k&exts&e&Hk&He&->)%ConfigFacts.elem_of_all_exts.
    specialize (H k). rewrite Hk in H. simpl in H.
    destruct (c' !! k) as [exts'|] eqn:Hk'; simplify_eq/=.
    assert (lower e ∈ lower <$> exts') as (e'&->&?)%list_elem_of_fmap.
    { rewrite <- H. by apply list_elem_of_fmap_2. }
    apply ConfigFacts.elem_of_all_exts. by exists k, exts', e'. }
  intros H. apply set_eq. intros x. split; apply Hsub; [done|].
  intros k. by rewrite H.
Qed.

Lemma filtered_out_lower extensions file :
  SafePurge.filtered_out extensions (lower file)
  = SafePurge.filtered_out extensions file.
Proof. unfold SafePurge.filtered_out. by rewrite lower_idemp. Qed.

End FilterFacts.

(** ** The directory walk *)

Module WalkFacts.
Import PyStr Spec.

Lemma dir_ind' (P : dir → Prop) :
  (∀ subdirs files, Forall (fun nd => P (snd nd)) subdirs →
                    P (Dir subdirs files)) →
  ∀ d, P d.
Proof.
  intros H. fix IH 1. intros [subdirs files]. apply H.
  induction subdirs as [|[n d] l IHl]; constructor; [apply IH|apply IHl].
Qed.

(** an invariant [P] of the loop body is an invariant of the walk, and the
    body only ever sees directories satisfying [R] when [R] holds of the
    top and passes from a directory to the children left on [dirs] *)
Lemma os_walk_inv {S : Type}
    (body : string → list string → list file → S → S * list string)
    (P : S → Prop) (R : string → Prop) :
  (∀ root dirs files s, R root → P s →
      P (fst (body root dirs files s))
      ∧ ∀ d, d ∈ snd (body root dirs files s) → R (NtPath.join root d)) →
  ∀ d top s, R top → P s → P (os_walk body top d s).
Proof.
  intros Hbody. induction d as [subdirs files IH] using dir_ind'.
  intros top s HR HP. simpl.
  destruct (Hbody top (fst <$> subdirs) files s HR HP) as [HP1 HR1].
  destruct (body top (fst <$> subdirs) files s) as [s1 dirs]. simpl in *.
  revert s1 HP1. induction dirs as [|dirname dirs IHdirs]; intros s1 HP1.
  { done. }
  simpl. apply IHdirs.
  { intros d' Hd'. apply HR1. by right. }
  assert (R (NtPath.join top dirname)) as HRd by (apply HR1; by left).
  clear IHdirs HR1. induction IH as [|[n sub] l Hsub _ IHl]; [done|].
  destruct (String.eqb n dirname); [by apply Hsub|apply IHl].
Qed.

Lemma remove_first_notin x ys m :
  x ∉ ys →
  fold_left (fun ds d => list_remove_first d ds) ys (x :: m)
  = x :: fold_left (fun ds d => list_remove_first d ds) ys m.
Proof.
  revert m. induction ys as [|y ys IH]; intros m Hx; simpl; [done|].
  apply not_elem_of_cons in Hx as [Hne Hx].
  destruct (String.eqb x y) eqn:E.
  { apply String.eqb_eq in E. congruence. }
  by apply IH.
Qed.

(** removing, one by one, the entries selected by [P] leaves the others *)
Lemma prune_in_place (P : string → Prop) `{∀ x, Decision (P x)} l :
  fold_left (fun ds d => list_remove_first d ds) (filter P l) l
  = filter (fun x => ¬ P x) l.
Proof.
  induction l as [|x l IH]; [done|].
  rewrite !filter_cons. destruct (decide (P x)) as [HP|HP].
  - rewrite decide_False by tauto. simpl. by rewrite String.eqb_refl.
  - rewrite decide_True by done. rewrite remove_first_notin; [by rewrite IH|].
    intros Hin%list_elem_of_filter. tauto.
Qed.

End WalkFacts.

(** ** The scan of auto_purge *)

Module ScanFacts.
Import PyStr Spec AutoPurge WalkFacts.

Lemma new_events_app s s' l : log s' = log s ++ l → new_events s s' = l.
Proof. intros H. unfold new_events. by rewrite H, drop_app_length. Qed.

Section scan.
Context (w : world) (cfg : config) (Q : PathLib.PurePath).
Context (excl : list string) (selected : gset string) (cutoff : Z).

Local Abbreviation from_file := (file_line cfg selected).
Local Abbreviation from_drive := (drive_line w cfg excl selected).

(** an attempted move adds one line, about that move, and reads no clock *)
Lemma quarantine_log f fpath age s :
  ∃ e, log (quarantine Q f fpath age s) = log s ++ [e]
       ∧ is_move_event e = true ∧ event_path e = Some fpath
       ∧ ticks (quarantine Q f fpath age s) = ticks s.
Proof.
  unfold quarantine.
  destruct (build_quarantine_dest _ _) as [dest|e].
  2:{ destruct e; eexists; simpl; eauto. }
  destruct (file_mkdir f) as [e|].
  { destruct e; eexists; simpl; eauto. }
  destruct (file_move f) as [e|].
  { destruct e; eexists; simpl; eauto. }
  eexists; simpl; eauto.
Qed.

Lemma scan_file_filtered root f s :
  passes_filter selected (file_name f) = false →
  scan_file w cfg Q selected cutoff root f s = s.
Proof. unfold scan_file, passes_filter. by intros ->. Qed.

(** what [scan_file] does with a file that passes the filter and whose
    time stamp can be read *)
Lemma scan_file_classified root f mtime s :
  passes_filter selected (file_name f) = true →
  file_stat f = Ok mtime →
  let fpath := NtPath.join root (file_name f) in
  let age := (clock w (ticks s) - mtime) / 86400 in
  let s1 := St (log s) (ops s) (S (ticks s)) in
  scan_file w cfg Q selected cutoff root f s
  = if mtime <? cutoff then
      if dry_run cfg then emit (EvMatch fpath age) s1
      else quarantine Q f fpath age (emit (EvMatch fpath age) s1)
    else emit (EvSkip fpath age) s1.
Proof.
  unfold scan_file, passes_filter. intros -> ->. simpl.
  by destruct (mtime <? cutoff), (dry_run cfg).
Qed.

Lemma scan_file_log root f s :
  ∃ l, log (scan_file w cfg Q selected cutoff root f s) = log s ++ l
       ∧ Forall (from_file root f) l.
Proof.
  destruct (passes_filter selected (file_name f)) eqn:Hp.
  2:{ rewrite scan_file_filtered by done. exists []. by rewrite app_nil_r. }
  assert (∀ e, event_path e = Some (NtPath.join root (file_name f)) →
               is_move_event e = false → from_file root f e) as Hplain.
  { intros e ? ?. by split. }
  destruct (file_stat f) as [mtime|e] eqn:Hs.
  - rewrite (scan_file_classified _ _ mtime) by done.
    destruct (mtime <? cutoff); [destruct (dry_run cfg) eqn:Hd|].
    + eexists [_]. simpl. split; [done|].
      constructor; [by apply Hplain|constructor].
    + destruct (quarantine_log f (NtPath.join root (file_name f))
                  ((clock w (ticks s) - mtime) / 86400)
                  (emit (EvMatch (NtPath.join root (file_name f))
                           ((clock w (ticks s) - mtime) / 86400))
                        (St (log s) (ops s) (S (ticks s)))))
        as (e&->&_&He&_).
      simpl. eexists [_; _]. rewrite <- app_assoc. simpl.
      split; [done|].
      constructor; [by apply Hplain|].
      constructor; [|constructor].
      split; [done|]. split; [done|]. rewrite Hd. discriminate.
    + eexists [_]. simpl. split; [done|].
      constructor; [by apply Hplain|constructor].
  - unfold scan_file. unfold passes_filter in Hp. rewrite Hp, Hs. simpl.
    destruct e; eexists [_]; simpl; (split; [done|]);
      (constructor; [by apply Hplain|constructor]).
Qed.

(** a dry run calls nothing that changes the file system *)
Lemma scan_file_dry_ops root f s :
  dry_run cfg = true → ops (scan_file w cfg Q selected cutoff root f s) = ops s.
Proof.
  intros Hd. unfold scan_file. rewrite Hd. simpl.
  destruct (bool_decide _); simpl; [|done].
  destruct (file_stat f) as [mtime|[]]; simpl; try done.
  by destruct (mtime <? cutoff).
Qed.

Lemma scan_files_log root files s :
  ∃ l, log (fold_left (fun s f => scan_file w cfg Q selected cutoff root f s)
                      files s) = log s ++ l
       ∧ Forall (fun e => ∃ f, f ∈ files ∧ from_file root f e) l.
Proof.
  revert s. induction files as [|f files IH]; intros s; simpl.
  { exists []. by rewrite app_nil_r. }
  destruct (IH (scan_file w cfg Q selected cutoff root f s)) as (l2&->&H2).
  destruct (scan_file_log root f s) as (l1&->&H1).
  exists (l1 ++ l2). rewrite <- app_assoc. split; [done|].
  apply Forall_app. split.
  - eapply Forall_impl; [exact H1|]. intros e He. exists f.
    split; [by left|done].
  - eapply Forall_impl; [exact H2|]. intros e (f'&?&?). exists f'.
    split; [by right|done].
Qed.

Lemma scan_files_dry_ops root files s :
  dry_run cfg = true →
  ops (fold_left (fun s f => scan_file w cfg Q selected cutoff root f s)
                 files s) = ops s.
Proof.
  intros Hd. revert s. induction files as [|f files IH]; intros s; simpl.
  - done.
  - by rewrite IH, scan_file_dry_ops.
Qed.

(** the in-place pruning leaves on [dirs] the names whose path the
    exclude list does not cover *)
Lemma scan_dir_dirs root dirs files s :
  snd (scan_dir w cfg Q excl selected cutoff root dirs files s)
  = filter (fun d => ¬ Is_true (should_exclude_dir (getcwd w)
                                  (NtPath.join root d) excl)) dirs.
Proof. unfold scan_dir. simpl. apply prune_in_place. Qed.

Lemma scan_dir_log root dirs files s :
  ∃ l, log (fst (scan_dir w cfg Q excl selected cutoff root dirs files s))
       = log s ++ EvScan root :: l
       ∧ Forall (fun e => ∃ f, f ∈ files ∧ from_file root f e) l.
Proof.
  unfold scan_dir. simpl.
  destruct (scan_files_log root files (emit (EvScan root) s)) as (l&->&H).
  exists l. simpl. by rewrite <- app_assoc.
Qed.

Lemma walk_log drive d s :
  ∃ l, log (os_walk (scan_dir w cfg Q excl selected cutoff) drive d s)
       = log s ++ l
       ∧ Forall (from_drive drive) l.
Proof.
  apply (os_walk_inv (scan_dir w cfg Q excl selected cutoff)
           (fun s' => ∃ l, log s' = log s ++ l ∧ Forall (from_drive drive) l)
           (reached (getcwd w) excl drive)).
  - intros root dirs files s' Hroot (l&Hl&HF). split.
    + destruct (scan_dir_log root dirs files s') as (l'&->&HF').
      exists (l ++ EvScan root :: l'). rewrite Hl, <- app_assoc.
      split; [done|]. apply Forall_app. split; [done|].
      constructor; [exists root; by auto|].
      eapply Forall_impl; [exact HF'|]. intros e (f&_&Hf).
      exists root. split; [done|]. right. by exists f.
    + intros d'. rewrite scan_dir_dirs.
      intros [Hd' _]%list_elem_of_filter. constructor; [done|].
      by destruct (should_exclude_dir _ _ _).
  - constructor.
  - exists []. by rewrite app_nil_r.
Qed.

Lemma walk_dry_ops drive d s :
  dry_run cfg = true →
  ops (os_walk (scan_dir w cfg Q excl selected cutoff) drive d s) = ops s.
Proof.
  intros Hd.
  apply (os_walk_inv (scan_dir w cfg Q excl selected cutoff)
           (fun s' => ops s' = ops s) (fun _ => True)); try done.
  intros root dirs files s' _ Hs'. split; [|done].
  unfold scan_dir. simpl. by rewrite scan_files_dry_ops.
Qed.

Lemma scan_drives_log s :
  ∃ l, log (scan_drives w cfg Q excl selected cutoff s) = log s ++ l
       ∧ Forall (fun e => ∃ drive, drive ∈ list_fixed_drives w
                                   ∧ from_drive drive e) l.
Proof.
  unfold scan_drives. generalize (list_fixed_drives w) as ds.
  intros ds. revert s. induction ds as [|drive ds IH]; intros s; simpl.
  { exists []. by rewrite app_nil_r. }
  set (s1 := match drives w !! drive with
             | Some d => os_walk _ drive d s | None => s end).
  assert (∃ l, log s1 = log s ++ l ∧ Forall (from_drive drive) l)
    as (l1&Hl1&HF1).
  { subst s1. destruct (drives w !! drive); [apply walk_log|].
    exists []. by rewrite app_nil_r. }
  destruct (IH s1) as (l2&->&HF2). rewrite Hl1.
  exists (l1 ++ l2). rewrite <- app_assoc. split; [done|].
  apply Forall_app. split.
  - eapply Forall_impl; [exact HF1|]. intros e He. exists drive.
    split; [by left|done].
  - eapply Forall_impl; [exact HF2|]. intros e (dr&?&?). exists dr.
    split; [by right|done].
Qed.

Lemma scan_drives_dry_ops s :
  dry_run cfg = true →
  ops (scan_drives w cfg Q excl selected cutoff s) = ops s.
Proof.
  intros Hd. unfold scan_drives. generalize (list_fixed_drives w) as ds.
  intros ds. revert s. induction ds as [|drive ds IH]; intros s; simpl.
  { done. }
  rewrite IH. destruct (drives w !! drive); [by apply walk_dry_ops|done].
Qed.
End scan.

End ScanFacts.

(** ** The scan of safe_purge *)

Module PurgeFacts.
Import PyStr Spec SafePurge WalkFacts.

Section purge.
Context (w : world) (extensions : list string).
Context (now retention_days : Z) (dry_run : bool).

Local Abbreviation from_file := (purge_line extensions dry_run).
Local Abbreviation from_scan := (purge_scan_line w extensions dry_run).

Lemma purge_file_filtered drive root f s :
  filtered_out extensions (file_name f) = true →
  purge_file w extensions now retention_days dry_run drive root f s = s.
Proof. unfold purge_file. by intros ->. Qed.

(** what [purge_file] adds to the log for a file that is not filtered out
    and whose time stamp can be read *)
Lemma purge_file_classified drive root f t mtime s :
  filtered_out extensions (file_name f) = false →
  file_stat f = Ok t →
  fromtimestamp w t = Ok mtime →
  let fpath := NtPath.join root (file_name f) in
  let age := (now - mtime) / 86400 in
  let s' := purge_file w extensions now retention_days dry_run drive root f s in
  if retention_days <=? age then
    ∃ rest, log s' = log s ++ EvMatch fpath age :: rest
            ∧ (dry_run = true → rest = [] ∧ ops s' = ops s)
            ∧ Forall (fun e => is_match e = false ∧ is_skip e = false) rest
  else log s' = log s ++ [EvSkip fpath age] ∧ ops s' = ops s.
Proof.
  intros Hf Hs Ht. simpl. unfold purge_file. rewrite Hf, Hs.
  change (Ok t ≫= fromtimestamp w) with (fromtimestamp w t). rewrite Ht.
  destruct (retention_days <=? (now - mtime) / 86400); [|done].
  destruct dry_run; simpl.
  { exists []. by repeat split. }
  destruct (NtPath.relpath _ _ _) as [rel|]; simpl.
  2:{ eexists [_]. rewrite <- app_assoc. simpl.
      split; [done|]. split; [done|]. by repeat constructor. }
  destruct (file_mkdir f); simpl.
  { eexists [_]. rewrite <- app_assoc. simpl.
    split; [done|]. split; [done|]. by repeat constructor. }
  destruct (file_move f); simpl.
  { eexists [_]. rewrite <- app_assoc. simpl.
    split; [done|]. split; [done|]. by repeat constructor. }
  eexists [_]. rewrite <- app_assoc. simpl.
  split; [done|]. split; [done|]. by repeat constructor.
Qed.

Lemma purge_file_log drive root f s :
  ∃ l, log (purge_file w extensions now retention_days dry_run drive root f s)
       = log s ++ l
       ∧ Forall (from_file root f) l.
Proof.
  destruct (filtered_out extensions (file_name f)) eqn:Hp.
  { rewrite purge_file_filtered by done. exists []. by rewrite app_nil_r. }
  assert (∀ e, event_path e = Some (NtPath.join root (file_name f)) →
               is_move_event e = false → from_file root f e) as Hplain.
  { intros e ? ?. by split. }
  assert (∀ e, event_path e = Some (NtPath.join root (file_name f)) →
               dry_run = false → from_file root f e) as Hwet.
  { intros e ? Hd. split; [done|]. split; [done|]. by rewrite Hd. }
  unfold purge_file. rewrite Hp.
  destruct (file_stat f ≫= fromtimestamp w) as [mtime|e]; simpl.
  2:{ eexists [_]. split; [done|]. constructor; [by apply Hplain|constructor]. }
  destruct (retention_days <=? (now - mtime) / 86400).
  2:{ eexists [_]. split; [done|]. constructor; [by apply Hplain|constructor]. }
  destruct dry_run eqn:Hd; simpl.
  { eexists [_]. split; [done|]. constructor; [by apply Hplain|constructor]. }
  destruct (NtPath.relpath _ _ _) as [rel|]; simpl.
  2:{ eexists [_; _]. rewrite <- app_assoc. split; [done|].
      repeat (constructor; [by apply Hplain|]). constructor. }
  destruct (file_mkdir f); simpl.
  { eexists [_; _]. rewrite <- app_assoc. split; [done|].
    repeat (constructor; [by apply Hplain|]). constructor. }
  destruct (file_move f); simpl.
  { eexists [_; _]. rewrite <- app_assoc. split; [done|].
    repeat (constructor; [by apply Hplain|]). constructor. }
  eexists [_; _]. rewrite <- app_assoc. split; [done|].
  constructor; [by apply Hplain|]. constructor; [by apply Hwet|constructor].
Qed.

Lemma purge_file_dry_ops drive root f s :
  dry_run = true →
  ops (purge_file w extensions now retention_days dry_run drive root f s)
  = ops s.
Proof.
  intros ->. unfold purge_file.
  destruct (filtered_out _ _); [done|].
  destruct (file_stat f ≫= fromtimestamp w) as [mtime|e]; [|done].
  by destruct (retention_days <=? _).
Qed.

Lemma purge_dir_log drive root dirs files s :
  ∃ l, log (fst (purge_dir w extensions now retention_days dry_run
                   drive root dirs files s)) = log s ++ l
       ∧ Forall (fun e => is_excluded (getcwd w) root = false
                          ∧ ∃ f, f ∈ files ∧ from_file root f e) l.
Proof.
  unfold purge_dir. destruct (is_excluded (getcwd w) root) eqn:Hex; simpl.
  { exists []. by rewrite app_nil_r. }
  revert s. induction files as [|f files IH]; intros s; simpl.
  { exists []. by rewrite app_nil_r. }
  destruct (IH (purge_file w extensions now retention_days dry_run
                  drive root f s)) as (l2&->&H2).
  destruct (purge_file_log drive root f s) as (l1&->&H1).
  exists (l1 ++ l2). rewrite <- app_assoc. split; [done|].
  apply Forall_app. split.
  - eapply Forall_impl; [exact H1|]. intros e He. split; [done|].
    exists f. split; [by left|done].
  - eapply Forall_impl; [exact H2|]. intros e (_&f'&?&?). split; [done|].
    exists f'. split; [by right|done].
Qed.

Lemma purge_dir_dry_ops drive root dirs files s :
  dry_run = true →
  ops (fst (purge_dir w extensions now retention_days dry_run
              drive root dirs files s)) = ops s.
Proof.
  intros Hd. unfold purge_dir. destruct (is_excluded _ _); [done|]. simpl.
  revert s. induction files as [|f files IH]; intros s; simpl; [done|].
  by rewrite IH, purge_file_dry_ops.
Qed.

Lemma purge_drives_log s :
  ∃ l, log (purge_drives w extensions now retention_days dry_run s)
       = log s ++ l
       ∧ Forall from_scan l.
Proof.
  unfold purge_drives. generalize (get_all_drives w) as ds.
  intros ds. revert s. induction ds as [|drive ds IH]; intros s; simpl.
  { exists []. by rewrite app_nil_r. }
  set (s1 := match drives w !! drive with
             | Some d => os_walk _ drive d s | None => s end).
  assert (∃ l, log s1 = log s ++ l ∧ Forall from_scan l) as (l1&Hl1&HF1).
  { subst s1. destruct (drives w !! drive) as [d|].
    2:{ exists []. by rewrite app_nil_r. }
    apply (os_walk_inv _
             (fun s' => ∃ l, log s' = log s ++ l ∧ Forall from_scan l)
             (fun _ => True)); [|done|].
    - intros root dirs files s' _ (l&Hl&HF). split; [|done].
      destruct (purge_dir_log drive root dirs files s') as (l'&->&HF').
      exists (l ++ l'). rewrite Hl, <- app_assoc. split; [done|].
      apply Forall_app. split; [done|].
      eapply Forall_impl; [exact HF'|]. intros e (?&f&_&?).
      by exists root, f.
    - exists []. by rewrite app_nil_r. }
  destruct (IH s1) as (l2&->&HF2). rewrite Hl1.
  exists (l1 ++ l2). rewrite <- app_assoc. split; [done|].
  by apply Forall_app.
Qed.

Lemma purge_drives_dry_ops s :
  dry_run = true →
  ops (purge_drives w extensions now retention_days dry_run s) = ops s.
Proof.
  intros Hd. unfold purge_drives. generalize (get_all_drives w) as ds.
  intros ds. revert s. induction ds as [|drive ds IH]; intros s; simpl.
  { done. }
  rewrite IH. destruct (drives w !! drive) as [d|]; [|done].
  apply (os_walk_inv _ (fun s' => ops s' = ops s) (fun _ => True));
    try done.
  intros root dirs files s' _ Hs'. split; [|done].
  by rewrite purge_dir_dry_ops.
Qed.
End purge.

Lemma log_disk_usage_log w s :
  ∃ l, log (log_disk_usage w s) = log s ++ l
       ∧ Forall (fun e => is_file_event e = false) l
       ∧ ops (log_disk_usage w s) = ops s.
Proof.
  unfold log_disk_usage. generalize (get_all_drives w) as ds.
  intros ds. revert s. induction ds as [|drive ds IH]; intros s; simpl.
  { exists []. by rewrite app_nil_r. }
  destruct (IH (emit (EvDiskUsage drive (disk_usage w drive)) s))
    as (l&->&HF&->).
  simpl. eexists (_ :: l). rewrite <- app_assoc. simpl.
  split; [done|]. split; [|done]. by constructor.
Qed.

End PurgeFacts.

(** ** Classification by age, the dry run and the extension filter *)

Module ScanTheorems.
Import PyStr Spec WalkFacts Scenarios.

Lemma move_event_not_class e :
  is_move_event e = true → is_match e = false ∧ is_skip e = false.
Proof. by destruct e. Qed.

(** the lines [scan_file] adds for a file that passes the filter and whose
    time stamp can be read *)
Lemma scan_file_events w cfg Q selected cutoff root f mtime s :
  passes_filter selected (file_name f) = true →
  file_stat f = Ok mtime →
  let fpath := NtPath.join root (file_name f) in
  let age := (clock w (ticks s) - mtime) / 86400 in
  let s' := AutoPurge.scan_file w cfg Q selected cutoff root f s in
  ∃ rest,
    Forall (fun e => is_move_event e = true) rest
    ∧ (AutoPurge.dry_run cfg = true → rest = [])
    ∧ new_events s s'
      = if mtime <? cutoff then EvMatch fpath age :: rest
        else [EvSkip fpath age].
Proof.
  intros Hp Hs. simpl.
  rewrite (ScanFacts.scan_file_classified _ _ _ _ _ _ _ mtime) by done.
  destruct (mtime <? cutoff); [destruct (AutoPurge.dry_run cfg)|].
  - exists []. split; [done|]. split; [done|].
    by apply ScanFacts.new_events_app.
  - match goal with |- context [AutoPurge.quarantine ?q ?f ?p ?a ?s0] =>
      destruct (ScanFacts.quarantine_log q f p a s0) as (e&He&Hm&_&_)
    end.
    exists [e]. split; [by constructor|]. split; [done|].
    apply ScanFacts.new_events_app. rewrite He. simpl.
    by rewrite <- app_assoc.
  - exists []. split; [done|]. split; [done|].
    by apply ScanFacts.new_events_app.
Qed.





(** C5: a dry run only classifies.  In auto_purge, with [dry_run] set, a
    file that qualifies adds the MATCH line and nothing else, the whole
    traversal calls nothing that changes the file system and logs no line
    about a move, and a run without AutoDelete leaves as its only calls the
    creation of the quarantine and log folders; in safe_purge, with
    [dry_run] set, [purge_files] calls nothing that changes the file system
    and logs no line about a move, and a file that qualifies adds the MATCH
    line and nothing else; on the host of the end-to-end scenario a dry run
    of safe_purge reports the old document as a MATCH, the recent one as a
    SKIP, and calls nothing. *)
Theorem C5_dry_run_moves_nothing :
  (∀ w cfg Q selected cutoff root f mtime s,
      AutoPurge.dry_run cfg = true →
      passes_filter selected (file_name f) = true →
      file_stat f = Ok mtime →
      mtime < cutoff →
      let s' := AutoPurge.scan_file w cfg Q selected cutoff root f s in
      new_events s s'
      = [EvMatch (NtPath.join root (file_name f))
                 ((clock w (ticks s) - mtime) / 86400)]
      ∧ ops s' = ops s)
  ∧ (∀ w cfg Q excl selected cutoff s,
      AutoPurge.dry_run cfg = true →
      let s' := AutoPurge.scan_drives w cfg Q excl selected cutoff s in
      ops s' = ops s
      ∧ ∀ e, e ∈ new_events s s' → is_move_event e = false)
  ∧ (∀ w cfg,
      AutoPurge.dry_run cfg = true →
      AutoPurge.AutoDelete cfg = false →
      let s' := snd (AutoPurge.run_scan w cfg) in
      (∀ o, o ∈ ops s' → ∃ p, o = OpMkdir p)
      ∧ length (ops s') = 2%nat
      ∧ ∀ e, e ∈ log s' → is_move_event e = false)
  ∧ (∀ w categories retention_days,
      let s' := SafePurge.purge_files w categories retention_days true in
      ops s' = []
      ∧ ∀ e, e ∈ log s' → is_move_event e = false)
  ∧ (∀ w extensions now rd drive root f t mtime s,
      SafePurge.filtered_out extensions (file_name f) = false →
      file_stat f = Ok t →
      fromtimestamp w t = Ok mtime →
      rd ≤ (now - mtime) / 86400 →
      let s' := SafePurge.purge_file w extensions now rd true drive root f s in
      new_events s s'
      = [EvMatch (NtPath.join root (file_name f)) ((now - mtime) / 86400)]
      ∧ ops s' = ops s)
  ∧ SafePurge.purge_files host_with_documents ["documents"] 1 true
    = St [ EvDiskUsage "C:\" None;
           EvMatch "C:\Users\Bob\report.pdf" 2;
           EvSkip "C:\Users\Bob\notes.PDF" 0;
           EvDiskUsage "C:\" None ]
         [] 1.
Proof.
  split; [|split; [|split; [|split; [|split]]]].
  6:{ vm_compute. reflexivity. }
  5:{ intros w extensions now rd drive root f t mtime s Hp Hs Ht Hage. simpl.
      pose proof (PurgeFacts.purge_file_classified w extensions now rd true
                    drive root f t mtime s Hp Hs Ht) as H. simpl in H.
      apply Z.leb_le in Hage. rewrite Hage in H.
      destruct H as (rest & Hlog & Hdry & _).
      destruct (Hdry eq_refl) as [-> Hops]. split; [|done].
      by apply ScanFacts.new_events_app. }
  - intros w cfg Q selected cutoff root f mtime s Hd Hp Hs Hlt. simpl.
    split; [|by apply ScanFacts.scan_file_dry_ops].
    destruct (scan_file_events w cfg Q selected cutoff root f mtime s Hp Hs)
      as (rest&_&Hrest&->).
    apply Z.ltb_lt in Hlt. rewrite Hlt. by rewrite (Hrest Hd).
  - intros w cfg Q excl selected cutoff s Hd. simpl.
    split; [by apply ScanFacts.scan_drives_dry_ops|].
    destruct (ScanFacts.scan_drives_log w cfg Q excl selected cutoff s)
      as (l&Hl&HF).
    rewrite (ScanFacts.new_events_app _ _ _ Hl). intros e He.
    rewrite Forall_forall in HF.
    destruct (HF e He) as (drive&_&root&_&[->|(f&_&_&Hm)]); [done|].
    by apply Hm.
  - intros w cfg Hd Had. unfold AutoPurge.run_scan.
    destruct (AutoPurge.FILE_CATEGORIES cfg !! "all") as [all|]; simpl.
    2:{ split; [|split; [done|]].
        - intros o [->|[->|?%elem_of_nil]%elem_of_cons]%elem_of_cons;
            by eauto.
        - by intros e ?%elem_of_nil. }
    rewrite Had. simpl.
    match goal with |- context [AutoPurge.scan_drives ?w ?c ?q ?x ?sel ?co ?s0] =>
      pose proof (ScanFacts.scan_drives_dry_ops w c q x sel co s0 Hd) as Hops;
      destruct (ScanFacts.scan_drives_log w c q x sel co s0) as (l&Hl&HF);
      set (s1 := AutoPurge.scan_drives w c q x sel co s0) in *
    end.
    simpl in Hops, Hl.
    assert (∀ ds s,
      ops (fold_left (fun s drive => emit (EvDiskUsage drive
             (AutoPurge.disk_usage_safe w drive)) s) ds s) = ops s
      ∧ ∃ l', log (fold_left (fun s drive => emit (EvDiskUsage drive
             (AutoPurge.disk_usage_safe w drive)) s) ds s) = log s ++ l'
             ∧ Forall (fun e => is_move_event e = false) l') as Hdu.
    { induction ds as [|d ds IH]; intros s; simpl.
      - split; [done|]. exists []. by rewrite app_nil_r.
      - destruct (IH (emit (EvDiskUsage d (AutoPurge.disk_usage_safe w d)) s))
          as (->&l'&->&HF').
        split; [done|]. eexists (_ :: l'). simpl. rewrite <- app_assoc.
        split; [done|]. by constructor. }
    match type of Hops with _ = ops (fold_left _ ?ds ?s0) =>
      destruct (Hdu ds s0) as (Ho&l'&Hl'&HF')
    end.
    rewrite Ho in Hops. rewrite Hl' in Hl. simpl in Hops, Hl.
    rewrite Hops. split; [|split; [done|]].
    + intros o [->|[->|?%elem_of_nil]%elem_of_cons]%elem_of_cons;
        by eauto.
    + rewrite Hl. intros e.
      rewrite !elem_of_app, !elem_of_cons.
      rewrite Forall_forall in HF. rewrite Forall_forall in HF'.
      intros [[->|[?|?]%elem_of_app]|[->|?%elem_of_nil]]; try done.
      * by apply HF'.
      * destruct (HF e) as (drive&_&root&_&[->|(f&_&_&Hm)]); by auto.
  - intros w categories retention_days. unfold SafePurge.purge_files. simpl.
    match goal with |- context [SafePurge.purge_drives ?w ?x ?n ?r true ?s0] =>
      pose proof (PurgeFacts.purge_drives_dry_ops w x n r true s0 eq_refl)
        as Hops;
      destruct (PurgeFacts.purge_drives_log w x n r true s0) as (l&Hl&HF);
      set (s1 := SafePurge.purge_drives w x n r true s0) in *
    end.
    destruct (PurgeFacts.log_disk_usage_log w s1) as (l2&->&HF2&->).
    match type of Hops with _ = ops (SafePurge.log_disk_usage _ ?s0) =>
      destruct (PurgeFacts.log_disk_usage_log w s0) as (l1&Hl1&HF1&Ho1)
    end.
    rewrite Hops, Ho1. split; [done|]. rewrite Hl, Hl1. simpl.
    intros e. rewrite !elem_of_app.
    rewrite Forall_forall in HF. rewrite Forall_forall in HF1.
    rewrite Forall_forall in HF2.
    assert (∀ e, is_file_event e = false → is_move_event e = false) as Hfm
      by (by intros []).
    intros [[?|?]|?]; [by auto| |by auto].
    destruct (HF e) as (root&f&_&_&_&Hm); by auto.
Qed.

Lemma C5_dry_run_moves_nothing_witness :
  AutoPurge.dry_run a_config = true
  ∧ passes_filter {[ ".pdf" ]} (file_name old_file) = true
  ∧ file_stat old_file = Ok 0
  ∧ 0 < 1000000 - 1 * 86400
  ∧ new_events st0
      (AutoPurge.scan_file a_host a_config (PathLib.MkPath "C:" "\" ["Q"])
         {[ ".pdf" ]} (1000000 - 1 * 86400) "C:\" old_file st0)
    = [EvMatch "C:\a.pdf" 11]
  ∧ ops (AutoPurge.scan_file a_host a_config (PathLib.MkPath "C:" "\" ["Q"])
           {[ ".pdf" ]} (1000000 - 1 * 86400) "C:\" old_file st0) = [].
Proof.
  assert (passes_filter {[ ".pdf" ]} (file_name old_file) = true) as Hp
    by (vm_compute; reflexivity).
  split; [reflexivity|]. split; [exact Hp|]. split; [reflexivity|].
  split; [lia|].
  destruct C5_dry_run_moves_nothing as [Hfile _].
  exact (Hfile a_host a_config (PathLib.MkPath "C:" "\" ["Q"]) {[ ".pdf" ]}
           (1000000 - 1 * 86400) "C:\" old_file 0 st0
           eq_refl Hp eq_refl ltac:(lia)).
Defined.

(** C6: a file whose extension is not in the active set leaves no trace.
    In auto_purge, [scan_file] returns the state it was given (no line, no
    call, no clock reading) when the lowercased extension of the name is
    not in the selected set, and every per-file line of a whole traversal is
    about a file that passed the filter.  In safe_purge the same holds of
    [purge_file] for a name that none of the selected extensions ends, and
    the extension list of the "all" category is not empty, so the filter is
    in force for it. *)
Theorem C6_unselected_extension_is_silent :
  (∀ w cfg Q selected cutoff root f s,
      lower (snd (NtPath.splitext (file_name f))) ∉ selected →
      AutoPurge.scan_file w cfg Q selected cutoff root f s = s)
  ∧ (∀ w cfg Q excl selected cutoff s e,
      e ∈ new_events s (AutoPurge.scan_drives w cfg Q excl selected cutoff s) →
      is_file_event e = true →
      ∃ root f,
        event_path e = Some (NtPath.join root (file_name f))
        ∧ lower (snd (NtPath.splitext (file_name f))) ∈ selected)
  ∧ (∀ w extensions now rd dry drive root f s,
      extensions ≠ [] →
      (∀ ext, ext ∈ extensions → endswith ext (lower (file_name f)) = false) →
      SafePurge.purge_file w extensions now rd dry drive root f s = s)
  ∧ (∀ w extensions now rd dry s e,
      e ∈ new_events s (SafePurge.purge_drives w extensions now rd dry s) →
      ∃ root f,
        event_path e = Some (NtPath.join root (file_name f))
        ∧ SafePurge.filtered_out extensions (file_name f) = false)
  ∧ mjoin (fmap (fun cat => default [] (SafePurge.FILE_CATEGORIES !! cat))
                 ["all"]) ≠ [].
Proof.
  split; [|split; [|split; [|split]]].
  - intros w cfg Q selected cutoff root f s Hext.
    apply ScanFacts.scan_file_filtered. unfold passes_filter.
    by apply bool_decide_eq_false.
  - intros w cfg Q excl selected cutoff s e He Hfile.
    destruct (ScanFacts.scan_drives_log w cfg Q excl selected cutoff s)
      as (l&Hl&HF).
    rewrite (ScanFacts.new_events_app _ _ _ Hl) in He.
    rewrite Forall_forall in HF.
    destruct (HF e He) as (drive&_&root&_&[->|(f&Hp&Hpath&_)]); [done|].
    exists root, f. split; [done|]. unfold passes_filter in Hp.
    by apply bool_decide_eq_true in Hp.
  - intros w extensions now rd dry drive root f s Hne Hends.
    apply PurgeFacts.purge_file_filtered. unfold SafePurge.filtered_out.
    destruct extensions as [|e0 rest]; [done|].
    apply negb_true_iff. apply not_true_iff_false.
    intros (ext&Hin&Hext)%existsb_exists.
    apply list_elem_of_In in Hin. by rewrite Hends in Hext.
  - intros w extensions now rd dry s e He.
    destruct (PurgeFacts.purge_drives_log w extensions now rd dry s)
      as (l&Hl&HF).
    rewrite (ScanFacts.new_events_app _ _ _ Hl) in He.
    rewrite Forall_forall in HF.
    destruct (HF e He) as (root&f&_&Hp&Hpath&_). by exists root, f.
  - vm_compute. discriminate.
Qed.

Lemma C6_unselected_extension_is_silent_witness :
  (lower (snd (NtPath.splitext (file_name exe_file)))
     ∉ ({[ ".pdf" ]} : gset string))
  ∧ AutoPurge.scan_file a_host a_config (PathLib.MkPath "C:" "\" ["Q"])
      {[ ".pdf" ]} (1000000 - 1 * 86400) "C:\" exe_file st0 = st0.
Proof.
  assert (lower (snd (NtPath.splitext (file_name exe_file)))
            ∉ ({[ ".pdf" ]} : gset string)) as Hext.
  { intros H%elem_of_singleton. vm_compute in H. discriminate. }
  split; [exact Hext|].
  destruct C6_unselected_extension_is_silent as [Hfile _].
  exact (Hfile a_host a_config (PathLib.MkPath "C:" "\" ["Q"]) {[ ".pdf" ]}
           (1000000 - 1 * 86400) "C:\" exe_file st0 Hext).
Defined.

End ScanTheorems.

(** ** The extension filter and letter case *)

Module FilterTheorems.
Import PyStr PyStrFacts Spec FilterFacts AutoPurge Scenarios.

(** a step that has added a line has changed the state *)
Lemma log_grows_ne (s s' : state) e l : log s' = log s ++ e :: l → s' ≠ s.
Proof.
  intros Hl ->. apply (f_equal length) in Hl.
  rewrite length_app in Hl. simpl in Hl. lia.
Qed.

(** [scan_file] leaves a line for every file that passes its filter *)
Lemma scan_file_speaks w cfg Q selected cutoff root f s :
  lower (snd (NtPath.splitext (file_name f))) ∈ selected →
  ∃ e l, log (scan_file w cfg Q selected cutoff root f s) = log s ++ e :: l.
Proof.
  intros Hin. unfold scan_file.
  rewrite (bool_decide_eq_true_2 _ Hin). cbn [negb].
  destruct (file_stat f) as [mtime|[]]; try (by eexists _, []).
  cbn [time_time]. destruct (mtime <? cutoff); [|by eexists _, []].
  destruct (negb (dry_run cfg)); [|by eexists _, []].
  match goal with |- context [quarantine ?q ?f ?p ?a ?s0] =>
    destruct (ScanFacts.quarantine_log q f p a s0) as (e & He & _)
  end.
  eexists _, [e]. rewrite He. cbn [emit log]. by rewrite <- app_assoc.
Qed.

(** [purge_file] leaves a line for every file that it does not filter out *)
Lemma purge_file_speaks w extensions now rd dry drive root f s :
  SafePurge.filtered_out extensions (file_name f) = false →
  ∃ e l, log (SafePurge.purge_file w extensions now rd dry drive root f s)
         = log s ++ e :: l.
Proof.
  intros Hf. unfold SafePurge.purge_file. rewrite Hf.
  destruct (file_stat f ≫= fromtimestamp w) as [mtime|ex]; [|by eexists _, []].
  destruct (rd <=? (now - mtime) / 86400); [|by eexists _, []].
  destruct (negb dry); [|by eexists _, []].
  destruct (NtPath.relpath _ _ _) as [rel|].
  2:{ eexists _, [_]. cbn [emit log]. by rewrite <- app_assoc. }
  destruct (file_mkdir f).
  { eexists _, [_]. cbn [emit perform log]. by rewrite <- app_assoc. }
  destruct (file_move f).
  { eexists _, [_]. cbn [emit perform log]. by rewrite <- app_assoc. }
  eexists _, [_]. cbn [emit perform log]. by rewrite <- app_assoc.
Qed.

(** [scan_file] is silent exactly on the files its filter rejects *)
Lemma scan_file_silent_iff w cfg Q selected cutoff root f s :
  scan_file w cfg Q selected cutoff root f s = s
  ↔ lower (snd (NtPath.splitext (file_name f))) ∉ selected.
Proof.
  split.
  - intros Heq Hin.
    destruct (scan_file_speaks w cfg Q selected cutoff root f s Hin)
      as (e & l & Hl).
    by apply (log_grows_ne _ _ e l Hl).
  - intros Hout. apply ScanFacts.scan_file_filtered.
    unfold passes_filter. by apply bool_decide_eq_false.
Qed.

(** [purge_file] is silent exactly on the files it filters out *)
Lemma purge_file_silent_iff w extensions now rd dry drive root f s :
  SafePurge.purge_file w extensions now rd dry drive root f s = s
  ↔ SafePurge.filtered_out extensions (file_name f) = true.
Proof.
  split.
  - intros Heq.
    destruct (SafePurge.filtered_out extensions (file_name f)) eqn:Hf; [done|].
    destruct (purge_file_speaks w extensions now rd dry drive root f s Hf)
      as (e & l & Hl).
    by destruct (log_grows_ne _ _ e l Hl).
  - apply PurgeFacts.purge_file_filtered.
Qed.

(** C10: extension matching ignores letter case on both sides.  In
    auto_purge, configurations whose extension strings differ in case only
    are loaded with the same "all" list; [scan_file] leaves a file without a
    line exactly when the lowercased extension of its name is not in the
    selected set, so two files whose extensions differ in case only are
    treated alike; and with a loaded configuration a file gets a line exactly
    when some configured extension equals its extension once both are
    lowercased.  In safe_purge [purge_file] gives a file a line exactly when
    no extension is selected or its lowercased name ends with a selected
    one, so two files whose names differ in case only are treated alike, and
    the table of extensions is in lower case throughout. *)
Theorem C10_extension_matching_ignores_case :
  (∀ pdd excl cats cats' rd dr ad,
      same_up_to_case cats cats' →
      ∃ cfg cfg',
        load_config_or_exit
          (ConfigFile (RawConfig (Some pdd) (Some excl) (Some cats) rd dr ad))
          = Ok cfg
        ∧ load_config_or_exit
            (ConfigFile (RawConfig (Some pdd) (Some excl) (Some cats') rd dr ad))
            = Ok cfg'
        ∧ FILE_CATEGORIES cfg !! "all" = FILE_CATEGORIES cfg' !! "all")
  ∧ (∀ w cfg Q selected cutoff root f s,
      scan_file w cfg Q selected cutoff root f s ≠ s
      ↔ lower (snd (NtPath.splitext (file_name f))) ∈ selected)
  ∧ (∀ w cfg Q selected cutoff root f f' s,
      lower (snd (NtPath.splitext (file_name f)))
      = lower (snd (NtPath.splitext (file_name f'))) →
      (scan_file w cfg Q selected cutoff root f s = s
       ↔ scan_file w cfg Q selected cutoff root f' s = s))
  ∧ (∀ pdd excl cats rd dr ad cfg all w Q cutoff root f s,
      load_config_or_exit
        (ConfigFile (RawConfig (Some pdd) (Some excl) (Some cats) rd dr ad))
      = Ok cfg →
      FILE_CATEGORIES cfg !! "all" = Some all →
      (scan_file w cfg Q (list_to_set all) cutoff root f s ≠ s
       ↔ ∃ k exts e,
           cats !! k = Some exts ∧ e ∈ exts
           ∧ lower e = lower (snd (NtPath.splitext (file_name f)))))
  ∧ (∀ w extensions now rd dry drive root f s,
      SafePurge.purge_file w extensions now rd dry drive root f s ≠ s
      ↔ extensions = []
        ∨ ∃ e, e ∈ extensions ∧ endswith e (lower (file_name f)) = true)
  ∧ (∀ w extensions now rd dry drive root f f' s,
      lower (file_name f) = lower (file_name f') →
      (SafePurge.purge_file w extensions now rd dry drive root f s = s
       ↔ SafePurge.purge_file w extensions now rd dry drive root f' s = s))
  ∧ (∀ cat exts e,
      SafePurge.FILE_CATEGORIES !! cat = Some exts → e ∈ exts → lower e = e).
Proof.
  assert (∀ w cfg Q selected cutoff root f s,
            scan_file w cfg Q selected cutoff root f s ≠ s
            ↔ lower (snd (NtPath.splitext (file_name f))) ∈ selected) as Hscan.
  { intros w cfg Q selected cutoff root f s.
    rewrite scan_file_silent_iff. split; [|by intros ? ?].
    intros Hnn.
    by destruct (decide (lower (snd (NtPath.splitext (file_name f)))
                         ∈ selected)). }
  split; [|split; [|split; [|split; [|split; [|split]]]]].
  - intros pdd excl cats cats' rd dr ad H. eexists _, _.
    split; [reflexivity|]. split; [reflexivity|]. simpl.
    rewrite !lookup_insert_eq. by rewrite (all_exts_same_up_to_case _ _ H).
  - exact Hscan.
  - intros w cfg Q selected cutoff root f f' s H.
    rewrite !scan_file_silent_iff. by rewrite H.
  - intros pdd excl cats rd dr ad cfg all w Q cutoff root f s Hload Hall.
    rewrite Hscan. injection Hload as <-.
    cbn [FILE_CATEGORIES] in Hall.
    rewrite lookup_insert_eq in Hall. injection Hall as <-.
    rewrite elem_of_list_to_set, elem_of_sorted, elem_of_elements.
    rewrite ConfigFacts.elem_of_all_exts. split.
    + intros (k & exts & e & ? & ? & ?). by exists k, exts, e.
    + intros (k & exts & e & ? & ? & ?). by exists k, exts, e.
  - intros w extensions now rd dry drive root f s.
    assert (SafePurge.purge_file w extensions now rd dry drive root f s ≠ s
            ↔ SafePurge.filtered_out extensions (file_name f) = false) as ->.
    { rewrite purge_file_silent_iff.
      by destruct (SafePurge.filtered_out extensions (file_name f)). }
    unfold SafePurge.filtered_out.
    destruct extensions as [|e0 rest]; [by split; [left|]|].
    rewrite negb_false_iff, existsb_exists. split.
    + intros (e & Hin & He). right. exists e. split; [|done].
      by apply list_elem_of_In.
    + intros [?|(e & Hin & He)]; [done|]. exists e. split; [|done].
      by apply list_elem_of_In.
  - intros w extensions now rd dry drive root f f' s H.
    rewrite !purge_file_silent_iff. unfold SafePurge.filtered_out.
    by rewrite H.
  - intros cat exts e Hcat He.
    assert (forallb (fun kv : string * list string =>
                       forallb (fun e => String.eqb (lower e) e) (snd kv))
                    (map_to_list SafePurge.FILE_CATEGORIES) = true) as Hall.
    { vm_compute. reflexivity. }
    rewrite forallb_forall in Hall.
    apply elem_of_map_to_list, list_elem_of_In in Hcat.
    apply Hall in Hcat. cbv beta iota delta [snd] in Hcat.
    rewrite forallb_forall in Hcat.
    apply String.eqb_eq, Hcat. apply list_elem_of_In. exact He.
Qed.

Lemma cats_upper_lower : same_up_to_case cats_upper cats_lower.
Proof.
  intros k. unfold cats_upper, cats_lower.
  destruct (decide (k = "documents")) as [->|Hne].
  - by rewrite !lookup_singleton_eq.
  - by rewrite !lookup_singleton_ne by (intros E; apply Hne; symmetry; exact E).
Qed.

Lemma C10_extension_matching_ignores_case_witness :
  (∃ cfg cfg',
      load_config_or_exit
        (ConfigFile (RawConfig (Some "C:\P") (Some []) (Some cats_upper)
                               None None None)) = Ok cfg
      ∧ load_config_or_exit
          (ConfigFile (RawConfig (Some "C:\P") (Some []) (Some cats_lower)
                                 None None None)) = Ok cfg'
      ∧ FILE_CATEGORIES cfg !! "all" = FILE_CATEGORIES cfg' !! "all")
  ∧ (lower (snd (NtPath.splitext "Report.PDF"))
     = lower (snd (NtPath.splitext "x.pdf")))
  ∧ (scan_file a_host a_config (PathLib.MkPath "C:" "\" ["Q"]) {[ ".pdf" ]}
       913600 "C:\" (File "Report.PDF" (Ok 0) None None) st0 = st0
     ↔ scan_file a_host a_config (PathLib.MkPath "C:" "\" ["Q"]) {[ ".pdf" ]}
         913600 "C:\" (File "x.pdf" (Ok 0) None None) st0 = st0)
  ∧ lower ".pdf" = ".pdf".
Proof.
  destruct C10_extension_matching_ignores_case
    as (H1 & _ & H3 & _ & _ & _ & H7).
  assert (lower (snd (NtPath.splitext "Report.PDF"))
          = lower (snd (NtPath.splitext "x.pdf"))) as Hext
    by (vm_compute; reflexivity).
  split; [|split; [exact Hext|split]].
  - exact (H1 "C:\P" [] cats_upper cats_lower None None None cats_upper_lower).
  - exact (H3 a_host a_config (PathLib.MkPath "C:" "\" ["Q"]) {[ ".pdf" ]}
             913600 "C:\" (File "Report.PDF" (Ok 0) None None)
             (File "x.pdf" (Ok 0) None None) st0 Hext).
  - eapply (H7 "documents").
    + vm_compute. reflexivity.
    + apply list_elem_of_In. simpl. tauto.
Defined.

End FilterTheorems.


(** ** Paths built from plain names *)

Module PathFacts.
Import PyStr PyStrFacts Spec PathLib.

Lemma plain_char_inv c :
  plain_char c = true →
  Ascii.eqb c NtPath.sep = false ∧ Ascii.eqb c NtPath.altsep = false
  ∧ Ascii.eqb c NtPath.colon = false.
Proof.
  unfold plain_char, NtPath.is_sep.
  destruct (Ascii.eqb c NtPath.sep), (Ascii.eqb c NtPath.altsep),
    (Ascii.eqb c NtPath.colon); simpl; intros; by repeat split.
Qed.

Lemma all_chars_cons P c s :
  all_chars P (String c s) = true ↔ P c = true ∧ all_chars P s = true.
Proof. simpl. apply andb_true_iff. Qed.

Lemma all_chars_app P a b :
  all_chars P (a +:+ b) = all_chars P a && all_chars P b.
Proof.
  induction a as [|c a IH]; [done|].
  change (String c a +:+ b) with (String c (a +:+ b)). simpl.
  by rewrite IH, andb_assoc.
Qed.

Lemma all_chars_slice_to P n s :
  all_chars P s = true → all_chars P (slice_to n s) = true.
Proof.
  revert s. induction n as [|n IH]; intros [|c s]; simpl; try done.
  intros [? ?]%andb_true_iff. rewrite IH by done. by apply andb_true_iff.
Qed.

Lemma all_chars_slice_from P n s :
  all_chars P s = true → all_chars P (slice_from n s) = true.
Proof.
  revert s. induction n as [|n IH]; intros [|c s]; simpl; try done.
  intros [? ?]%andb_true_iff. by apply IH.
Qed.

Lemma replace_plain s :
  all_chars plain_char s = true →
  replace_char NtPath.altsep NtPath.sep s = s.
Proof.
  unfold replace_char. induction s as [|c s IH]; [done|].
  intros [Hc Hs]%all_chars_cons. simpl.
  destruct (plain_char_inv c Hc) as (_&->&_). by rewrite IH.
Qed.

Lemma split_plain s :
  all_chars plain_char s = true → split NtPath.sep s = [s].
Proof.
  induction s as [|c s IH]; [done|].
  intros [Hc Hs]%all_chars_cons. simpl.
  destruct (plain_char_inv c Hc) as (->&_&_). by rewrite IH.
Qed.

Lemma splitroot_plain s :
  all_chars plain_char s = true →
  NtPath.splitroot s = (EmptyString, EmptyString, s).
Proof.
  intros Hs. unfold NtPath.splitroot. rewrite replace_plain by done.
  destruct s as [|c1 s]; [done|].
  apply all_chars_cons in Hs as [Hc1 Hs].
  destruct (plain_char_inv c1 Hc1) as (Hsep&_&_).
  unfold slice. simpl. unfold NtPath.sep_s. simpl. rewrite Hsep.
  destruct s as [|c2 s]; [done|].
  apply all_chars_cons in Hs as [Hc2 Hs].
  destruct (plain_char_inv c2 Hc2) as (_&_&Hcol).
  simpl. by rewrite Hcol.
Qed.

Lemma plain_name_inv s :
  plain_name s = true →
  nonempty s = true ∧ String.eqb s "." = false
  ∧ all_chars plain_char s = true.
Proof.
  unfold plain_name. intros [[? ?%negb_true_iff]%andb_true_iff ?]%andb_true_iff.
  done.
Qed.

(** the path of a plain name is that one component *)
Lemma parse_path_plain s :
  plain_name s = true → parse_path s = MkPath EmptyString EmptyString [s].
Proof.
  intros (Hne&Hdot&Hs)%plain_name_inv. unfold parse_path.
  rewrite Hne. simpl. rewrite replace_plain, splitroot_plain by done.
  simpl. rewrite split_plain by done. rewrite filter_cons, filter_nil.
  case_decide as Hk; [done|]. exfalso. apply Hk.
  unfold NtPath.keep_comp, NtPath.curdir. by rewrite Hne, Hdot.
Qed.

Lemma truediv_str_plain p s :
  plain_name s = true →
  truediv_str p s = MkPath (drv p) (root p) (tail p ++ [s]).
Proof.
  intros Hs. unfold truediv_str. rewrite parse_path_plain by done.
  by unfold truediv.
Qed.

Lemma with_segments_plain_acc segs acc :
  Forall (fun s => plain_name s = true) segs →
  fold_left truediv_str segs (MkPath EmptyString EmptyString acc)
  = MkPath EmptyString EmptyString (acc ++ segs).
Proof.
  intros H. revert acc. induction H as [|s segs Hs _ IH]; intros acc; simpl.
  - by rewrite app_nil_r.
  - rewrite truediv_str_plain by done. simpl. rewrite IH.
    by rewrite <- app_assoc.
Qed.

Lemma with_segments_plain segs :
  Forall (fun s => plain_name s = true) segs →
  with_segments segs = MkPath EmptyString EmptyString segs.
Proof. apply (with_segments_plain_acc segs []). Qed.

Lemma app_cons c s t : String c s +:+ t = String c (s +:+ t).
Proof. reflexivity. Qed.

Lemma app_nil_l t : EmptyString +:+ t = t.
Proof. reflexivity. Qed.

Lemma head_plain_app a b :
  a ≠ EmptyString → head_plain a → head_plain (a +:+ b).
Proof. by destruct a. Qed.

Lemma plain_name_head s : plain_name s = true → head_plain s.
Proof.
  intros (_&_&Hs)%plain_name_inv. destruct s as [|c s]; [done|].
  by apply all_chars_cons in Hs as [? _].
Qed.

Lemma join_head_plain t :
  Forall (fun s => plain_name s = true) t →
  head_plain (PyStr.join NtPath.sep_s t).
Proof.
  intros [|t0 t' H0 H]; [done|]. simpl.
  destruct t'; [by apply plain_name_head|].
  apply head_plain_app; [|by apply plain_name_head].
  apply plain_name_inv in H0 as (Hne&_&_). by destruct t0.
Qed.

(** what [splitroot] makes of the four shapes of path the scan meets *)
Lemma splitroot_letter_rooted c rest :
  plain_char c = true →
  NtPath.splitroot (String c (String ":" (String "\" rest)))
  = (String c ":", "\", rest).
Proof.
  intros (Hsep&Halt&_)%plain_char_inv. unfold NtPath.splitroot, slice.
  unfold replace_char. simpl. rewrite Halt. unfold NtPath.sep_s. simpl.
  by rewrite Hsep.
Qed.

Lemma splitroot_letter_relative c rest :
  plain_char c = true → head_plain rest →
  NtPath.splitroot (String c (String ":" rest))
  = (String c ":", EmptyString, rest).
Proof.
  intros (Hsep&Halt&_)%plain_char_inv Hrest.
  unfold NtPath.splitroot, slice, replace_char. simpl. rewrite Halt.
  unfold NtPath.sep_s. simpl. rewrite Hsep.
  destruct rest as [|c2 rest]; [done|]. simpl in *.
  destruct (plain_char_inv c2 Hrest) as (Hsep2&Halt2&_).
  by rewrite Halt2, Hsep2.
Qed.

Lemma splitroot_rooted rest :
  head_plain rest →
  NtPath.splitroot (String "\" rest) = (EmptyString, "\", rest).
Proof.
  intros Hrest. unfold NtPath.splitroot, slice, replace_char. simpl.
  destruct rest as [|c2 rest]; [done|]. simpl in *.
  destruct (plain_char_inv c2 Hrest) as (Hsep2&Halt2&_).
  unfold NtPath.sep_s. by rewrite Halt2, Hsep2.
Qed.

Lemma splitroot_no_anchor c1 r :
  Ascii.eqb c1 NtPath.sep = false → Ascii.eqb c1 NtPath.altsep = false →
  match r with
  | String c2 _ => Ascii.eqb c2 NtPath.colon = false
                   ∨ Ascii.eqb c2 NtPath.altsep = true
  | EmptyString => True
  end →
  NtPath.splitroot (String c1 r) = (EmptyString, EmptyString, String c1 r).
Proof.
  intros Hsep Halt Hr. unfold NtPath.splitroot, slice, replace_char. simpl.
  rewrite Halt. unfold NtPath.sep_s. simpl. rewrite Hsep.
  destruct r as [|c2 r]; [done|]. simpl.
  destruct Hr as [Hcol| ->]; [|done].
  destruct (Ascii.eqb c2 NtPath.altsep); [done|]. by rewrite Hcol.
Qed.

Lemma splitroot_join_plain t :
  Forall (fun s => plain_name s = true) t →
  NtPath.splitroot (PyStr.join NtPath.sep_s t)
  = (EmptyString, EmptyString, PyStr.join NtPath.sep_s t).
Proof.
  intros [|t0 t' H0 H]; [done|].
  apply plain_name_inv in H0 as (Hne&_&Hall).
  destruct t0 as [|c1 r]; [done|].
  apply all_chars_cons in Hall as [Hc1 Hr].
  destruct (plain_char_inv c1 Hc1) as (Hsep&Halt&_).
  assert (∀ tl, match r +:+ tl with
                | String c2 _ => Ascii.eqb c2 NtPath.colon = false
                                 ∨ Ascii.eqb c2 NtPath.altsep = true
                | EmptyString => True
                end ∨ r = EmptyString) as Hsecond.
  { intros tl. destruct r as [|c2 r]; [by right|left].
    apply all_chars_cons in Hr as [Hc2 _].
    destruct (plain_char_inv c2 Hc2) as (_&_&?). by left. }
  simpl. destruct t' as [|t1 t'].
  - apply splitroot_no_anchor; [done..|].
    destruct (Hsecond EmptyString) as [Hs| ->]; [|done].
    by rewrite append_nil_r in Hs.
  - rewrite app_cons. apply splitroot_no_anchor; [done..|].
    destruct (Hsecond (NtPath.sep_s +:+ PyStr.join NtPath.sep_s (t1 :: t')))
      as [Hs| ->]; [done|].
    rewrite app_nil_l. by left.
Qed.

Lemma nonempty_app_l a b : nonempty a = true → nonempty (a +:+ b) = true.
Proof. by destruct a. Qed.

Lemma or_else_nonempty a b : nonempty a = true → or_else a b = a.
Proof. unfold or_else. by intros ->. Qed.

(** [str] of an anchored path *)
Lemma str_anchored d r t :
  nonempty (d +:+ r) = true →
  str (MkPath d r t) = d +:+ r +:+ PyStr.join NtPath.sep_s t.
Proof.
  intros H. unfold str, format_parsed_parts. simpl.
  assert (nonempty d || nonempty r = true) as ->.
  { destruct d; [|done]. by rewrite app_nil_l in H. }
  apply or_else_nonempty. rewrite <- append_assoc. by apply nonempty_app_l.
Qed.

(** [str] of a path without drive and root, made of plain names *)
Lemma str_relative t :
  Forall (fun s => plain_name s = true) t →
  str (MkPath EmptyString EmptyString t)
  = match t with [] => "." | _ => PyStr.join NtPath.sep_s t end.
Proof.
  intros H. unfold str, format_parsed_parts. simpl.
  destruct H as [|t0 t' H0 H]; [done|].
  unfold NtPath.splitdrive.
  apply plain_name_inv in H0 as (Hne&_&Hall).
  rewrite splitroot_plain by done. simpl.
  apply or_else_nonempty. destruct t'; [done|].
  by apply nonempty_app_l.
Qed.

(** [splitdrive(str(p))] gives back the drive of [p] *)
Lemma splitdrive_str d r t :
  (d = EmptyString ∨ ∃ c, plain_char c = true ∧ d = String c ":") →
  (r = EmptyString ∨ r = "\") →
  Forall (fun s => plain_name s = true) t →
  fst (NtPath.splitdrive (str (MkPath d r t))) = d.
Proof.
  intros Hd Hr Ht. pose proof (join_head_plain t Ht) as Hhead.
  unfold NtPath.splitdrive.
  destruct Hd as [->|(c&Hc&->)], Hr as [->| ->].
  - rewrite str_relative by done. destruct t as [|t0 t']; [done|].
    by rewrite splitroot_join_plain.
  - rewrite str_anchored by done. rewrite app_nil_l.
    change ("\" +:+ ?x) with (String "\" x).
    by rewrite splitroot_rooted.
  - rewrite str_anchored by done. rewrite app_nil_l.
    change (String c ":" +:+ ?x) with (String c (String ":" x)).
    by rewrite splitroot_letter_relative.
  - rewrite str_anchored by done.
    change (String c ":" +:+ "\" +:+ ?x)
      with (String c (String ":" (String "\" x))).
    by rewrite splitroot_letter_rooted.
Qed.

Lemma parse_anchor_letter c :
  plain_char c = true →
  parse_path (String c ":" +:+ NtPath.sep_s) = MkPath (String c ":") "\" [].
Proof.
  intros Hc. destruct (plain_char_inv c Hc) as (_&Halt&_).
  change (String c ":" +:+ NtPath.sep_s)
    with (String c (String ":" (String "\" EmptyString))).
  unfold parse_path, replace_char. simpl. rewrite Halt.
  by rewrite splitroot_letter_rooted.
Qed.

Lemma parse_anchor_root :
  parse_path (EmptyString +:+ NtPath.sep_s) = MkPath EmptyString "\" [].
Proof. reflexivity. Qed.

Lemma eqb_refl p : eqb p p = true.
Proof. apply String.eqb_refl. Qed.

(** a path is relative to its own anchor *)
Lemma is_relative_to_anchor d r t :
  is_relative_to (MkPath d r t) (MkPath d r []) = true.
Proof.
  unfold is_relative_to. destruct t as [|t0 t'].
  { by rewrite eqb_refl. }
  apply orb_true_iff. right. apply existsb_exists.
  exists (MkPath d r []). split; [|apply eqb_refl].
  apply list_elem_of_In. unfold parents. simpl tail.
  apply list_elem_of_fmap. exists (length t'). split.
  - simpl. by rewrite Nat.sub_diag.
  - apply list_elem_of_In, in_seq. simpl. lia.
Qed.

Lemma head_not_sep s :
  head_plain s →
  String.eqb "\" (lower s) = false
  ∧ ∀ x, String.eqb (String "\" x) (lower s) = false.
Proof.
  destruct s as [|c s]; [done|]. intros Hc.
  destruct (plain_char_inv c Hc) as (Hsep&_&_).
  pose proof (FilterFacts.lower_respects_sep c) as Hl.
  unfold NtPath.sep in Hl, Hsep.
  unfold lower. cbn [map_chars].
  change ("\" : string) with (String "\" EmptyString).
  cbn [String.eqb].
  rewrite (Ascii.eqb_sym "\"%char (lower_char c)), Hl, Hsep. done.
Qed.

(** a path without root is not equal to an anchor with a root *)
Lemma eqb_anchor_relative d t :
  (d = EmptyString ∨ ∃ c, plain_char c = true ∧ d = String c ":") →
  Forall (fun s => plain_name s = true) t →
  eqb (MkPath d "\" []) (MkPath d EmptyString t) = false.
Proof.
  intros Hd Ht. unfold eqb. pose proof (join_head_plain t Ht) as Hhead.
  destruct Hd as [->|(c&Hc&->)].
  - rewrite str_relative by done. rewrite str_anchored by done. simpl.
    destruct t as [|t0 t']; [done|]. by apply head_not_sep.
  - rewrite !str_anchored by done. rewrite app_nil_l.
    change (String c ":" +:+ ?x) with (String c (String ":" x)).
    cbn [PyStr.join]. rewrite append_nil_r.
    change ("\" : string) with (String "\" EmptyString).
    unfold lower. cbn [map_chars String.eqb].
    rewrite Ascii.eqb_refl.
    change (Ascii.eqb (lower_char ":") (lower_char ":")) with true.
    cbn iota. change (lower_char "\") with ("\"%char).
    by apply head_not_sep.
Qed.

Lemma not_relative_to_anchor d t :
  (d = EmptyString ∨ ∃ c, plain_char c = true ∧ d = String c ":") →
  Forall (fun s => plain_name s = true) t →
  is_relative_to (MkPath d EmptyString t) (MkPath d "\" []) = false.
Proof.
  intros Hd Ht. unfold is_relative_to. apply orb_false_iff. split.
  { by apply eqb_anchor_relative. }
  apply not_true_iff_false. intros (x&Hin&Hx)%existsb_exists.
  apply list_elem_of_In, list_elem_of_fmap in Hin as (i&->&_). simpl in Hx.
  rewrite eqb_anchor_relative in Hx; [done..|]. by apply Forall_take.
Qed.

(** *** The digest *)

Lemma hex_digit_ok d :
  (d < 16)%N →
  is_hex (Sha256.hex_digit d) = true ∧ plain_char (Sha256.hex_digit d) = true.
Proof.
  intros Hd.
  destruct d as [|p]; [done|].
  do 5 (destruct p as [p|p|]; try done; try lia).
Qed.

Lemma nib_ok i x :
  is_hex (Sha256.nib i x) = true ∧ plain_char (Sha256.nib i x) = true.
Proof. apply hex_digit_ok. apply N.mod_lt. done. Qed.

Lemma short_hash_eq s :
  ∃ a, AutoPurge.short_hash s
       = String (Sha256.nib 7 a) (String (Sha256.nib 6 a)
          (String (Sha256.nib 5 a) (String (Sha256.nib 4 a)
            (String (Sha256.nib 3 a) (String (Sha256.nib 2 a)
              (String (Sha256.nib 1 a) (String (Sha256.nib 0 a)
                 EmptyString))))))).
Proof. by exists (Sha256.sa (Sha256.digest s)). Qed.

(** the digest is eight hexadecimal digits *)
Lemma short_hash_ok s :
  String.length (AutoPurge.short_hash s) = 8%nat
  ∧ all_chars is_hex (AutoPurge.short_hash s) = true
  ∧ all_chars plain_char (AutoPurge.short_hash s) = true.
Proof.
  destruct (short_hash_eq s) as (a&->). split; [done|].
  cbn [all_chars].
  split; repeat (apply andb_true_iff; split; [apply nib_ok|]); done.
Qed.

End PathFacts.

(** ** The quarantine destination *)

Module DestinationTheorems.
Import PyStr PyStrFacts Spec PathLib PathFacts AutoPurge Scenarios.

Lemma stem_plain p :
  all_chars plain_char (name p) = true → all_chars plain_char (stem p) = true.
Proof.
  intros H. unfold stem. destruct (_ && _); [|done].
  by apply all_chars_slice_to.
Qed.

Lemma suffix_plain p :
  all_chars plain_char (name p) = true →
  all_chars plain_char (suffix p) = true.
Proof.
  intros H. unfold suffix. destruct (_ && _); [|done].
  by apply all_chars_slice_from.
Qed.

(** the file name given to a quarantined file is a plain name *)
Lemma quarantined_name_plain a h b :
  all_chars plain_char a = true → all_chars plain_char h = true →
  all_chars plain_char b = true →
  plain_name (a +:+ "__" +:+ h +:+ b) = true.
Proof.
  intros Ha Hh Hb. unfold plain_name.
  rewrite !all_chars_app, Ha, Hh, Hb.
  apply andb_true_iff. split; [|reflexivity].
  apply andb_true_iff. split; [by destruct a|].
  apply negb_true_iff, not_true_iff_false. intros E%String.eqb_eq.
  destruct a as [|c [|c' a]]; cbv in E; discriminate E.
Qed.

Lemma tag_of_drive d tag :
  tag_of d tag →
  (d = EmptyString ∨ ∃ c, plain_char c = true ∧ d = String c ":")
  ∧ or_else (remove_char ":" d) "ROOT" = tag
  ∧ plain_name tag = true
  ∧ parse_path (d +:+ NtPath.sep_s) = MkPath d "\" [].
Proof.
  intros [[-> ->]|(c&Hc&->&->)].
  - split; [by left|]. by repeat split.
  - pose proof Hc as (_&_&[Hpc _]%all_chars_cons)%plain_name_inv.
    split; [right; by exists c|]. split; [|split; [done|]].
    + destruct (plain_char_inv c Hpc) as (_&_&Hcol).
      unfold NtPath.colon in Hcol. simpl. by rewrite Hcol.
    + by apply parse_anchor_letter.
Qed.

(** the destination of a rooted source made of plain names *)
Lemma build_dest_rooted Q d tag parents nm :
  tag_of d tag →
  Forall (fun s => plain_name s = true) parents →
  plain_name nm = true →
  let src := MkPath d "\" (parents ++ [nm]) in
  build_quarantine_dest Q src
  = Ok (MkPath (drv Q) (root Q)
          (tail Q ++ [tag] ++ parents
           ++ [stem src +:+ "__" +:+ short_hash (str src) +:+ suffix src])).
Proof.
  intros Htag Hparents Hnm src.
  destruct (tag_of_drive d tag Htag) as (Hd&Htg&Hplain&Hanchor).
  assert (Forall (fun s => plain_name s = true) (parents ++ [nm])) as Hall.
  { apply Forall_app. split; [done|]. by constructor. }
  unfold build_quarantine_dest.
  pose proof (splitdrive_str d "\" (parents ++ [nm]) Hd (or_intror eq_refl) Hall)
    as Hdrive.
  fold src in Hdrive.
  destruct (NtPath.splitdrive (str src)) as [drive rest]. simpl in Hdrive.
  subst drive. rewrite Htg, Hanchor.
  unfold relative_to. subst src. rewrite is_relative_to_anchor.
  cbn [tail length]. rewrite drop_0, with_segments_plain by done.
  unfold mbind, result_bind.
  rewrite (truediv_str_plain Q tag) by done.
  assert (parent (MkPath EmptyString EmptyString (parents ++ [nm]))
          = MkPath EmptyString EmptyString parents) as ->.
  { unfold parent. cbn [tail drv root]. rewrite removelast_last.
    by destruct (parents ++ [nm]) eqn:E; [apply app_eq_nil in E as [_ ?]|]. }
  unfold truediv. cbn [drv root tail nonempty andb].
  assert (all_chars plain_char (name (MkPath d "\" (parents ++ [nm]))) = true)
    as Hname.
  { unfold name. cbn [tail]. rewrite last_last.
    by apply plain_name_inv in Hnm as (_&_&?). }
  rewrite truediv_str_plain.
  2:{ apply quarantined_name_plain;
        [by apply stem_plain|apply short_hash_ok|by apply suffix_plain]. }
  cbn [drv root tail]. by rewrite <- !app_assoc.
Qed.

(** C4 fails on safe_purge: the file C:\Users\Bob\Docs\report.pdf is moved to
    Quarantine\Users\Bob\Docs\report.pdf, a path with neither a volume tag
    nor a digest, which differs from the destination of the claim. *)
Lemma C4_safe_purge_destination_is_untagged :
  ops (SafePurge.purge_file
         (World "C:\" (fun _ => 0) ∅ (fun _ => None) (fun _ => None))
         [".pdf"] 1000000 1 false "C:\" "C:\Users\Bob\Docs"
         (File "report.pdf" (Ok 0) None None) st0)
  = [ OpMkdir "C:\FilePurger\Quarantine\Users\Bob\Docs";
      OpMove "C:\Users\Bob\Docs\report.pdf"
             "C:\FilePurger\Quarantine\Users\Bob\Docs\report.pdf" ]
  ∧ build_quarantine_dest (parse_path SafePurge.QUARANTINE_DIR)
      (parse_path "C:\Users\Bob\Docs\report.pdf")
    = Ok (parse_path
            "C:\FilePurger\Quarantine\C\Users\Bob\Docs\report__cfed6ca1.pdf")
  ∧ "C:\FilePurger\Quarantine\Users\Bob\Docs\report.pdf"
    ≠ "C:\FilePurger\Quarantine\C\Users\Bob\Docs\report__cfed6ca1.pdf".
Proof.
  split; [vm_compute; reflexivity|]. split; [vm_compute; reflexivity|].
  discriminate.
Qed.

(** C4, amended: in auto_purge, for every source path made of a drive letter,
    a root and plain names, [build_quarantine_dest] returns the quarantine
    root followed by the drive letter, the parent folders of the source, and
    the file name [stem + "__" + digest + suffix], where the digest is the
    first eight hexadecimal digits of the SHA-256 of the source path string;
    the result is a function of the quarantine root and the source path
    alone.  (safe_purge instead moves a file to the quarantine root followed
    by the path of the file relative to its drive.) *)
Theorem C4_quarantine_destination
    (Q : PurePath) (c : ascii) (parents : list string) (nm : string) :
  plain_name (String c EmptyString) = true →
  Forall (fun s => plain_name s = true) parents →
  plain_name nm = true →
  let src := MkPath (String c ":") "\" (parents ++ [nm]) in
  let digest := slice_to 8 (Sha256.hexdigest (str src)) in
  build_quarantine_dest Q src
  = Ok (MkPath (drv Q) (root Q)
          (tail Q ++ [String c EmptyString] ++ parents
           ++ [stem src +:+ "__" +:+ digest +:+ suffix src]))
  ∧ String.length digest = 8%nat
  ∧ all_chars is_hex digest = true.
Proof.
  intros Hc Hparents Hnm src digest. split.
  - apply build_dest_rooted; [|done..]. right. by exists c.
  - destruct (short_hash_ok (str src)) as (Hlen&Hhex&_). by split.
Qed.

Lemma C4_quarantine_destination_witness :
  plain_name "C" = true
  ∧ Forall (fun s => plain_name s = true) ["Users"; "Bob"; "Docs"]
  ∧ plain_name "report.pdf" = true
  ∧ build_quarantine_dest (MkPath "C:" "\" ["FilePurger"; "Quarantine"])
      (MkPath "C:" "\" ["Users"; "Bob"; "Docs"; "report.pdf"])
    = Ok (MkPath "C:" "\" ["FilePurger"; "Quarantine"; "C"; "Users"; "Bob";
                           "Docs"; "report__cfed6ca1.pdf"]).
Proof.
  assert (plain_name "C" = true) as Hc by reflexivity.
  assert (Forall (fun s => plain_name s = true) ["Users"; "Bob"; "Docs"])
    as Hp by (repeat constructor).
  assert (plain_name "report.pdf" = true) as Hn by reflexivity.
  split; [exact Hc|]. split; [exact Hp|]. split; [exact Hn|].
  destruct (C4_quarantine_destination
              (MkPath "C:" "\" ["FilePurger"; "Quarantine"]) "C"
              ["Users"; "Bob"; "Docs"] "report.pdf" Hc Hp Hn) as [H _].
  etransitivity; [exact H|]. vm_compute. reflexivity.
Defined.

(** C9 fails on the code: \foo\bar.pdf has no volume component, and
    [build_quarantine_dest] returns a destination for it, under the volume
    tag ROOT. *)
Lemma C9_rooted_path_without_volume_gets_a_destination :
  drv (parse_path "\foo\bar.pdf") = EmptyString
  ∧ build_quarantine_dest (parse_path "C:\FilePurger\Quarantine")
      (parse_path "\foo\bar.pdf")
    = Ok (parse_path "C:\FilePurger\Quarantine\ROOT\foo\bar__9810f5ee.pdf").
Proof. split; vm_compute; reflexivity. Qed.

(** C9, amended: for every source path without a root, with or without a
    drive letter, [build_quarantine_dest] raises [ValueError] and returns no
    destination; a rooted path without a drive does not fail: its
    destination is built as for a drive, under the tag ROOT. *)
Theorem C9_relative_source_is_refused
    (Q : PurePath) (d : string) (names : list string) :
  (d = EmptyString ∨ ∃ c, plain_char c = true ∧ d = String c ":") →
  Forall (fun s => plain_name s = true) names →
  build_quarantine_dest Q (MkPath d EmptyString names) = Raise ValueError
  ∧ ∀ parents nm,
      names = parents ++ [nm] →
      build_quarantine_dest Q (MkPath EmptyString "\" names)
      = Ok (MkPath (drv Q) (root Q)
              (tail Q ++ ["ROOT"] ++ parents
               ++ [stem (MkPath EmptyString "\" names) +:+ "__"
                   +:+ short_hash (str (MkPath EmptyString "\" names))
                   +:+ suffix (MkPath EmptyString "\" names)])).
Proof.
  intros Hd Hnames. split.
  - unfold build_quarantine_dest.
    pose proof (splitdrive_str d EmptyString names Hd (or_introl eq_refl)
                  Hnames) as Hdrive.
    destruct (NtPath.splitdrive (str (MkPath d EmptyString names)))
      as [drive rest]. simpl in Hdrive. subst drive.
    assert (parse_path (d +:+ NtPath.sep_s) = MkPath d "\" []) as ->.
    { destruct Hd as [->|(c&Hc&->)]; [done|by apply parse_anchor_letter]. }
    unfold relative_to. by rewrite not_relative_to_anchor.
  - intros parents nm ->. apply Forall_app in Hnames as [Hp Hn].
    apply Forall_cons in Hn as [Hn _].
    apply build_dest_rooted; [by left|done..].
Qed.

Lemma C9_relative_source_is_refused_witness :
  Forall (fun s => plain_name s = true) ["foo"; "bar.pdf"]
  ∧ build_quarantine_dest (MkPath "C:" "\" ["Q"])
      (MkPath EmptyString EmptyString ["foo"; "bar.pdf"]) = Raise ValueError
  ∧ build_quarantine_dest (MkPath "C:" "\" ["Q"])
      (MkPath "C:" EmptyString ["foo"; "bar.pdf"]) = Raise ValueError.
Proof.
  assert (Forall (fun s => plain_name s = true) ["foo"; "bar.pdf"]) as Hn
    by (repeat constructor).
  split; [exact Hn|]. split.
  - exact (proj1 (C9_relative_source_is_refused (MkPath "C:" "\" ["Q"])
                    EmptyString ["foo"; "bar.pdf"] (or_introl eq_refl) Hn)).
  - refine (proj1 (C9_relative_source_is_refused (MkPath "C:" "\" ["Q"])
                     "C:" ["foo"; "bar.pdf"] (or_intror _) Hn)).
    exists "C"%char. split; reflexivity.
Defined.

End DestinationTheorems.

(** ** [is_under] on canonical paths *)

Module UnderFacts.
Import PyStr PyStrFacts Spec PathFacts AutoPurge.

Lemma proper_name_inv s :
  proper_name s = true → plain_name s = true ∧ String.eqb s ".." = false.
Proof.
  unfold proper_name. by intros [? ?%negb_true_iff]%andb_true_iff.
Qed.

Lemma proper_plain l :
  Forall (fun s => proper_name s = true) l →
  Forall (fun s => plain_name s = true) l.
Proof.
  intros H. eapply Forall_impl; [exact H|]. by intros s [? _]%proper_name_inv.
Qed.

Lemma split_app_sep a rest :
  all_chars plain_char a = true →
  split NtPath.sep (a +:+ NtPath.sep_s +:+ rest) = a :: split NtPath.sep rest.
Proof.
  induction a as [|c a IH]; [done|].
  intros [Hc Ha]%all_chars_cons. rewrite app_cons. cbn [split].
  destruct (plain_char_inv c Hc) as (->&_&_). by rewrite IH.
Qed.

(** splitting a joined list of names gives the names back *)
Lemma split_join l :
  Forall (fun s => plain_name s = true) l → l ≠ [] →
  split NtPath.sep (PyStr.join NtPath.sep_s l) = l.
Proof.
  induction 1 as [|x l Hx Hl IH]; [done|]. intros _.
  apply plain_name_inv in Hx as (_&_&Hx).
  destruct l as [|y l].
  - simpl. by apply split_plain.
  - change (PyStr.join NtPath.sep_s (x :: y :: l))
      with (x +:+ NtPath.sep_s +:+ PyStr.join NtPath.sep_s (y :: l)).
    rewrite split_app_sep by done. by rewrite IH.
Qed.

Lemma filter_keep_names l :
  Forall (fun s => plain_name s = true) l →
  filter (fun c => Is_true (NtPath.keep_comp c)) l = l.
Proof.
  induction 1 as [|x l Hx Hl IH]; [done|].
  rewrite filter_cons, IH. case_decide as Hk; [done|]. exfalso. apply Hk.
  apply plain_name_inv in Hx as (Hne&Hdot&_).
  unfold NtPath.keep_comp, NtPath.curdir. by rewrite Hne, Hdot.
Qed.

Lemma components_join l :
  Forall (fun s => plain_name s = true) l →
  filter (fun c => Is_true (NtPath.keep_comp c))
         (split NtPath.sep (PyStr.join NtPath.sep_s l)) = l.
Proof.
  intros Hl. destruct l as [|x l]; [done|].
  rewrite split_join by done. by apply filter_keep_names.
Qed.

Lemma join_inj l1 l2 :
  Forall (fun s => plain_name s = true) l1 →
  Forall (fun s => plain_name s = true) l2 →
  PyStr.join NtPath.sep_s l1 = PyStr.join NtPath.sep_s l2 → l1 = l2.
Proof.
  intros H1 H2 E.
  rewrite <- (components_join l1 H1), <- (components_join l2 H2).
  by rewrite E.
Qed.

Lemma normpath_comps_names root done l :
  Forall (fun s => proper_name s = true) l →
  NtPath.normpath_comps root done l = rev done ++ l.
Proof.
  intros Hl. revert done.
  induction Hl as [|x l Hx Hl IH]; intros done; simpl.
  { by rewrite app_nil_r. }
  apply proper_name_inv in Hx as [(Hne&Hdot&_)%plain_name_inv Hdd].
  unfold NtPath.curdir, NtPath.pardir. rewrite Hne, Hdot, Hdd. simpl.
  rewrite IH. simpl. by rewrite <- app_assoc.
Qed.

Lemma normpath_comps_join root l :
  Forall (fun s => proper_name s = true) l →
  NtPath.normpath_comps root [] (split NtPath.sep (PyStr.join NtPath.sep_s l))
  = l.
Proof.
  intros Hl. destruct l as [|x l]; [done|].
  rewrite split_join by (by try apply proper_plain).
  by rewrite normpath_comps_names.
Qed.

Lemma all_chars_impl (P Q : ascii → bool) s :
  (∀ c, P c = true → Q c = true) →
  all_chars P s = true → all_chars Q s = true.
Proof.
  intros HPQ. induction s as [|c s IH]; [done|].
  intros [? ?]%all_chars_cons. apply all_chars_cons. auto.
Qed.

Lemma replace_no_altsep s :
  all_chars no_altsep s = true →
  replace_char NtPath.altsep NtPath.sep s = s.
Proof.
  unfold replace_char. induction s as [|c s IH]; [done|].
  intros [Hc Hs]%all_chars_cons. simpl.
  apply negb_true_iff in Hc. by rewrite Hc, IH.
Qed.

Lemma join_no_altsep l :
  Forall (fun s => plain_name s = true) l →
  all_chars no_altsep (PyStr.join NtPath.sep_s l) = true.
Proof.
  assert (∀ s, plain_name s = true → all_chars no_altsep s = true) as Hn.
  { intros s (_&_&Hs)%plain_name_inv. revert Hs. apply all_chars_impl.
    intros c (_&Hc&_)%plain_char_inv. unfold no_altsep. by rewrite Hc. }
  induction 1 as [|x l Hx Hl IH]; [done|].
  destruct l as [|y l]; [by apply Hn|].
  change (PyStr.join NtPath.sep_s (x :: y :: l))
    with (x +:+ NtPath.sep_s +:+ PyStr.join NtPath.sep_s (y :: l)).
  rewrite !all_chars_app, Hn, IH by done. done.
Qed.

Lemma replace_render c l :
  plain_char c = true →
  Forall (fun s => plain_name s = true) l →
  replace_char NtPath.altsep NtPath.sep (render c l) = render c l.
Proof.
  intros (_&Hc&_)%plain_char_inv Hl. apply replace_no_altsep.
  unfold render. cbn [all_chars]. rewrite join_no_altsep by done.
  unfold no_altsep at 1. by rewrite Hc.
Qed.

Lemma splitroot_render c l :
  plain_char c = true →
  NtPath.splitroot (render c l)
  = (String c ":", "\", PyStr.join NtPath.sep_s l).
Proof. apply splitroot_letter_rooted. Qed.

Lemma isabs_render c l :
  plain_char c = true → NtPath.isabs (render c l) = true.
Proof.
  intros (_&Hc&_)%plain_char_inv. unfold NtPath.isabs, render, replace_char.
  cbn [slice_to map_chars]. rewrite Hc. apply orb_true_iff. by right.
Qed.

(** a canonical path is its own absolute path *)
Lemma abspath_render cwd c l :
  plain_char c = true →
  Forall (fun s => proper_name s = true) l →
  NtPath.abspath cwd (render c l) = render c l.
Proof.
  intros Hc Hl. unfold NtPath.abspath. rewrite isabs_render by done.
  unfold NtPath.normpath.
  rewrite replace_render, splitroot_render by (by try apply proper_plain).
  rewrite normpath_comps_join by done.
  assert (negb (nonempty (String c ":" +:+ "\")) = false) as -> by done.
  done.
Qed.

Lemma lower_app a b : lower (a +:+ b) = lower a +:+ lower b.
Proof.
  unfold lower. induction a as [|c a IH]; [done|].
  rewrite app_cons. cbn [map_chars]. by rewrite IH.
Qed.

Lemma lower_join l :
  lower (PyStr.join NtPath.sep_s l) = PyStr.join NtPath.sep_s (lower <$> l).
Proof.
  induction l as [|x l IH]; [done|]. destruct l as [|y l]; [done|].
  change (PyStr.join NtPath.sep_s (x :: y :: l))
    with (x +:+ NtPath.sep_s +:+ PyStr.join NtPath.sep_s (y :: l)).
  rewrite !lower_app, IH. done.
Qed.

Lemma lower_render c l :
  lower (render c l) = render (lower_char c) (lower <$> l).
Proof.
  unfold render, lower at 1. cbn [map_chars]. fold lower.
  by rewrite lower_join.
Qed.

Lemma plain_char_lower c : plain_char (lower_char c) = plain_char c.
Proof. destruct c as [[] [] [] [] [] [] [] []]; reflexivity. Qed.

Lemma all_plain_lower s :
  all_chars plain_char (lower s) = all_chars plain_char s.
Proof.
  unfold lower. induction s as [|c s IH]; [done|].
  cbn [map_chars all_chars]. by rewrite plain_char_lower, IH.
Qed.

Lemma eqb_dot_lower s : String.eqb (lower s) "." = String.eqb s ".".
Proof.
  destruct s as [|c [|c' s]]; try done; unfold lower; cbn [map_chars];
    change (".":string) with (String "." EmptyString); cbn [String.eqb];
    by rewrite FilterFacts.lower_respects_dot.
Qed.

Lemma eqb_dotdot_lower s : String.eqb (lower s) ".." = String.eqb s "..".
Proof.
  change ("..":string) with (String "." (String "." EmptyString)).
  destruct s as [|c [|c' [|c'' s]]]; try done; unfold lower;
    cbn [map_chars String.eqb];
    by rewrite !FilterFacts.lower_respects_dot.
Qed.

Lemma proper_name_lower s : proper_name (lower s) = proper_name s.
Proof.
  unfold proper_name, plain_name.
  rewrite eqb_dot_lower, eqb_dotdot_lower, all_plain_lower.
  by destruct s.
Qed.

Lemma proper_lower l :
  Forall (fun s => proper_name s = true) l →
  Forall (fun s => proper_name s = true) (lower <$> l).
Proof.
  intros H. apply Forall_fmap. eapply Forall_impl; [exact H|].
  intros s Hs. simpl. by rewrite proper_name_lower.
Qed.

Lemma common_len_prefix (a r : list string) :
  NtPath.common_len (a ++ r) a = length a.
Proof.
  induction a as [|x a IH]; simpl.
  - by destruct r.
  - by rewrite String.eqb_refl, IH.
Qed.

(** the components kept by [commonpath] are the second list exactly when the
    second list begins the first *)
Lemma take_common_len (l l' : list string) :
  take (NtPath.common_len (lower <$> l) (lower <$> l')) l = l'
  ↔ l' `prefix_of` l.
Proof.
  split.
  - intros H. exists (drop (NtPath.common_len (lower <$> l) (lower <$> l')) l).
    by rewrite <- H at 1; rewrite take_drop.
  - intros [r ->]. rewrite fmap_app, common_len_prefix, length_fmap.
    by rewrite take_app_length.
Qed.

(** [commonpath] of two canonical paths on drives that differ by case at
    most: the drive of the first path, and the components they share up to
    case, in the spelling of the first path *)
Lemma commonpath_render c c' l l' :
  plain_char c = true → plain_char c' = true →
  Forall (fun s => proper_name s = true) l →
  Forall (fun s => proper_name s = true) l' →
  NtPath.commonpath (render c l) (render c' l')
  = if Ascii.eqb (lower_char c) (lower_char c')
    then Some (render c (take (NtPath.common_len (lower <$> l) (lower <$> l'))
                              l))
    else None.
Proof.
  intros Hc Hc' Hl Hl'. unfold NtPath.commonpath.
  rewrite !replace_render by (by try apply proper_plain).
  rewrite !lower_render, !splitroot_render by (by rewrite ?plain_char_lower).
  cbv beta iota zeta.
  rewrite !components_join by (by apply proper_plain; try apply proper_lower).
  rewrite String.eqb_refl. cbn [negb String.eqb].
  by destruct (Ascii.eqb (lower_char c) (lower_char c')).
Qed.

Lemma same_drive_render c c' l l' :
  plain_char c = true → plain_char c' = true →
  same_drive (render c l) (render c' l')
  = Ascii.eqb (lower_char c) (lower_char c').
Proof.
  intros Hc Hc'. unfold same_drive, NtPath.splitdrive.
  rewrite !splitroot_render by done. cbn [fst].
  unfold lower. cbn [map_chars String.eqb].
  by destruct (Ascii.eqb (lower_char c) (lower_char c')).
Qed.

Lemma render_eqb c c' l l' :
  Forall (fun s => plain_name s = true) l →
  Forall (fun s => plain_name s = true) l' →
  String.eqb (render c l) (render c' l') = true ↔ c = c' ∧ l = l'.
Proof.
  intros Hl Hl'. rewrite String.eqb_eq. unfold render. split.
  - intros E. injection E as -> E. split; [done|]. by apply join_inj.
  - by intros [-> ->].
Qed.

(** [is_under] on two canonical paths: the drive letters are the same
    character, and the components of the prefix begin those of the path *)
Lemma is_under_render cwd c c' l l' :
  plain_char c = true → plain_char c' = true →
  Forall (fun s => proper_name s = true) l →
  Forall (fun s => proper_name s = true) l' →
  is_under cwd (render c l) (render c' l') = true
  ↔ c = c' ∧ l' `prefix_of` l.
Proof.
  intros Hc Hc' Hl Hl'. unfold is_under.
  rewrite same_drive_render, !abspath_render, commonpath_render by done.
  destruct (Ascii.eqb (lower_char c) (lower_char c')) eqn:E; cbn [negb].
  - rewrite render_eqb, take_common_len.
    + done.
    + apply Forall_take. by apply proper_plain.
    + by apply proper_plain.
  - split; [done|]. intros [-> _]. by rewrite Ascii.eqb_refl in E.
Qed.

(** the spec's test on the same paths: the drive letters agree up to case *)
Lemma spec_covers_render c c' l l' :
  plain_char c = true → plain_char c' = true →
  Forall (fun s => proper_name s = true) l →
  Forall (fun s => proper_name s = true) l' →
  is_excluded_directory (render c l) [render c' l'] = true
  ↔ lower_char c = lower_char c' ∧ l' `prefix_of` l.
Proof.
  intros Hc Hc' Hl Hl'. unfold is_excluded_directory. cbn [existsb].
  rewrite orb_false_r, bool_decide_eq_true.
  unfold volume, segments, NtPath.splitdrive.
  rewrite !replace_render, !splitroot_render by (by try apply proper_plain).
  cbv beta iota zeta. cbn [fst].
  rewrite !components_join by (by apply proper_plain).
  unfold lower. cbn [map_chars]. split.
  - intros [E ?]. by injection E as ->.
  - intros [-> ?]. done.
Qed.

(** on canonical paths the code excludes nothing the spec does not, and
    misses exactly the entries whose drive letter is in the other case *)
Lemma is_under_refines_spec cwd c c' l l' :
  plain_char c = true → plain_char c' = true →
  Forall (fun s => proper_name s = true) l →
  Forall (fun s => proper_name s = true) l' →
  is_under cwd (render c l) (render c' l') = true
  ↔ is_excluded_directory (render c l) [render c' l'] = true ∧ c = c'.
Proof.
  intros Hc Hc' Hl Hl'.
  rewrite is_under_render, spec_covers_render by done.
  split; [intros [-> ?]; by auto|intros [[_ ?] ->]; by auto].
Qed.

(** a canonical path string and its parsed form *)
Lemma parse_path_render c l :
  plain_char c = true →
  Forall (fun s => plain_name s = true) l →
  PathLib.parse_path (render c l) = PathLib.MkPath (String c ":") "\" l.
Proof.
  intros Hc Hl. unfold PathLib.parse_path.
  assert (nonempty (render c l) = true) as -> by done. cbn [negb].
  rewrite replace_render, splitroot_render by done.
  by rewrite components_join.
Qed.

Lemma str_render c l :
  PathLib.str (PathLib.MkPath (String c ":") "\" l) = render c l.
Proof. by rewrite str_anchored. Qed.

(** the destination of a file the scan has found, from its path string *)
Lemma build_dest_of_path_string Q c parents nm :
  plain_name (String c EmptyString) = true →
  Forall (fun s => plain_name s = true) parents →
  plain_name nm = true →
  let src := PathLib.parse_path (render c (parents ++ [nm])) in
  build_quarantine_dest Q src
  = Ok (PathLib.MkPath (PathLib.drv Q) (PathLib.root Q)
          (PathLib.tail Q ++ [String c EmptyString] ++ parents
           ++ [PathLib.stem src +:+ "__"
               +:+ short_hash (render c (parents ++ [nm]))
               +:+ PathLib.suffix src])).
Proof.
  intros Hc Hp Hn.
  pose proof Hc as (_&_&[Hpc _]%all_chars_cons)%plain_name_inv.
  assert (Forall (fun s => plain_name s = true) (parents ++ [nm])) as Hall.
  { apply Forall_app. split; [done|]. by constructor. }
  cbv zeta. rewrite parse_path_render by done. rewrite <- str_render.
  apply DestinationTheorems.build_dest_rooted; [|done..].
  right. by exists c.
Qed.

End UnderFacts.

(** ** Exclusion *)

Module ExclusionTheorems.
Import PyStr Spec AutoPurge WalkFacts UnderFacts Scenarios.

(** an entry on another drive never excludes *)
Lemma is_under_other_drive cwd path prefix :
same_drive path prefix = false → is_under cwd path prefix = false.
Proof. unfold is_under. by intros ->. Qed.

(** a directory is excluded when some entry of the list covers it *)
Lemma should_exclude_dir_iff cwd root excl :
  should_exclude_dir cwd root excl = true
  ↔ ∃ ex, ex ∈ excl ∧ is_under cwd root ex = true.
Proof.
  induction excl as [|ex excl IH]; simpl.
  - split; [done|]. by intros (?&?%elem_of_nil&_).
  - destruct (is_under cwd root ex) eqn:E.
    + split; [|done]. intros _. exists ex. split; [by left|done].
    + rewrite IH. split.
      * intros (ex'&?&?). exists ex'. split; [by right|done].
      * intros (ex'&[->|?]%elem_of_cons&Hu); [congruence|by exists ex'].
Qed.

(** on canonical paths: a directory is excluded exactly when an entry with
    the same drive letter, in the same case, lists components that begin
    those of the directory *)
Lemma should_exclude_dir_render cwd c l (entries : list (ascii * list string)) :
  plain_char c = true →
  Forall (fun s => proper_name s = true) l →
  Forall (fun e => plain_char (fst e) = true
                   ∧ Forall (fun s => proper_name s = true) (snd e)) entries →
  should_exclude_dir cwd (render c l)
    ((fun e => render (fst e) (snd e)) <$> entries) = true
  ↔ ∃ l', (c, l') ∈ entries ∧ l' `prefix_of` l.
Proof.
  intros Hc Hl He. rewrite should_exclude_dir_iff. split.
  - intros (ex&Hin&Hu). apply list_elem_of_fmap in Hin as ([c' l']&->&Hin).
    rewrite Forall_forall in He. destruct (He _ Hin) as [Hc' Hl'].
    simpl in *. apply is_under_render in Hu as [-> ?]; [|done..].
    by exists l'.
  - intros (l'&Hin&Hpre). exists (render c l'). split.
    + apply list_elem_of_fmap. by exists (c, l').
    + rewrite Forall_forall in He. destruct (He _ Hin) as [_ Hl'].
      by apply is_under_render.
Qed.

(** C:\Program Files does not cover C:\Program Files (x86) *)
Lemma program_files_x86_is_not_under_program_files cwd :
is_under cwd "C:\Program Files (x86)" "C:\Program Files" = false
∧ is_under cwd "C:\Program Files (x86)\x.pdf" "C:\Program Files" = false
∧ is_under cwd "C:\Program Files\Common" "C:\Program Files" = true
∧ is_under cwd "C:\Program Files" "C:\Program Files" = true
∧ is_under cwd "C:\Program Files" "D:\Program Files" = false
∧ SafePurge.is_excluded_in "C:\Program Files (x86)" ["C:\Program Files"]
  = false.
Proof. vm_compute. auto 10. Qed.

(** C2 fails on the code: the candidate C:\Windows\System32 is on the volume
  of the exclude entry c:\Windows ([same_drive], which lowers both drives,
  agrees) and lies below it, so the claim has it excluded; [is_under]
  answers no, because the result of [commonpath], spelt with the drive of
  the candidate, is compared character by character with the entry.  With
  the entry spelt C:\Windows the same candidate is excluded. *)
Theorem C2_drive_letter_case_defeats_exclusion (cwd : string) :
is_excluded_directory "C:\Windows\System32" ["c:\Windows"] = true
∧ same_drive "C:\Windows\System32" "c:\Windows" = true
∧ NtPath.commonpath (NtPath.abspath cwd "C:\Windows\System32")
                    (NtPath.abspath cwd "c:\Windows") = Some "C:\Windows"
∧ NtPath.abspath cwd "c:\Windows" = "c:\Windows"
∧ should_exclude_dir cwd "C:\Windows\System32" ["c:\Windows"] = false
∧ should_exclude_dir cwd "C:\Windows\System32" ["C:\Windows"] = true.
Proof. vm_compute. auto 10. Qed.

(** a directory the scan reaches is the drive root or is not covered by the
  exclude list *)
Lemma reached_not_excluded cwd excl drive root :
reached cwd excl drive root →
root = drive ∨ should_exclude_dir cwd root excl = false.
Proof. destruct 1; auto. Qed.

(** every line of a traversal that names a directory or a file comes from a
  directory the scan has reached: no child the exclude list covers is ever
  visited, and no file below such a child is ever reported *)
Lemma scan_stays_in_reached_directories w cfg Q excl selected cutoff s e :
e ∈ new_events s (scan_drives w cfg Q excl selected cutoff s) →
∃ drive root,
  drive ∈ list_fixed_drives w
  ∧ reached (getcwd w) excl drive root
  ∧ (e = EvScan root
     ∨ ∃ f, event_path e = Some (NtPath.join root (file_name f))).
Proof.
intros He.
destruct (ScanFacts.scan_drives_log w cfg Q excl selected cutoff s)
  as (l&Hl&HF).
rewrite (ScanFacts.new_events_app _ _ _ Hl) in He.
rewrite Forall_forall in HF.
destruct (HF e He) as (drive&Hd&root&Hr&[->|(f&_&Hp&_)]).
- exists drive, root. auto.
- exists drive, root. split; [done|]. split; [done|]. right. by exists f.
Qed.

(** safe_purge tests the directory it is visiting, the drive root included *)
Lemma safe_purge_skips_an_excluded_root w extensions now rd dry drive root
  dirs files s :
SafePurge.is_excluded (getcwd w) root = true →
SafePurge.purge_dir w extensions now rd dry drive root dirs files s = (s, []).
Proof. unfold SafePurge.purge_dir. by intros ->. Qed.

(** C3 fails on the code: with the drive root D:\ on the exclude list the
  directory D:\ is excluded, yet the scan visits it and reports the file
  D:\old.pdf in it; only the children of a visited directory are tested
  against the list, so D:\Data is pruned and the drive root never is. *)
Theorem C3_excluded_drive_root_is_scanned :
∃ cfg,
  load_config_or_exit config_excluding_d = Ok cfg
  ∧ should_exclude_dir (getcwd host_with_drive_d) "D:\" (EXCLUDE_DIRS cfg)
    = true
  ∧ log (snd (run_scan host_with_drive_d cfg))
    = [ EvHeader 7 true; EvDiskUsage "D:\" None; EvScan "D:\";
        EvMatch "D:\old.pdf" 11; EvEnd ].
Proof. eexists. split; [reflexivity|]. vm_compute. auto. Qed.

End ExclusionTheorems.

(** ** The end-to-end scenarios of the specification *)

Module EndToEnd.
Import Scenarios AutoPurge.

(** with [dry_run] off: a MATCH and a MOVE for the old document, a SKIP for
    the recent one, nothing for the program, the excluded folder and the
    quarantine *)
Example scan_moves_the_old_document :
  ∃ cfg,
    load_config_or_exit (config_documents false) = Ok cfg
    ∧ run_scan host_with_documents cfg
      = (Ok PyNone,
         St [ EvHeader 1 false; EvDiskUsage "C:\" None;
              EvScan "C:\"; EvScan "C:\Users"; EvScan "C:\Users\Bob";
              EvMatch "C:\Users\Bob\report.pdf" 2;
              EvMove "C:\Users\Bob\report.pdf"
                "C:\FilePurger\Quarantine\C\Users\Bob\report__fb795ad5.pdf" 2;
              EvSkip "C:\Users\Bob\notes.PDF" 0;
              EvEnd ]
            [ OpMkdir "C:\FilePurger\Quarantine";
              OpMkdir "C:\FilePurger\Logs";
              OpMkdir "C:\FilePurger\Quarantine\C\Users\Bob";
              OpMove "C:\Users\Bob\report.pdf"
                "C:\FilePurger\Quarantine\C\Users\Bob\report__fb795ad5.pdf" ]
            3).
Proof. eexists. split; [reflexivity|]. vm_compute. reflexivity. Qed.

(** with [dry_run] on: the same classification, and no move *)
Example dry_run_only_classifies :
  ∃ cfg,
    load_config_or_exit (config_documents true) = Ok cfg
    ∧ run_scan host_with_documents cfg
      = (Ok PyNone,
         St [ EvHeader 1 true; EvDiskUsage "C:\" None;
              EvScan "C:\"; EvScan "C:\Users"; EvScan "C:\Users\Bob";
              EvMatch "C:\Users\Bob\report.pdf" 2;
              EvSkip "C:\Users\Bob\notes.PDF" 0;
              EvEnd ]
            [ OpMkdir "C:\FilePurger\Quarantine";
              OpMkdir "C:\FilePurger\Logs" ]
            3).
Proof. eexists. split; [reflexivity|]. vm_compute. reflexivity. Qed.

End EndToEnd.

(** ** Paths built by the walk *)

Module JoinFacts.
Import PyStr PyStrFacts Spec PathFacts UnderFacts.

Lemma rev_app_app s acc :
  String.rev_app s acc = String.rev_app s EmptyString +:+ acc.
Proof.
  revert acc. induction s as [|c s IH]; intros acc; [done|].
  cbn [String.rev_app]. rewrite (IH (String c acc)), (IH (String c EmptyString)).
  by rewrite append_assoc.
Qed.

Lemma rev_app_empty s : String.rev_app s EmptyString = EmptyString → s = EmptyString.
Proof.
  destruct s as [|c s]; [done|]. cbn [String.rev_app]. rewrite rev_app_app.
  by destruct (String.rev_app s EmptyString).
Qed.

Lemma last_char_cons c s :
  NtPath.last_char (String c s)
  = match s with EmptyString => Some c | _ => NtPath.last_char s end.
Proof.
  unfold NtPath.last_char, String.rev. cbn [String.rev_app].
  rewrite rev_app_app. destruct s as [|c' s]; [done|].
  destruct (String.rev_app (String c' s) EmptyString) eqn:E; [|done].
  by apply rev_app_empty in E.
Qed.

Lemma last_char_app a b :
  b ≠ EmptyString → NtPath.last_char (a +:+ b) = NtPath.last_char b.
Proof.
  intros Hb. induction a as [|c a IH]; [done|].
  rewrite app_cons, last_char_cons, IH.
  destruct (a +:+ b) eqn:E; [|done]. destruct a, b; done.
Qed.

(** a name ends with a character that is no separator *)
Lemma last_char_plain s :
  all_chars plain_char s = true → s ≠ EmptyString →
  ∃ c, NtPath.last_char s = Some c ∧ plain_char c = true.
Proof.
  induction s as [|c s IH]; [done|]. intros [Hc Hs]%all_chars_cons _.
  rewrite last_char_cons. destruct s as [|c' s]; [by exists c|].
  by apply IH.
Qed.

Lemma join_nonempty x l :
  plain_name x = true → PyStr.join NtPath.sep_s (x :: l) ≠ EmptyString.
Proof.
  intros (Hne&_&_)%plain_name_inv. destruct l; [by destruct x|].
  change (PyStr.join NtPath.sep_s (x :: s :: l))
    with (x +:+ NtPath.sep_s +:+ PyStr.join NtPath.sep_s (s :: l)).
  by destruct x.
Qed.

Lemma last_char_join l :
  Forall (fun s => plain_name s = true) l → l ≠ [] →
  ∃ c, NtPath.last_char (PyStr.join NtPath.sep_s l) = Some c
       ∧ plain_char c = true.
Proof.
  induction 1 as [|x l Hx Hl IH]; [done|]. intros _.
  destruct l as [|y l].
  - apply plain_name_inv in Hx as (Hne&_&Hall).
    apply last_char_plain; [done|]. by destruct x.
  - change (PyStr.join NtPath.sep_s (x :: y :: l))
      with (x +:+ NtPath.sep_s +:+ PyStr.join NtPath.sep_s (y :: l)).
    rewrite !last_char_app; [by apply IH| |].
    + apply join_nonempty. by apply Forall_cons in Hl as [? _].
    + done.
Qed.

Lemma join_snoc l nm :
  l ≠ [] →
  PyStr.join NtPath.sep_s (l ++ [nm])
  = PyStr.join NtPath.sep_s l +:+ NtPath.sep_s +:+ nm.
Proof.
  induction l as [|x l IH]; [done|]. intros _. destruct l as [|y l]; [done|].
  change (PyStr.join NtPath.sep_s ((x :: y :: l) ++ [nm]))
    with (x +:+ NtPath.sep_s +:+ PyStr.join NtPath.sep_s ((y :: l) ++ [nm])).
  rewrite IH by done.
  change (PyStr.join NtPath.sep_s (x :: y :: l))
    with (x +:+ NtPath.sep_s +:+ PyStr.join NtPath.sep_s (y :: l)).
  by rewrite !append_assoc.
Qed.

(** joining a name to a canonical path gives the canonical path one level
    down *)
Lemma join_render c l nm :
  plain_char c = true →
  Forall (fun s => plain_name s = true) l →
  plain_name nm = true →
  NtPath.join (render c l) nm = render c (l ++ [nm]).
Proof.
  intros Hc Hl Hnm. unfold NtPath.join.
  rewrite splitroot_render by done.
  pose proof Hnm as (Hne&_&Hall)%plain_name_inv.
  rewrite splitroot_plain by done. cbn [nonempty andb orb negb].
  rewrite andb_false_r. cbn [andb].
  destruct l as [|x l].
  - cbn [PyStr.join nonempty andb app]. by rewrite !app_nil_l.
  - assert (x :: l ≠ []) as Hnil by discriminate.
    destruct (last_char_join (x :: l) Hl Hnil) as (lc&Hlast&Hlc).
    rewrite Hlast. cbn [from_option].
    assert (nonempty (PyStr.join NtPath.sep_s (x :: l)) = true) as ->.
    { apply nonempty_true, join_nonempty. by apply Forall_cons in Hl as [? _]. }
    pose proof (plain_char_inv lc Hlc) as (Hs&Ha&_).
    unfold NtPath.is_sep. rewrite Hs, Ha. cbn [orb negb andb].
    unfold render. rewrite join_snoc by done.
    by rewrite !append_assoc.
Qed.


Lemma render_inj c c' l l' :
  Forall (fun s => plain_name s = true) l →
  Forall (fun s => plain_name s = true) l' →
  render c l = render c' l' → c = c' ∧ l = l'.
Proof.
  intros Hl Hl' E. apply (render_eqb c c' l l' Hl Hl'). by apply String.eqb_eq.
Qed.

End JoinFacts.

(** ** What the walk visits *)

Module VisitFacts.
Import PyStr Spec WalkFacts Tree.

Lemma lookup_dir_elem n l sub :
  lookup_dir n l = Some sub → (n, sub) ∈ l.
Proof.
  induction l as [|[n' sub'] l IH]; [done|]. simpl.
  destruct (String.eqb n' n) eqn:E.
  - intros [= ->]. apply String.eqb_eq in E as ->. by left.
  - intros H. right. by apply IH.
Qed.

Lemma fold_left_ext {A B} (f g : A → B → A) l a :
  (∀ a b, f a b = g a b) → fold_left f l a = fold_left g l a.
Proof.
  intros H. revert a. induction l as [|b l IH]; intros a; simpl; [done|].
  by rewrite H, IH.
Qed.

(** one level of the walk, with the descent written by [lookup_dir] *)
Lemma os_walk_unfold {S : Type}
    (body : string → list string → list file → S → S * list string)
    top subdirs files s :
  os_walk body top (Dir subdirs files) s
  = fold_left
      (fun acc dirname =>
         match lookup_dir dirname subdirs with
         | Some sub => os_walk body (NtPath.join top dirname) sub acc
         | None => acc
         end)
      (snd (body top (fst <$> subdirs) files s))
      (fst (body top (fst <$> subdirs) files s)).
Proof.
  cbn [os_walk]. destruct (body top (fst <$> subdirs) files s) as [s1 dirs].
  cbn [fst snd]. apply fold_left_ext. intros acc dirname.
  induction subdirs as [|[n sub] l IH]; [done|]. cbn [lookup_dir].
  by destruct (String.eqb n dirname).
Qed.

(** an invariant of the walk that knows where in the tree it is: [R] relates
    the path of a visit to the directory visited *)
Lemma os_walk_tree_inv {S : Type}
    (body : string → list string → list file → S → S * list string)
    (P : S → Prop) (R : string → dir → Prop) :
  (∀ root subdirs files s, R root (Dir subdirs files) → P s →
      P (fst (body root (fst <$> subdirs) files s))
      ∧ ∀ n sub, n ∈ snd (body root (fst <$> subdirs) files s) →
                 lookup_dir n subdirs = Some sub →
                 R (NtPath.join root n) sub) →
  ∀ d top s, R top d → P s → P (os_walk body top d s).
Proof.
  intros Hbody.
  induction d as [subdirs files IH] using dir_ind'.
  intros top s HR HP. rewrite os_walk_unfold.
  destruct (Hbody top subdirs files s HR HP) as [HP1 Hnext].
  destruct (body top (fst <$> subdirs) files s) as [s1 dirs].
  cbn [fst snd] in *. clear HP HR.
  revert s1 HP1. induction dirs as [|n dirs IHdirs]; intros s1 HP1; [done|].
  simpl. apply IHdirs.
  - intros m sub ? ?. apply Hnext; [by right|done].
  - destruct (lookup_dir n subdirs) as [sub|] eqn:Hsub; [|done].
    rewrite Forall_forall in IH.
    apply (IH (n, sub) (lookup_dir_elem _ _ _ Hsub)); [|done].
    apply Hnext; [by left|done].
Qed.

Lemma descend_snoc d names n :
  descend d (names ++ [n])
  = match descend d names with
    | Some (Dir subdirs _) => lookup_dir n subdirs
    | None => None
    end.
Proof.
  revert d. induction names as [|m names IH]; intros [subdirs files]; simpl.
  - by destruct (lookup_dir n subdirs).
  - destruct (lookup_dir m subdirs); [apply IH|done].
Qed.

Lemma walk_path_snoc top names n :
  walk_path top (names ++ [n]) = NtPath.join (walk_path top names) n.
Proof. unfold walk_path. by rewrite fold_left_app. Qed.

Lemma unpruned_snoc cwd excl top names n :
  unpruned cwd excl top (names ++ [n])
  = unpruned cwd excl top names
    && negb (AutoPurge.should_exclude_dir cwd
               (NtPath.join (walk_path top names) n) excl).
Proof.
  revert top. induction names as [|m names IH]; intros top; simpl.
  - by rewrite andb_true_r.
  - rewrite IH. by rewrite andb_assoc.
Qed.


End VisitFacts.

(** ** Which directories and files the scan reports *)

Module CoverageFacts.
Import PyStr Spec AutoPurge WalkFacts ScanFacts Tree Coverage VisitFacts.

Section scan.
Context (w : world) (cfg : config) (Q : PathLib.PurePath).
Context (excl : list string) (selected : gset string) (cutoff : Z).

Local Abbreviation the_scan_file := (scan_file w cfg Q selected cutoff).
Local Abbreviation the_scan_dir := (scan_dir w cfg Q excl selected cutoff).
Local Abbreviation the_scan := (scan_drives w cfg Q excl selected cutoff).

(** a line of the scan comes from a directory the scan comes to *)
Local Abbreviation from_position e :=
  (∃ drive names d',
     scanned_dir w excl drive names d'
     ∧ (e = EvScan (walk_path drive names)
        ∨ ∃ f, f ∈ files_of d'
               ∧ file_line cfg selected (walk_path drive names) f e)).

Lemma walk_positions drive d s :
  drive ∈ list_fixed_drives w → drives w !! drive = Some d →
  ∃ l, log (os_walk the_scan_dir drive d s) = log s ++ l
       ∧ Forall (fun e => from_position e) l.
Proof.
  intros Hdrive Hd.
  apply (os_walk_tree_inv the_scan_dir
           (fun s' => ∃ l, log s' = log s ++ l
                           ∧ Forall (fun e => from_position e) l)
           (fun root d' => ∃ names, descend d names = Some d'
                                    ∧ root = walk_path drive names
                                    ∧ unpruned (getcwd w) excl drive names
                                      = true)).
  - intros root subdirs files s' (names & Hdesc & -> & Hun) (l & Hl & Hall).
    split.
    + destruct (scan_dir_log w cfg Q excl selected cutoff
                  (walk_path drive names) (fst <$> subdirs) files s')
        as (l' & Hl' & Hall').
      exists (l ++ EvScan (walk_path drive names) :: l'). split.
      { rewrite Hl', Hl. by rewrite <- app_assoc. }
      apply Forall_app. split; [done|].
      assert (scanned_dir w excl drive names (Dir subdirs files)) as Hpos.
      { split; [done|]. by exists d. }
      constructor.
      { exists drive, names, (Dir subdirs files). split; [done|]. by left. }
      eapply Forall_impl; [exact Hall'|]. intros e (f & Hf & He).
      exists drive, names, (Dir subdirs files). split; [done|].
      right. by exists f.
    + intros n sub Hn Hsub. rewrite scan_dir_dirs in Hn.
      apply list_elem_of_filter in Hn as [Hn _].
      exists (names ++ [n]). split; [|split].
      * rewrite descend_snoc, Hdesc. done.
      * by rewrite walk_path_snoc.
      * rewrite unpruned_snoc, Hun. cbn [andb].
        by destruct (should_exclude_dir _ _ _).
  - by exists [].
  - exists []. by rewrite app_nil_r.
Qed.

Lemma scan_drives_positions s :
  ∃ l, log (the_scan s) = log s ++ l ∧ Forall (fun e => from_position e) l.
Proof.
  unfold scan_drives.
  assert (∀ ds, ds ⊆ list_fixed_drives w →
            ∀ s', ∃ l, log (fold_left
                              (fun s drive =>
                                 match drives w !! drive with
                                 | Some d => os_walk the_scan_dir drive d s
                                 | None => s
                                 end) ds s') = log s' ++ l
                       ∧ Forall (fun e => from_position e) l) as H.
  { induction ds as [|drive ds IH]; intros Hsub s'.
    - exists []. by rewrite app_nil_r.
    - simpl.
      assert (drive ∈ list_fixed_drives w) as Hdrive by (apply Hsub; by left).
      assert (ds ⊆ list_fixed_drives w) as Hds.
      { intros x ?. apply Hsub. by right. }
      destruct (drives w !! drive) as [d|] eqn:Hd; [|by apply IH].
      destruct (walk_positions drive d s' Hdrive Hd) as (l1 & Hl1 & Hall1).
      destruct (IH Hds (os_walk the_scan_dir drive d s')) as (l2 & Hl2 & Hall2).
      exists (l1 ++ l2). split.
      { rewrite Hl2, Hl1. by rewrite <- app_assoc. }
      by apply Forall_app. }
  by apply H.
Qed.

End scan.

End CoverageFacts.

(** ** The stages of [run_scan] *)

Module RunFacts.
Import PyStr Spec AutoPurge WalkFacts ScanFacts RunScan.

Lemma run_scan_stages w cfg :
  run_scan w cfg
  = match FILE_CATEGORIES cfg !! "all" with
    | None =>
        (Raise KeyError,
         perform (OpMkdir (PathLib.str (logs_dir cfg)))
           (perform (OpMkdir (PathLib.str (quarantine_dir cfg))) st0))
    | Some _ =>
        if AutoDelete cfg
        then clear_directory w (PathLib.str (quarantine_dir cfg))
               (emit EvEnd (after_walk w cfg))
        else (Ok PyNone, emit EvEnd (after_walk w cfg))
    end.
Proof.
  unfold run_scan, after_walk, before_walk, cutoff_epoch, at_clock,
    selected_exts, effective_excludes, quarantine_dir, logs_dir,
    program_data_dir.
  destruct (FILE_CATEGORIES cfg !! "all"); reflexivity.
Qed.

Lemma at_clock_state w cfg :
  ∃ l, log (at_clock w cfg) = EvHeader (retention_days cfg) (dry_run cfg) :: l
       ∧ Forall (fun e => event_path e = None ∧ ∀ r, e ≠ EvScan r) l
       ∧ ops (at_clock w cfg)
         = [ OpMkdir (PathLib.str (quarantine_dir cfg));
             OpMkdir (PathLib.str (logs_dir cfg)) ]
       ∧ ticks (at_clock w cfg) = 0%nat.
Proof.
  unfold at_clock.
  set (s0 := emit _ _).
  assert (∀ ds s, ∃ l,
            log (fold_left (fun s drive =>
                   emit (EvDiskUsage drive (disk_usage_safe w drive)) s) ds s)
            = log s ++ l
            ∧ Forall (fun e => event_path e = None ∧ ∀ r, e ≠ EvScan r) l
            ∧ ops (fold_left (fun s drive =>
                   emit (EvDiskUsage drive (disk_usage_safe w drive)) s) ds s)
              = ops s
            ∧ ticks (fold_left (fun s drive =>
                   emit (EvDiskUsage drive (disk_usage_safe w drive)) s) ds s)
              = ticks s) as H.
  { induction ds as [|d ds IH]; intros s; simpl.
    - exists []. by rewrite app_nil_r.
    - destruct (IH (emit (EvDiskUsage d (disk_usage_safe w d)) s))
        as (l & Hl & Hall & Ho & Ht).
      exists (EvDiskUsage d (disk_usage_safe w d) :: l).
      rewrite Hl, Ho, Ht. cbn [emit log ops ticks].
      rewrite <- app_assoc. split; [done|]. split; [|done].
      constructor; [|done]. split; [done|]. intros r. discriminate. }
  destruct (H (list_fixed_drives w) s0) as (l & Hl & Hall & Ho & Ht).
  exists l. rewrite Hl, Ho, Ht. done.
Qed.

End RunFacts.

(** ** The calls of the scan against its lines *)

Module AccountFacts.
Import PyStr Spec AutoPurge WalkFacts ScanFacts Coverage.

Lemma accounted_nil Q : accounted Q [] [].
Proof.
  split; [|split; [|split]].
  - intros op H. by apply elem_of_nil in H.
  - intros p H. by apply elem_of_nil in H.
  - intros i src dest H. by rewrite lookup_nil in H.
  - intros src dest age H. by apply elem_of_nil in H.
Qed.

Lemma accounted_app Q l1 o1 l2 o2 :
  accounted Q l1 o1 → accounted Q l2 o2 → accounted Q (l1 ++ l2) (o1 ++ o2).
Proof.
  intros (Ha1 & Hb1 & Hc1 & Hd1) (Ha2 & Hb2 & Hc2 & Hd2).
  split; [|split; [|split]].
  - intros op [H|H]%elem_of_app; [exact (Ha1 op H)|exact (Ha2 op H)].
  - intros p [H|H]%elem_of_app.
    + destruct (Hb1 p H) as (src & age & d & ? & ? & ?).
      exists src, age, d. split; [|done]. apply elem_of_app. by left.
    + destruct (Hb2 p H) as (src & age & d & ? & ? & ?).
      exists src, age, d. split; [|done]. apply elem_of_app. by right.
  - intros i src dest [H|[Hlen H]]%lookup_app_Some.
    + destruct (Hc1 i src dest H) as (age & d & j & ? & ? & ? & ? & Hj).
      exists age, d, j. split; [apply elem_of_app; by left|].
      split; [done|]. split; [done|]. split; [done|].
      by apply lookup_app_l_Some.
    + destruct (Hc2 _ src dest H) as (age & d & j & ? & ? & ? & Hi & Hj).
      exists age, d, (length o1 + j)%nat.
      split; [apply elem_of_app; by right|].
      split; [done|]. split; [done|]. split; [lia|].
      rewrite lookup_app_r by lia.
      by replace (length o1 + j - length o1)%nat with j by lia.
  - intros src dest age [H|H]%elem_of_app.
    + destruct (Hd1 _ _ _ H). split; apply elem_of_app; by left.
    + destruct (Hd2 _ _ _ H). split; apply elem_of_app; by right.
Qed.

Section scan.
Context (w : world) (cfg : config) (Q : PathLib.PurePath).
Context (excl : list string) (selected : gset string) (cutoff : Z).

Lemma quarantine_accounted f fpath age s :
  ∃ l o, log (quarantine Q f fpath age s) = log s ++ l
         ∧ ops (quarantine Q f fpath age s) = ops s ++ o
         ∧ accounted Q (EvMatch fpath age :: l) o.
Proof.
  unfold quarantine.
  destruct (build_quarantine_dest Q (PathLib.parse_path fpath))
    as [dest|e] eqn:Hdest.
  - set (mk := OpMkdir (PathLib.str (PathLib.parent dest))).
    set (mv := OpMove fpath (PathLib.str dest)).
    assert (∀ o' : list fs_op,
              o' = [mk] ∨ o' = [mk; mv] →
              ∀ l', (∀ src dest' age', EvMove src dest' age' ∈ l' →
                       l' = [EvMove fpath (PathLib.str dest) age]
                       ∧ o' = [mk; mv]) →
              accounted Q (EvMatch fpath age :: l') o') as Hacc.
    { intros o' Ho' l' Hl'. split; [|split; [|split]].
      - intros op Hop. destruct Ho' as [-> | ->].
        + by apply list_elem_of_singleton in Hop as ->.
        + apply elem_of_cons in Hop as [->|Hop]; [done|].
          by apply list_elem_of_singleton in Hop as ->.
      - intros p Hp. exists fpath, age, dest. split; [by left|].
        split; [done|]. destruct Ho' as [-> | ->].
        + apply list_elem_of_singleton in Hp. by injection Hp.
        + apply elem_of_cons in Hp as [Hp|Hp]; [by injection Hp|].
          by apply list_elem_of_singleton in Hp.
      - intros i src dest' Hi. destruct Ho' as [-> | ->].
        + destruct i as [|i]; [discriminate Hi|]. by destruct i.
        + destruct i as [|[|i]]; [discriminate Hi| |by destruct i].
          injection Hi as <- <-. exists age, dest, 0%nat.
          split; [by left|]. done.
      - intros src dest' age' [H|H]%elem_of_cons; [discriminate H|].
        destruct (Hl' _ _ _ H) as [-> ->].
        apply list_elem_of_singleton in H. injection H as -> -> ->.
        split; [|by left]. right. by left. }
    destruct (file_mkdir f) as [e|].
    { exists [match e with
              | PermissionError => EvDeniedMove fpath
              | _ => EvErrorMove fpath
              end], [mk].
      split; [by destruct e|]. split; [by destruct e|].
      apply Hacc; [by left|].
      intros src dest' age' H. apply list_elem_of_singleton in H.
      by destruct e. }
    destruct (file_move f) as [e|].
    { exists [match e with
              | PermissionError => EvDeniedMove fpath
              | _ => EvErrorMove fpath
              end], [mk; mv].
      split; [by destruct e|]. split.
      { destruct e; cbn [emit perform ops]; by rewrite <- app_assoc. }
      apply Hacc; [by right|].
      intros src dest' age' H. apply list_elem_of_singleton in H.
      by destruct e. }
    exists [EvMove fpath (PathLib.str dest) age], [mk; mv].
    split; [done|]. split.
    { cbn [emit perform ops]. by rewrite <- app_assoc. }
    apply Hacc; [by right|]. done.
  - exists [match e with
            | PermissionError => EvDeniedMove fpath
            | _ => EvErrorMove fpath
            end], [].
    split; [by destruct e|]. split; [destruct e; by rewrite app_nil_r|].
    split; [|split; [|split]].
    + intros op H. by apply elem_of_nil in H.
    + intros p H. by apply elem_of_nil in H.
    + intros i src dest H. by rewrite lookup_nil in H.
    + intros src dest age' [H|H]%elem_of_cons; [discriminate H|].
      apply list_elem_of_singleton in H. by destruct e.
Qed.

Lemma accounted_no_calls l :
  (∀ src dest age, EvMove src dest age ∉ l) → accounted Q l [].
Proof.
  intros H. split; [|split; [|split]].
  - intros op Hop. by apply elem_of_nil in Hop.
  - intros p Hp. by apply elem_of_nil in Hp.
  - intros i src dest Hi. by rewrite lookup_nil in Hi.
  - intros src dest age Hin. by destruct (H _ _ _ Hin).
Qed.

Lemma scan_file_accounted root f s :
  ∃ l o, log (scan_file w cfg Q selected cutoff root f s) = log s ++ l
         ∧ ops (scan_file w cfg Q selected cutoff root f s) = ops s ++ o
         ∧ accounted Q l o.
Proof.
  unfold scan_file.
  destruct (negb _).
  { exists [], []. rewrite !app_nil_r. split; [done|]. split; [done|].
    apply accounted_nil. }
  assert (∀ e, (∀ src dest age, e ≠ EvMove src dest age) →
               ∀ s', log s' = log s → ops s' = ops s →
                     ∃ l o, log (emit e s') = log s ++ l
                            ∧ ops (emit e s') = ops s ++ o
                            ∧ accounted Q l o) as Hone.
  { intros e He s' Hl Ho. exists [e], []. cbn [emit log ops].
    rewrite Hl, Ho. split; [done|].
    split; [by rewrite app_nil_r|]. apply accounted_no_calls.
    intros src dest age H. apply list_elem_of_singleton in H.
    by apply (He src dest age). }
  destruct (file_stat f) as [mtime|[]]; try (by apply Hone).
  cbn [time_time]. destruct (mtime <? cutoff); [|by apply Hone].
  destruct (negb (dry_run cfg)).
  - set (fpath := NtPath.join root (file_name f)).
    set (age := (clock w (ticks s) - mtime) / 86400).
    destruct (quarantine_accounted f fpath age
                (emit (EvMatch fpath age) (St (log s) (ops s) (S (ticks s)))))
      as (l & o & Hl & Ho & Hacc).
    exists (EvMatch fpath age :: l), o.
    rewrite Hl, Ho. cbn [emit log ops]. rewrite <- app_assoc. done.
  - exists [EvMatch (NtPath.join root (file_name f))
              ((clock w (ticks s) - mtime) / 86400)], [].
    split; [done|]. split; [by rewrite app_nil_r|].
    apply accounted_no_calls.
    intros src dest age H. by apply list_elem_of_singleton in H.
Qed.

Local Abbreviation accounts s s' :=
  (∃ l o, log s' = log s ++ l ∧ ops s' = ops s ++ o ∧ accounted Q l o).

Lemma accounts_refl s : accounts s s.
Proof. exists [], []. rewrite !app_nil_r. by pose proof (accounted_nil Q). Qed.

Lemma accounts_trans s1 s2 s3 : accounts s1 s2 → accounts s2 s3 → accounts s1 s3.
Proof.
  intros (l1 & o1 & Hl1 & Ho1 & H1) (l2 & o2 & Hl2 & Ho2 & H2).
  exists (l1 ++ l2), (o1 ++ o2). rewrite Hl2, Ho2, Hl1, Ho1.
  rewrite <- !app_assoc. split; [done|]. split; [done|].
  by apply accounted_app.
Qed.

Lemma scan_dir_accounted root dirs files s :
  accounts s (fst (scan_dir w cfg Q excl selected cutoff root dirs files s)).
Proof.
  unfold scan_dir. cbn [fst].
  apply (accounts_trans _ (emit (EvScan root) s)).
  { exists [EvScan root], []. split; [done|]. split; [by rewrite app_nil_r|].
    apply accounted_no_calls. intros src dest age H.
    by apply list_elem_of_singleton in H. }
  generalize (emit (EvScan root) s). clear s.
  induction files as [|f files IH]; intros s; [apply accounts_refl|].
  simpl. eapply accounts_trans; [|apply IH]. apply scan_file_accounted.
Qed.

Lemma scan_drives_accounted s :
  accounts s (scan_drives w cfg Q excl selected cutoff s).
Proof.
  unfold scan_drives. generalize (list_fixed_drives w). intros ds.
  assert (∀ s', accounts s s' →
            accounts s (fold_left
              (fun s drive =>
                 match drives w !! drive with
                 | Some d =>
                     os_walk (scan_dir w cfg Q excl selected cutoff) drive d s
                 | None => s
                 end) ds s')) as H.
  { induction ds as [|drive ds IH]; intros s' Hs'; [done|].
    simpl. apply IH. destruct (drives w !! drive) as [d|]; [|done].
    apply (os_walk_inv (scan_dir w cfg Q excl selected cutoff)
             (fun s'' => accounts s s'') (fun _ => True)); [|done|done].
    intros root dirs files s'' _ Hs''. split; [|done].
    eapply accounts_trans; [exact Hs''|]. apply scan_dir_accounted. }
  apply H, accounts_refl.
Qed.

End scan.

End AccountFacts.

(** ** The directories of the program itself *)

Module OwnFacts.
Import PyStr PyStrFacts Spec PathFacts UnderFacts JoinFacts AutoPurge RunScan
  Tree Coverage VisitFacts.

Lemma uppercase_plain c : c ∈ ascii_uppercase → plain_char c = true.
Proof.
  assert (forallb plain_char ascii_uppercase = true) as H
    by (vm_compute; reflexivity).
  rewrite forallb_forall in H. intros Hc. apply H. by apply list_elem_of_In.
Qed.

Lemma fixed_drive_render w drive :
  drive ∈ list_fixed_drives w →
  ∃ c, c ∈ ascii_uppercase ∧ plain_char c = true ∧ drive = render c []
       ∧ is_Some (drives w !! drive).
Proof.
  unfold list_fixed_drives. intros [Hsome Hin]%list_elem_of_filter.
  apply list_elem_of_fmap in Hin as (c & -> & Hc).
  exists c. split; [done|]. split; [by apply uppercase_plain|]. done.
Qed.

Lemma resolve_render w p c l :
  plain_char c = true → Forall (fun s => proper_name s = true) l →
  realpath w (PathLib.str p) = render c l →
  PathLib.str (resolve w p) = render c l.
Proof.
  intros Hc Hl Hreal. unfold resolve. rewrite Hreal.
  rewrite parse_path_render by (by try apply proper_plain).
  apply str_render.
Qed.

Section own.
Context (w : world) (cfg : config) (own : PathLib.PurePath).
Context (c : ascii) (l : list string).
Hypothesis (Hc : plain_char c = true).
Hypothesis (Hl : Forall (fun s => proper_name s = true) l).
Hypothesis (Hown : own ∈ own_dirs cfg).
Hypothesis (Hreal : realpath w (PathLib.str own) = render c l).

(** the resolved spelling of a directory of the program is on the effective
    exclude list *)
Lemma own_entry : render c l ∈ effective_excludes w cfg.
Proof.
  unfold effective_excludes. apply elem_of_app. right.
  rewrite <- (resolve_render w own c l Hc Hl Hreal).
  unfold own_dirs in Hown.
  apply elem_of_cons in Hown as [->|Hown]; [by left|].
  apply elem_of_cons in Hown as [->|Hown]; [right; by left|].
  apply list_elem_of_singleton in Hown as ->. do 2 right. by left.
Qed.

Lemma own_dir_excluded names :
  Forall (fun s => proper_name s = true) names →
  l `prefix_of` names →
  should_exclude_dir (getcwd w) (render c names) (effective_excludes w cfg)
  = true.
Proof.
  intros Hn Hpre. apply ExclusionTheorems.should_exclude_dir_iff.
  exists (render c l). split; [apply own_entry|].
  by apply is_under_render.
Qed.

End own.





End OwnFacts.

(** ** What a whole run logs and does *)

Module RunParts.
Import PyStr Spec AutoPurge WalkFacts ScanFacts RunScan Coverage RunFacts
  AccountFacts.

(** a line that is neither the visit of a directory nor about a file *)
Local Abbreviation quiet e := (event_path e = None ∧ ∀ r, e ≠ EvScan r).

Lemma clear_directory_parts w d s :
  ∃ tail dels,
    log (snd (clear_directory w d s)) = log s ++ tail
    ∧ ops (snd (clear_directory w d s)) = ops s ++ dels
    ∧ Forall (fun e => quiet e) tail
    ∧ dels = omap (delete_op d) (default [] (listdir w d))
    ∧ fst (clear_directory w d s)
      = match listdir w d with
        | Some _ => Ok PyNone
        | None => Raise FileNotFoundError
        end.
Proof.
  unfold clear_directory. destruct (listdir w d) as [items|]; cbn [fst snd].
  - eexists _, _. cbn [emit log ops].
    rewrite ClearTheorems.clear_items_log, ClearTheorems.clear_items_ops.
    cbn [emit log ops]. rewrite <- !app_assoc.
    split; [reflexivity|]. split; [reflexivity|]. split; [|done].
    constructor; [split; [done|discriminate]|].
    apply Forall_app. split.
    + apply Forall_fmap, Forall_forall. intros item _.
      split; [done|discriminate].
    + constructor; [|done]. split; [done|discriminate].
  - exists [EvNotFound d], []. cbn [emit log ops default omap].
    rewrite app_nil_r. split; [done|]. split; [done|]. split; [|done].
    constructor; [|done]. split; [done|discriminate].
Qed.

Lemma run_scan_parts w cfg :
  ∃ head l tail o dels,
    log (snd (run_scan w cfg)) = head ++ l ++ tail
    ∧ ops (snd (run_scan w cfg))
      = [ OpMkdir (PathLib.str (quarantine_dir cfg));
          OpMkdir (PathLib.str (logs_dir cfg)) ] ++ o ++ dels
    ∧ Forall (fun e => quiet e) head
    ∧ Forall (fun e => quiet e) tail
    ∧ (∀ e, e ∈ l → e ∈ new_events (before_walk w cfg) (after_walk w cfg))
    ∧ accounted (quarantine_dir cfg) l o
    ∧ (∀ op, op ∈ dels →
         AutoDelete cfg = true
         ∧ ∃ items item,
             listdir w (PathLib.str (quarantine_dir cfg)) = Some items
             ∧ item ∈ items
             ∧ delete_op (PathLib.str (quarantine_dir cfg)) item = Some op).
Proof.
  rewrite run_scan_stages.
  destruct (FILE_CATEGORIES cfg !! "all") as [all|].
  2:{ exists [], [], [], [], []. cbn [snd perform log ops st0].
      split; [done|]. split; [done|]. split; [done|]. split; [done|].
      split; [intros e H; by apply elem_of_nil in H|].
      split; [apply accounted_nil|]. intros op H. by apply elem_of_nil in H. }
  destruct (at_clock_state w cfg) as (dl & Hdl & Hquiet & Hops & _).
  destruct (scan_drives_accounted w cfg (quarantine_dir cfg)
              (effective_excludes w cfg) (selected_exts cfg)
              (cutoff_epoch w cfg) (before_walk w cfg))
    as (l & o & Hl & Ho & Hacc).
  fold (after_walk w cfg) in Hl, Ho.
  assert (log (before_walk w cfg) = log (at_clock w cfg)) as Hbl by done.
  assert (ops (before_walk w cfg) = ops (at_clock w cfg)) as Hbo by done.
  assert (Forall (fun e => quiet e)
            (EvHeader (retention_days cfg) (dry_run cfg) :: dl)) as Hhead.
  { constructor; [|done]. split; [done|discriminate]. }
  assert (∀ e, e ∈ l → e ∈ new_events (before_walk w cfg) (after_walk w cfg))
    as Hnew.
  { intros e He. by rewrite (new_events_app _ _ l Hl). }
  destruct (AutoDelete cfg) eqn:Hauto.
  - destruct (clear_directory_parts w (PathLib.str (quarantine_dir cfg))
                (emit EvEnd (after_walk w cfg)))
      as (tail & dels & Htl & Hto & Htq & Hdels & _).
    exists (EvHeader (retention_days cfg) (dry_run cfg) :: dl), l,
           (EvEnd :: tail), o, dels.
    rewrite Htl, Hto. cbn [emit log ops]. rewrite Hl, Ho, Hbl, Hbo, Hdl, Hops.
    rewrite <- !app_assoc.
    split; [done|]. split; [done|]. split; [done|].
    split; [constructor; [split; [done|discriminate]|done]|].
    split; [done|]. split; [done|].
    intros op Hop. split; [done|]. subst dels.
    apply list_elem_of_omap in Hop as (item & Hitem & Hop).
    destruct (listdir w (PathLib.str (quarantine_dir cfg))) as [items|];
      [|by apply elem_of_nil in Hitem].
    by exists items, item.
  - exists (EvHeader (retention_days cfg) (dry_run cfg) :: dl), l, [EvEnd], o, [].
    cbn [snd emit log ops]. rewrite Hl, Ho, Hbl, Hbo, Hdl, Hops.
    rewrite <- !app_assoc, app_nil_r.
    split; [done|]. split; [done|]. split; [done|].
    split; [constructor; [split; [done|discriminate]|done]|].
    split; [done|]. split; [done|].
    intros op H. by apply elem_of_nil in H.
Qed.

End RunParts.

(** ** The reach of the scan *)

Module CoverageTheorems.
Import PyStr Spec AutoPurge Tree Coverage RunScan Scenarios Hosts.

(** X1. Every line the walk of auto_purge adds to the log comes from a
    directory of the host that the scan comes to, that is one lying on an
    existing drive with no pruned directory on the way down: the line is the
    [SCAN] line of that directory, or it is about one of the files of that
    directory, and that file has a selected extension. *)
Theorem scan_lines_come_from_scanned_directories
    (w : world) (cfg : config) (Q : PathLib.PurePath) (excl : list string)
    (selected : gset string) (cutoff : Z) (s : state) (e : event) :
  e ∈ new_events s (scan_drives w cfg Q excl selected cutoff s) →
  ∃ drive names d',
    scanned_dir w excl drive names d'
    ∧ (e = EvScan (walk_path drive names)
       ∨ ∃ f, f ∈ files_of d'
              ∧ passes_filter selected (file_name f) = true
              ∧ event_path e
                = Some (NtPath.join (walk_path drive names) (file_name f))).
Proof.
  intros He.
  destruct (CoverageFacts.scan_drives_positions w cfg Q excl selected cutoff s)
    as (l & Hl & Hall).
  rewrite (ScanFacts.new_events_app _ _ l Hl) in He.
  rewrite Forall_forall in Hall.
  destruct (Hall e He) as (drive & names & d' & Hpos & Hcase).
  exists drive, names, d'. split; [done|].
  destruct Hcase as [->|(f & Hf & Hpass & Hpath & _)]; [by left|].
  right. by exists f.
Qed.

Lemma scan_lines_come_from_scanned_directories_witness :
  EvSkip "C:\Users\Bob\notes.PDF" 0
    ∈ new_events st0
        (scan_drives host_with_documents (documents_cfg true false)
           (quarantine_dir (documents_cfg true false))
           (effective_excludes host_with_documents (documents_cfg true false))
           {[ ".pdf" ]} 913600 st0)
  ∧ ∃ drive names d',
      scanned_dir host_with_documents
        (effective_excludes host_with_documents (documents_cfg true false))
        drive names d'
      ∧ (EvSkip "C:\Users\Bob\notes.PDF" 0 = EvScan (walk_path drive names)
         ∨ ∃ f, f ∈ files_of d'
                ∧ passes_filter {[ ".pdf" ]} (file_name f) = true
                ∧ event_path (EvSkip "C:\Users\Bob\notes.PDF" 0)
                  = Some (NtPath.join (walk_path drive names) (file_name f))).
Proof.
  assert (EvSkip "C:\Users\Bob\notes.PDF" 0
            ∈ new_events st0
                (scan_drives host_with_documents (documents_cfg true false)
                   (quarantine_dir (documents_cfg true false))
                   (effective_excludes host_with_documents
                      (documents_cfg true false))
                   {[ ".pdf" ]} 913600 st0)) as H.
  { apply (list_elem_of_lookup_2 _ 4). vm_compute. reflexivity. }
  split; [exact H|].
  exact (scan_lines_come_from_scanned_directories _ _ _ _ _ _ _ _ H).
Defined.

End CoverageTheorems.

(** ** What a run does to the directories of the program *)

Module RunTheorems.
Import PyStr Spec PathFacts UnderFacts JoinFacts AutoPurge Tree Coverage
  RunScan Scenarios Hosts RunParts OwnFacts.

(** X3. A run never visits the directories of the program where they lie on
    disk.  Let [os.path.realpath] resolve PROGRAM_DATA_DIR, its Quarantine
    folder or its Logs folder to [X:\a\...\b], an absolute path below the
    root of a drive, with the upper-case drive letter the walk uses.  Then
    no [SCAN] line of the log names that directory or a directory below it,
    whatever the exclude list of the user holds. *)
Theorem program_directories_are_not_visited
    (w : world) (cfg : config) (own : PathLib.PurePath) (c : ascii)
    (l names : list string) :
  own ∈ own_dirs cfg →
  c ∈ ascii_uppercase →
  Forall (fun s => proper_name s = true) l →
  l ≠ [] →
  realpath w (PathLib.str own) = render c l →
  Forall (fun s => proper_name s = true) names →
  l `prefix_of` names →
  EvScan (render c names) ∉ log (snd (run_scan w cfg)).
Proof.
  intros Hown Hupper Hl Hne Hreal Hnames Hpre Hin.
  pose proof (uppercase_plain c Hupper) as Hc.
  destruct (run_scan_parts w cfg)
    as (head & lw & tail & o & dels & Hlog & _ & Hhead & Htail & Hnew & _).
  rewrite Hlog in Hin.
  assert (EvScan (render c names) ∈ lw) as Hlw.
  { apply elem_of_app in Hin as [Hin|Hin].
    - rewrite Forall_forall in Hhead. destruct (Hhead _ Hin) as [_ Hq].
      by destruct (Hq (render c names)).
    - apply elem_of_app in Hin as [Hin|Hin]; [done|].
      rewrite Forall_forall in Htail. destruct (Htail _ Hin) as [_ Hq].
      by destruct (Hq (render c names)). }
  apply Hnew in Hlw. unfold after_walk in Hlw.
  apply ExclusionTheorems.scan_stays_in_reached_directories in Hlw
    as (drive & root & Hdrive & Hreached & Hcase).
  destruct Hcase as [[= <-]|(f & Hf)]; [|discriminate Hf].
  apply ExclusionTheorems.reached_not_excluded in Hreached as [Hroot|Hex].
  - destruct (fixed_drive_render w drive Hdrive) as (c' & _ & Hc' & -> & _).
    apply render_inj in Hroot as [_ ->];
      [|by apply proper_plain|by constructor].
    apply Hne. by apply prefix_nil_inv.
  - rewrite (own_dir_excluded w cfg own c l Hc Hl Hown Hreal names Hnames Hpre)
      in Hex.
    discriminate Hex.
Qed.

Lemma program_directories_are_not_visited_witness :
  quarantine_dir (documents_cfg false false)
    ∈ own_dirs (documents_cfg false false)
  ∧ "C"%char ∈ ascii_uppercase
  ∧ Forall (fun s => proper_name s = true) ["FilePurger"; "Quarantine"]
  ∧ ["FilePurger"; "Quarantine"] ≠ []
  ∧ realpath host_with_documents
      (PathLib.str (quarantine_dir (documents_cfg false false)))
    = render "C" ["FilePurger"; "Quarantine"]
  ∧ Forall (fun s => proper_name s = true) ["FilePurger"; "Quarantine"; "C"]
  ∧ ["FilePurger"; "Quarantine"] `prefix_of` ["FilePurger"; "Quarantine"; "C"]
  ∧ EvScan "C:\FilePurger\Quarantine\C"
      ∉ log (snd (run_scan host_with_documents (documents_cfg false false))).
Proof.
  assert (quarantine_dir (documents_cfg false false)
            ∈ own_dirs (documents_cfg false false)) as H0 by (by left).
  assert ("C"%char ∈ ascii_uppercase) as H1
    by (apply (list_elem_of_lookup_2 _ 2); reflexivity).
  assert (Forall (fun s => proper_name s = true) ["FilePurger"; "Quarantine"])
    as H2 by (constructor; [reflexivity|constructor; [reflexivity|constructor]]).
  assert (["FilePurger"; "Quarantine"] ≠ ([] : list string)) as H3
    by discriminate.
  assert (realpath host_with_documents
            (PathLib.str (quarantine_dir (documents_cfg false false)))
          = render "C" ["FilePurger"; "Quarantine"]) as H4
    by (vm_compute; reflexivity).
  assert (Forall (fun s => proper_name s = true)
            ["FilePurger"; "Quarantine"; "C"]) as H5.
  { constructor; [reflexivity|]. constructor; [reflexivity|].
    constructor; [reflexivity|constructor]. }
  assert (["FilePurger"; "Quarantine"]
            `prefix_of` ["FilePurger"; "Quarantine"; "C"]) as H6
    by (by exists ["C"]).
  repeat (split; [assumption|]).
  exact (program_directories_are_not_visited host_with_documents
           (documents_cfg false false) _ "C" ["FilePurger"; "Quarantine"]
           ["FilePurger"; "Quarantine"; "C"] H0 H1 H2 H3 H4 H5 H6).
Defined.



End RunTheorems.

(** ** Moves, deletions and reloading *)

Module EffectTheorems.
Import PyStr PyStrFacts Spec AutoPurge ConfigFacts Coverage RunScan Scenarios
  Hosts RunFacts RunParts AccountFacts.

(** X5. The walk of auto_purge changes the file system only through the
    quarantine: it deletes nothing; a folder is created only for a file that
    the same walk has reported as [MATCH]; a file is moved only if the same
    walk has reported it as [MATCH], to the very destination that
    [build_quarantine_dest] computes for it, and the call made just before
    the move is the creation of the folder of that destination; and every
    [MOVE] line of the log has its move among the calls. *)
Theorem calls_of_the_scan_are_accounted_for
    (w : world) (cfg : config) (Q : PathLib.PurePath) (excl : list string)
    (selected : gset string) (cutoff : Z) (s : state) :
  let s' := scan_drives w cfg Q excl selected cutoff s in
  ∃ o,
    ops s' = ops s ++ o
    ∧ (∀ op, op ∈ o → is_delete op = false)
    ∧ (∀ p, OpMkdir p ∈ o →
         ∃ src age d,
           EvMatch src age ∈ new_events s s'
           ∧ build_quarantine_dest Q (PathLib.parse_path src) = Ok d
           ∧ p = PathLib.str (PathLib.parent d))
    ∧ (∀ i src dest,
         o !! i = Some (OpMove src dest) →
         ∃ age d j,
           EvMatch src age ∈ new_events s s'
           ∧ build_quarantine_dest Q (PathLib.parse_path src) = Ok d
           ∧ dest = PathLib.str d
           ∧ i = S j
           ∧ o !! j = Some (OpMkdir (PathLib.str (PathLib.parent d))))
    ∧ (∀ src dest age,
         EvMove src dest age ∈ new_events s s' →
         OpMove src dest ∈ o ∧ EvMatch src age ∈ new_events s s').
Proof.
  intros s'.
  destruct (scan_drives_accounted w cfg Q excl selected cutoff s)
    as (l & o & Hl & Ho & Hkind & Hmk & Hmv & Hlines).
  fold s' in Hl, Ho. rewrite (ScanFacts.new_events_app _ _ l Hl).
  exists o. split; [done|]. split; [|done].
  intros op Hop. specialize (Hkind op Hop). by destruct op.
Qed.

(** X6. A run deletes only when AutoDelete is set, and then only entries
    listed in the quarantine directory itself: every [os.unlink] or
    [shutil.rmtree] of a run is the deletion of one item of
    [os.listdir(QUARANTINE_DIR)]. *)
Theorem only_quarantine_entries_are_deleted
    (w : world) (cfg : config) (op : fs_op) :
  op ∈ ops (snd (run_scan w cfg)) →
  is_delete op = true →
  AutoDelete cfg = true
  ∧ ∃ items item,
      listdir w (PathLib.str (quarantine_dir cfg)) = Some items
      ∧ item ∈ items
      ∧ delete_op (PathLib.str (quarantine_dir cfg)) item = Some op.
Proof.
  intros Hin Hdel.
  destruct (run_scan_parts w cfg)
    as (head & l & tail & o & dels & _ & Hops & _ & _ & _ & [Hacc _] & Hdels).
  rewrite Hops in Hin. apply elem_of_app in Hin as [Hin|Hin].
  { apply elem_of_cons in Hin as [->|Hin]; [discriminate Hdel|].
    apply list_elem_of_singleton in Hin as ->. discriminate Hdel. }
  apply elem_of_app in Hin as [Hin|Hin]; [|by apply Hdels].
  specialize (Hacc op Hin). destruct op; try done; discriminate Hdel.
Qed.

Lemma only_quarantine_entries_are_deleted_witness :
  OpRmtree "C:\FilePurger\Quarantine\C"
    ∈ ops (snd (run_scan host_with_full_quarantine (documents_cfg false true)))
  ∧ is_delete (OpRmtree "C:\FilePurger\Quarantine\C") = true
  ∧ AutoDelete (documents_cfg false true) = true.
Proof.
  assert (OpRmtree "C:\FilePurger\Quarantine\C"
            ∈ ops (snd (run_scan host_with_full_quarantine
                          (documents_cfg false true)))) as H.
  { apply (list_elem_of_lookup_2 _ 2). vm_compute. reflexivity. }
  split; [exact H|]. split; [reflexivity|].
  exact (proj1 (only_quarantine_entries_are_deleted _ _ _ H eq_refl)).
Defined.

(** X8. Loading is idempotent: a configuration that was loaded, written
    back with its "all" category and loaded again comes out unchanged,
    because the extensions collected into "all" are already in lower case
    and are all found again in the categories, "all" itself included. *)
Theorem loading_is_idempotent (f : config_file) (cfg : config) :
  load_config_or_exit f = Ok cfg →
  load_config_or_exit (dump cfg) = Ok cfg.
Proof.
  intros Hload. unfold load_config_or_exit in Hload.
  destruct f as [| |raw]; try discriminate Hload.
  destruct (raw_PROGRAM_DATA_DIR raw) as [pdd|]; [|discriminate Hload].
  destruct (raw_EXCLUDE_DIRS raw) as [excl|]; [|discriminate Hload].
  destruct (raw_FILE_CATEGORIES raw) as [cats|]; [|discriminate Hload].
  injection Hload as <-.
  unfold dump, load_config_or_exit.
  cbn [raw_PROGRAM_DATA_DIR raw_EXCLUDE_DIRS raw_FILE_CATEGORIES
       raw_retention_days raw_dry_run raw_AutoDelete PROGRAM_DATA_DIR
       EXCLUDE_DIRS FILE_CATEGORIES retention_days dry_run AutoDelete default].
  set (L := sorted (elements (all_exts cats))).
  assert (all_exts (<["all" := L]> cats) = all_exts cats) as ->.
  { apply set_eq. intros x. rewrite !elem_of_all_exts. split.
    - intros (k & exts & e & Hk & He & ->).
      destruct (decide (k = "all")) as [->|Hne].
      + rewrite lookup_insert_eq in Hk. injection Hk as <-.
        apply elem_of_sorted, elem_of_elements in He.
        rewrite (all_exts_lowered cats e He).
        by apply elem_of_all_exts.
      + rewrite lookup_insert_ne in Hk
          by (intros E; apply Hne; symmetry; exact E).
        by exists k, exts, e.
    - intros Hx. exists "all", L, x. rewrite lookup_insert_eq.
      split; [done|]. split.
      + apply elem_of_sorted, elem_of_elements. by apply elem_of_all_exts.
      + symmetry. apply (all_exts_lowered cats). by apply elem_of_all_exts. }
  fold L. by rewrite insert_insert_eq.
Qed.

Lemma loading_is_idempotent_witness :
  load_config_or_exit (config_documents false) = Ok (documents_cfg false false)
  ∧ load_config_or_exit (dump (documents_cfg false false))
    = Ok (documents_cfg false false).
Proof.
  assert (load_config_or_exit (config_documents false)
          = Ok (documents_cfg false false)) as H
    by (vm_compute; reflexivity).
  split; [exact H|].
  exact (loading_is_idempotent _ _ H).
Defined.

End EffectTheorems.

(** ** Exclusion on absolute paths *)

Module PruningTheorems.
Import PyStr Spec AutoPurge UnderFacts WalkFacts.

(** X9. On absolute paths of letter drives, spelt without "." or "..",
    [is_under] is an exact test on components, whatever the working
    directory: [path] is under [prefix] if and only if both have the same
    drive letter in the same case and the components of [prefix] begin those
    of [path], compared as written. A name that merely begins with the last
    component of [prefix] is not under it. *)
Theorem is_under_compares_components
    (cwd : string) (c c' : ascii) (l l' : list string) :
  plain_char c = true → plain_char c' = true →
  Forall (fun s => proper_name s = true) l →
  Forall (fun s => proper_name s = true) l' →
  is_under cwd (render c l) (render c' l') = true
  ↔ c = c' ∧ l' `prefix_of` l.
Proof. apply is_under_render. Qed.

Lemma is_under_compares_components_witness :
  plain_char "C" = true
  ∧ Forall (fun s => proper_name s = true) ["Program Files (x86)"; "App"]
  ∧ Forall (fun s => proper_name s = true) ["Program Files"]
  ∧ is_under "D:\work" "C:\Program Files (x86)\App" "C:\Program Files" = false.
Proof.
  assert (plain_char "C" = true) as H1 by reflexivity.
  assert (Forall (fun s => proper_name s = true) ["Program Files (x86)"; "App"])
    as H2 by (constructor; [reflexivity|constructor; [reflexivity|constructor]]).
  assert (Forall (fun s => proper_name s = true) ["Program Files"]) as H3
    by (constructor; [reflexivity|constructor]).
  repeat (split; [assumption|]).
  apply not_true_is_false. intros H.
  apply (is_under_compares_components "D:\work" "C" "C"
           ["Program Files (x86)"; "App"] ["Program Files"] H1 H1 H2 H3) in H
    as [_ [k Hk]].
  discriminate Hk.
Defined.

(** X10. With an exclude list of such absolute paths, exclusion passes on to
    everything below: if [should_exclude_dir] holds of a directory, it holds
    of each of its descendants, so pruning a directory from the walk loses
    no directory that the list would have let through. *)
Theorem exclusion_is_inherited
    (cwd : string) (c : ascii) (l more : list string)
    (entries : list (ascii * list string)) :
  plain_char c = true →
  Forall (fun s => proper_name s = true) l →
  Forall (fun s => proper_name s = true) more →
  Forall (fun e => plain_char (fst e) = true
                   ∧ Forall (fun s => proper_name s = true) (snd e)) entries →
  should_exclude_dir cwd (render c l)
    ((fun e => render (fst e) (snd e)) <$> entries) = true →
  should_exclude_dir cwd (render c (l ++ more))
    ((fun e => render (fst e) (snd e)) <$> entries) = true.
Proof.
  intros Hc Hl Hmore Hentries Hex.
  apply ExclusionTheorems.should_exclude_dir_render in Hex
    as (l' & Hin & Hpre); [|done|done|done].
  apply ExclusionTheorems.should_exclude_dir_render;
    [done|by apply Forall_app|done|].
  exists l'. split; [done|]. by apply prefix_app_r.
Qed.

Lemma exclusion_is_inherited_witness :
  plain_char "C" = true
  ∧ Forall (fun s => proper_name s = true) ["Windows"]
  ∧ Forall (fun s => proper_name s = true) ["System32"; "drivers"]
  ∧ should_exclude_dir "D:\work" "C:\Windows" ["C:\Windows"; "D:\Games"] = true
  ∧ should_exclude_dir "D:\work" "C:\Windows\System32\drivers"
      ["C:\Windows"; "D:\Games"] = true.
Proof.
  assert (plain_char "C" = true) as H1 by reflexivity.
  assert (Forall (fun s => proper_name s = true) ["Windows"]) as H2
    by (constructor; [reflexivity|constructor]).
  assert (Forall (fun s => proper_name s = true) ["System32"; "drivers"]) as H3
    by (constructor; [reflexivity|constructor; [reflexivity|constructor]]).
  assert (Forall (fun e : ascii * list string =>
                    plain_char (fst e) = true
                    ∧ Forall (fun s => proper_name s = true) (snd e))
                 [("C"%char, ["Windows"]); ("D"%char, ["Games"])]) as H4.
  { constructor; [split; [reflexivity|exact H2]|].
    constructor; [|constructor].
    split; [reflexivity|]. constructor; [reflexivity|constructor]. }
  assert (should_exclude_dir "D:\work" "C:\Windows" ["C:\Windows"; "D:\Games"]
          = true) as H5 by (vm_compute; reflexivity).
  repeat (split; [assumption|]).
  exact (exclusion_is_inherited "D:\work" "C" ["Windows"]
           ["System32"; "drivers"]
           [("C"%char, ["Windows"]); ("D"%char, ["Games"])] H1 H2 H3 H4 H5).
Defined.

(** X11. The pruning loop of the walk, which collects the excluded names
    and then removes them from [dirs] one [dirs.remove] at a time, leaves
    exactly the names whose directory is not excluded, in their original
    order: it acts as a filter, also when a name is listed more than once. *)
Theorem pruning_keeps_the_directories_not_excluded
    (w : world) (cfg : config) (Q : PathLib.PurePath) (excl : list string)
    (selected : gset string) (cutoff : Z)
    (root : string) (dirs : list string) (files : list file) (s : state) :
  snd (scan_dir w cfg Q excl selected cutoff root dirs files s)
  = filter (fun d => should_exclude_dir (getcwd w) (NtPath.join root d) excl
                     = false) dirs.
Proof.
  rewrite ScanFacts.scan_dir_dirs.
  apply list_filter_iff. intros d.
  destruct (should_exclude_dir _ _ _); cbn.
  - split; [intros H; destruct (H I)|discriminate].
  - split; [done|intros _ []].
Qed.

End PruningTheorems.

(** ** Relative paths and the destinations of safe_purge *)

Module RelFacts.
Import PyStr PyStrFacts Spec PathFacts UnderFacts JoinFacts.

Lemma normpath_render c l :
  plain_char c = true →
  Forall (fun s => proper_name s = true) l →
  NtPath.normpath (render c l) = render c l.
Proof.
  intros Hc Hl. pose proof (abspath_render EmptyString c l Hc Hl) as E.
  unfold NtPath.abspath in E. by rewrite isabs_render in E.
Qed.

Lemma join_app l r :
  l ≠ [] → r ≠ [] →
  PyStr.join NtPath.sep_s (l ++ r)
  = PyStr.join NtPath.sep_s l +:+ NtPath.sep_s +:+ PyStr.join NtPath.sep_s r.
Proof.
  intros Hl Hr. induction l as [|x l IH]; [done|].
  destruct l as [|y l].
  - destruct r as [|z r]; [done|]. reflexivity.
  - change (PyStr.join NtPath.sep_s ((x :: y :: l) ++ r))
      with (x +:+ NtPath.sep_s +:+ PyStr.join NtPath.sep_s ((y :: l) ++ r)).
    rewrite IH by done.
    change (PyStr.join NtPath.sep_s (x :: y :: l))
      with (x +:+ NtPath.sep_s +:+ PyStr.join NtPath.sep_s (y :: l)).
    by rewrite !append_assoc.
Qed.

(** joining a relative path made of names with one more name *)
Lemma join_relative l nm :
  l ≠ [] →
  Forall (fun s => plain_name s = true) l →
  plain_name nm = true →
  NtPath.join (PyStr.join NtPath.sep_s l) nm
  = PyStr.join NtPath.sep_s (l ++ [nm]).
Proof.
  intros Hnil Hl Hnm. unfold NtPath.join.
  rewrite splitroot_join_plain by done.
  pose proof Hnm as (Hne&_&Hall)%plain_name_inv.
  rewrite splitroot_plain by done. cbn [nonempty andb orb negb].
  destruct (last_char_join l Hl Hnil) as (lc&Hlast&Hlc).
  rewrite Hlast. cbn [from_option].
  destruct l as [|x l]; [done|].
  assert (nonempty (PyStr.join NtPath.sep_s (x :: l)) = true) as ->.
  { apply nonempty_true, join_nonempty. by apply Forall_cons in Hl as [? _]. }
  pose proof (plain_char_inv lc Hlc) as (Hs&Ha&_).
  unfold NtPath.is_sep. rewrite Hs, Ha. cbn [orb negb andb].
  rewrite andb_false_r. rewrite !app_nil_l.
  rewrite join_snoc by done. by rewrite !append_assoc.
Qed.

Lemma fold_join_relative l r :
  l ≠ [] →
  Forall (fun s => plain_name s = true) l →
  Forall (fun s => plain_name s = true) r →
  fold_left NtPath.join r (PyStr.join NtPath.sep_s l)
  = PyStr.join NtPath.sep_s (l ++ r).
Proof.
  intros Hnil Hl Hr. revert l Hnil Hl.
  induction Hr as [|n r Hn _ IH]; intros l Hnil Hl; simpl.
  - by rewrite app_nil_r.
  - rewrite join_relative by done. rewrite IH.
    + by rewrite <- app_assoc.
    + by destruct l.
    + apply Forall_app. split; [done|by constructor].
Qed.

(** joining an absolute path with a relative path made of names *)
Lemma join_render_relative c l r :
  plain_char c = true →
  Forall (fun s => plain_name s = true) l →
  Forall (fun s => plain_name s = true) r →
  r ≠ [] →
  NtPath.join (render c l) (PyStr.join NtPath.sep_s r) = render c (l ++ r).
Proof.
  intros Hc Hl Hr Hnil. unfold NtPath.join.
  rewrite splitroot_render by done.
  rewrite splitroot_join_plain by done. cbn [nonempty andb orb negb].
  rewrite andb_false_r. cbn [andb].
  destruct l as [|x l].
  - cbn [PyStr.join nonempty andb app]. by rewrite !app_nil_l.
  - assert (x :: l ≠ []) as Hxl by discriminate.
    destruct (last_char_join (x :: l) Hl Hxl) as (lc&Hlast&Hlc).
    rewrite Hlast. cbn [from_option].
    assert (nonempty (PyStr.join NtPath.sep_s (x :: l)) = true) as ->.
    { apply nonempty_true, join_nonempty. by apply Forall_cons in Hl as [? _]. }
    pose proof (plain_char_inv lc Hlc) as (Hs&Ha&_).
    unfold NtPath.is_sep. rewrite Hs, Ha. cbn [orb negb andb].
    unfold render. rewrite join_app by done.
    by rewrite !append_assoc.
Qed.

Lemma filter_nonempty_names l :
  Forall (fun s => plain_name s = true) l →
  filter (fun x => Is_true (nonempty x)) l = l.
Proof.
  induction 1 as [|x l Hx _ IH]; [done|].
  rewrite filter_cons. apply plain_name_inv in Hx as (Hne&_&_).
  rewrite Hne. case_decide as Hd; [by rewrite IH|]. by destruct Hd.
Qed.

(** the path of a file relative to the root of its drive *)
Lemma relpath_render cwd c l :
  plain_char c = true →
  Forall (fun s => proper_name s = true) l →
  l ≠ [] →
  NtPath.relpath cwd (render c l) (render c [])
  = Some (PyStr.join NtPath.sep_s l).
Proof.
  intros Hc Hl Hnil. unfold NtPath.relpath.
  assert (Forall (fun s => proper_name s = true) []) as Hnone by constructor.
  rewrite (normpath_render c l Hc Hl), (normpath_render c [] Hc Hnone).
  rewrite (abspath_render cwd c l Hc Hl), (abspath_render cwd c [] Hc Hnone).
  cbv zeta.
  rewrite !splitroot_render by done.
  rewrite String.eqb_refl. cbn [negb].
  rewrite (split_join l) by (by try apply proper_plain).
  rewrite (filter_nonempty_names l) by (by apply proper_plain).
  assert (filter (fun x => Is_true (nonempty x))
            (PyStr.split NtPath.sep (PyStr.join NtPath.sep_s []))
          = []) as -> by (vm_compute; reflexivity).
  cbn [fmap list_fmap NtPath.common_len length Nat.sub replicate app drop].
  destruct l as [|x r]; [done|].
  f_equal. apply proper_plain in Hl. apply Forall_cons in Hl as [Hx Hr].
  change (x :: r) with ([x] ++ r).
  rewrite <- (fold_join_relative [x] r); [done|done| |done].
  by constructor.
Qed.

End RelFacts.

(** ** What safe_purge excludes and examines *)

Module PurgeCoverage.
Import PyStr PyStrFacts Spec PathFacts UnderFacts JoinFacts SafePurge Tree
  PurgeVocabulary WalkFacts PurgeFacts VisitFacts.

Lemma excluded_entries_render :
  (fun e => render (fst e) (snd e)) <$> excluded_entries = EXCLUDE_DIRS.
Proof. reflexivity. Qed.

Lemma excluded_entries_proper :
  Forall (fun e => plain_char (fst e) = true
                   ∧ Forall (fun s => proper_name s = true) (snd e))
         excluded_entries.
Proof.
  assert (forallb (fun e => plain_char (fst e) && forallb proper_name (snd e))
                  excluded_entries = true) as H by (vm_compute; reflexivity).
  rewrite forallb_forall in H. apply Forall_forall. intros e He.
  apply list_elem_of_In, H, andb_true_iff in He as [? Hall]. split; [done|].
  rewrite forallb_forall in Hall. apply Forall_forall. intros x Hx.
  by apply Hall, list_elem_of_In.
Qed.

(** the loop of [is_excluded] on absolute paths *)
Lemma is_excluded_in_render c l (entries : list (ascii * list string)) :
  plain_char c = true →
  Forall (fun s => proper_name s = true) l →
  Forall (fun e => plain_char (fst e) = true
                   ∧ Forall (fun s => proper_name s = true) (snd e)) entries →
  is_excluded_in (render c l) ((fun e => render (fst e) (snd e)) <$> entries)
  = true
  ↔ ∃ l', (c, l') ∈ entries ∧ l' `prefix_of` l.
Proof.
  intros Hc Hl Hentries.
  induction Hentries as [|[c' l'] entries [Hc' Hl'] _ IH].
  { split; [done|]. intros (l' & H & _). by apply elem_of_nil in H. }
  cbn [fst snd] in Hc', Hl'. cbn [fmap list_fmap fst snd is_excluded_in].
  rewrite commonpath_render by done.
  assert (String.eqb
            (render c (take (NtPath.common_len (lower <$> l) (lower <$> l')) l))
            (render c' l') = true
          ↔ c = c' ∧ l' `prefix_of` l) as Hhere.
  { rewrite render_eqb.
    - by rewrite take_common_len.
    - apply Forall_take. by apply proper_plain.
    - by apply proper_plain. }
  assert ((∃ l'0, (c, l'0) ∈ (c', l') :: entries ∧ l'0 `prefix_of` l)
          ↔ (c = c' ∧ l' `prefix_of` l)
            ∨ ∃ l'0, (c, l'0) ∈ entries ∧ l'0 `prefix_of` l) as ->.
  { split.
    - intros (l0 & [E|Hin]%elem_of_cons & Hpre).
      + injection E as -> ->. by left.
      + right. by exists l0.
    - intros [[-> Hpre]|(l0 & Hin & Hpre)].
      + exists l'. split; [by left|done].
      + exists l0. split; [by right|done]. }
  destruct (Ascii.eqb (lower_char c) (lower_char c')) eqn:Hd.
  - destruct (String.eqb _ (render c' l')) eqn:Heq.
    + split; [|done]. intros _. left. by apply Hhere.
    + rewrite IH. split; [by right|]. intros [H|H]; [|done].
      apply Hhere in H. discriminate H.
  - rewrite IH. split; [by right|]. intros [[-> _]|H]; [|done].
    by rewrite Ascii.eqb_refl in Hd.
Qed.

Lemma is_excluded_render cwd c l :
  plain_char c = true →
  Forall (fun s => proper_name s = true) l →
  is_excluded cwd (render c l) = true
  ↔ ∃ l', (c, l') ∈ excluded_entries ∧ l' `prefix_of` l.
Proof.
  intros Hc Hl. unfold is_excluded.
  rewrite abspath_render by done. rewrite <- excluded_entries_render.
  apply is_excluded_in_render; [done|done|apply excluded_entries_proper].
Qed.

Section purge.
Context (w : world) (extensions : list string).
Context (now retention_days : Z) (dry_run : bool).

Local Abbreviation the_purge_file :=
  (purge_file w extensions now retention_days dry_run).
Local Abbreviation the_purge_dir :=
  (purge_dir w extensions now retention_days dry_run).

(** the first line about a file that is not filtered out *)
Lemma purge_file_verdict drive root f s :
  filtered_out extensions (file_name f) = false →
  ∃ e rest, log (the_purge_file drive root f s) = log s ++ e :: rest
            ∧ purge_verdict w now retention_days
                (NtPath.join root (file_name f)) f e.
Proof.
  intros Hf. unfold purge_file, purge_verdict. rewrite Hf.
  destruct (file_stat f ≫= fromtimestamp w) as [mtime|ex]; [|by eexists _, []].
  destruct (retention_days <=? (now - mtime) / 86400); [|by eexists _, []].
  destruct (negb dry_run); [|by eexists _, []].
  destruct (NtPath.relpath _ _ _) as [rel|].
  2:{ eexists _, [_]. cbn [emit log]. by rewrite <- app_assoc. }
  destruct (file_mkdir f).
  { eexists _, [_]. cbn [emit perform log]. by rewrite <- app_assoc. }
  destruct (file_move f).
  { eexists _, [_]. cbn [emit perform log]. by rewrite <- app_assoc. }
  eexists _, [_]. cbn [emit perform log]. by rewrite <- app_assoc.
Qed.

End purge.

(** the state in which the walk of [purge_files] starts *)
Lemma purge_files_log w categories retention_days dry_run :
  ∃ before after,
    log (purge_files w categories retention_days dry_run)
    = before
      ++ new_events (log_disk_usage w (snd (datetime_now w st0)))
           (purge_drives w (extensions_of categories)
              (fst (datetime_now w st0)) retention_days dry_run
              (log_disk_usage w (snd (datetime_now w st0))))
      ++ after
    ∧ Forall (fun e => is_file_event e = false) before
    ∧ Forall (fun e => is_file_event e = false) after.
Proof.
  unfold purge_files, datetime_now, time_time.
  cbn [st0 ticks log ops fst snd].
  fold (extensions_of categories).
  set (s1 := log_disk_usage w (St [] [] 1)).
  set (s2 := purge_drives w (extensions_of categories)
               (local_time w (clock w 0)) retention_days dry_run s1).
  destruct (log_disk_usage_log w (St [] [] 1)) as (l1 & Hl1 & Hq1 & _).
  fold s1 in Hl1. cbn [log] in Hl1.
  destruct (purge_drives_log w (extensions_of categories)
              (local_time w (clock w 0)) retention_days dry_run s1)
    as (l2 & Hl2 & _).
  fold s2 in Hl2.
  destruct (log_disk_usage_log w s2) as (l3 & Hl3 & Hq3 & _).
  exists l1, l3. rewrite (ScanFacts.new_events_app _ _ l2 Hl2).
  rewrite Hl3, Hl2, Hl1. rewrite <- app_assoc. done.
Qed.

End PurgeCoverage.

(** ** Where the lines of safe_purge come from *)

Module PurgePositions.
Import PyStr Spec SafePurge Tree PurgeVocabulary WalkFacts PurgeFacts
  VisitFacts PurgeCoverage.

Lemma unexcluded_snoc cwd top names n :
  unexcluded cwd top (names ++ [n])
  = unexcluded cwd top names
    && negb (is_excluded cwd (NtPath.join (walk_path top names) n)).
Proof.
  revert top. induction names as [|m names IH]; intros top.
  - cbn [app unexcluded]. change (walk_path top []) with top.
    by rewrite !andb_true_r.
  - change ((m :: names) ++ [n]) with (m :: (names ++ [n])).
    cbn [unexcluded]. rewrite IH. by rewrite andb_assoc.
Qed.

Section purge.
Context (w : world) (extensions : list string).
Context (now retention_days : Z) (dry_run : bool).

(** a line about a file of a directory that safe_purge examines *)
Local Abbreviation from_position e :=
  (∃ drive names d' f,
     examined_dir w drive names d'
     ∧ f ∈ files_of d'
     ∧ purge_line extensions dry_run (walk_path drive names) f e).

Lemma purge_walk_positions drive d s :
  drive ∈ get_all_drives w → drives w !! drive = Some d →
  ∃ l, log (os_walk (purge_dir w extensions now retention_days dry_run drive)
              drive d s) = log s ++ l
       ∧ Forall (fun e => from_position e) l.
Proof.
  intros Hdrive Hd.
  apply (os_walk_tree_inv
           (purge_dir w extensions now retention_days dry_run drive)
           (fun s' => ∃ l, log s' = log s ++ l
                           ∧ Forall (fun e => from_position e) l)
           (fun root d' =>
              ∃ names, descend d names = Some d'
                       ∧ root = walk_path drive names
                       ∧ (is_excluded (getcwd w) root = false →
                          unexcluded (getcwd w) drive names = true))).
  - intros root subdirs files s' (names & Hdesc & -> & Hun) (l & Hl & Hall).
    split.
    + destruct (purge_dir_log w extensions now retention_days dry_run drive
                  (walk_path drive names) (fst <$> subdirs) files s')
        as (l' & Hl' & Hall').
      exists (l ++ l'). split.
      { rewrite Hl', Hl. by rewrite <- app_assoc. }
      apply Forall_app. split; [done|].
      eapply Forall_impl; [exact Hall'|]. intros e (Hex & f & Hf & He).
      exists drive, names, (Dir subdirs files), f.
      split; [|done]. split; [done|]. exists d. auto.
    + intros n sub Hn Hsub. unfold purge_dir in Hn.
      destruct (is_excluded (getcwd w) (walk_path drive names)) eqn:Hex;
        [by apply elem_of_nil in Hn|].
      exists (names ++ [n]). split; [|split].
      * rewrite descend_snoc, Hdesc. done.
      * by rewrite walk_path_snoc.
      * intros Hchild. rewrite unexcluded_snoc, Hun by done.
        by rewrite Hchild.
  - exists []. split; [done|]. split; [done|].
    intros Hex. cbn [unexcluded]. change (walk_path drive []) with drive in Hex.
    by rewrite Hex.
  - exists []. by rewrite app_nil_r.
Qed.

Lemma purge_drives_positions s :
  ∃ l, log (purge_drives w extensions now retention_days dry_run s) = log s ++ l
       ∧ Forall (fun e => from_position e) l.
Proof.
  unfold purge_drives.
  assert (∀ ds, ds ⊆ get_all_drives w →
            ∀ s', ∃ l,
              log (fold_left
                     (fun s drive =>
                        match drives w !! drive with
                        | Some d =>
                            os_walk (purge_dir w extensions now retention_days
                                       dry_run drive) drive d s
                        | None => s
                        end) ds s') = log s' ++ l
              ∧ Forall (fun e => from_position e) l) as H.
  { induction ds as [|drive ds IH]; intros Hsub s'.
    - exists []. by rewrite app_nil_r.
    - simpl.
      assert (drive ∈ get_all_drives w) as Hdrive by (apply Hsub; by left).
      assert (ds ⊆ get_all_drives w) as Hds.
      { intros x ?. apply Hsub. by right. }
      destruct (drives w !! drive) as [d|] eqn:Hd; [|by apply IH].
      destruct (purge_walk_positions drive d s' Hdrive Hd)
        as (l1 & Hl1 & Hall1).
      destruct (IH Hds (os_walk (purge_dir w extensions now retention_days
                                   dry_run drive) drive d s'))
        as (l2 & Hl2 & Hall2).
      exists (l1 ++ l2). split.
      { rewrite Hl2, Hl1. by rewrite <- app_assoc. }
      by apply Forall_app. }
  by apply H.
Qed.

End purge.

End PurgePositions.

(** ** safe_purge: exclusion, destinations and reach *)

Module PurgeTheorems.
Import PyStr Spec UnderFacts JoinFacts RelFacts SafePurge Tree PurgeVocabulary
  Scenarios Hosts PurgeFacts PurgeCoverage PurgePositions.

(** X12. On absolute paths of letter drives, spelt without "." or "..",
    [is_excluded] of safe_purge holds exactly of the twelve listed
    directories and of what lies below them, wherever the program is run
    from: the drive letter and the leading components of the path must be
    those of an entry, letter for letter. Since the comparison is exact, a
    path that differs from an entry in letter case only is not excluded. *)
Theorem is_excluded_matches_the_table_exactly
    (cwd : string) (c : ascii) (l : list string) :
  plain_char c = true →
  Forall (fun s => proper_name s = true) l →
  (is_excluded cwd (render c l) = true
   ↔ ∃ l', (c, l') ∈ excluded_entries ∧ l' `prefix_of` l)
  ∧ (fun e => render (fst e) (snd e)) <$> excluded_entries = EXCLUDE_DIRS
  ∧ is_excluded cwd "C:\windows\Temp" = false.
Proof.
  intros Hc Hl. split; [by apply is_excluded_render|].
  split; [apply excluded_entries_render|]. vm_compute. reflexivity.
Qed.

Lemma is_excluded_matches_the_table_exactly_witness :
  plain_char "C" = true
  ∧ Forall (fun s => proper_name s = true) ["Users"; "All Users"; "Desktop"]
  ∧ (is_excluded "D:\work" "C:\Users\All Users\Desktop" = true
     ↔ ∃ l', ("C"%char, l') ∈ excluded_entries
             ∧ l' `prefix_of` ["Users"; "All Users"; "Desktop"]).
Proof.
  assert (plain_char "C" = true) as H1 by reflexivity.
  assert (Forall (fun s => proper_name s = true)
            ["Users"; "All Users"; "Desktop"]) as H2.
  { constructor; [reflexivity|]. constructor; [reflexivity|].
    constructor; [reflexivity|constructor]. }
  split; [exact H1|]. split; [exact H2|].
  exact (proj1 (is_excluded_matches_the_table_exactly "D:\work" "C"
                  ["Users"; "All Users"; "Desktop"] H1 H2)).
Defined.

(** X13. The destination safe_purge computes for a matching file is the
    quarantine followed by the path of the file below the root of its drive:
    the drive letter is dropped. A file [X:\a\b\f] is moved to
    [C:\FilePurger\Quarantine\a\b\f] whatever [X] is, so two files with the
    same path on different drives are sent to one and the same
    destination. *)
Theorem safe_purge_destination_drops_the_drive
    (w : world) (extensions : list string) (now rd : Z) (c : ascii)
    (parents : list string) (f : file) (t mtime : Z) (s : state) :
  plain_char c = true →
  Forall (fun s => proper_name s = true) parents →
  proper_name (file_name f) = true →
  filtered_out extensions (file_name f) = false →
  file_stat f = Ok t →
  fromtimestamp w t = Ok mtime →
  (rd <=? (now - mtime) / 86400) = true →
  file_mkdir f = None →
  file_move f = None →
  let src := render c (parents ++ [file_name f]) in
  let dest :=
    render "C" ("FilePurger" :: "Quarantine" :: parents ++ [file_name f]) in
  let s' := purge_file w extensions now rd false
              (render c []) (render c parents) f s in
  ops s' = ops s ++ [OpMkdir (NtPath.dirname dest); OpMove src dest]
  ∧ new_events s s'
    = [ EvMatch src ((now - mtime) / 86400);
        EvMove src dest ((now - mtime) / 86400) ].
Proof.
  intros Hc Hparents Hname Hfilter Hstat Htime Hage Hmkdir Hmove. cbv zeta.
  assert (Forall (fun s => proper_name s = true) (parents ++ [file_name f]))
    as Hall by (apply Forall_app; split; [done|by constructor]).
  assert (NtPath.join (render c parents) (file_name f)
          = render c (parents ++ [file_name f])) as Hsrc.
  { apply join_render; [done|by apply proper_plain|].
    by apply proper_name_inv in Hname as [? _]. }
  assert (NtPath.join QUARANTINE_DIR
            (PyStr.join NtPath.sep_s (parents ++ [file_name f]))
          = render "C" ("FilePurger" :: "Quarantine"
                        :: parents ++ [file_name f]))
    as Hdest.
  { change QUARANTINE_DIR with (render "C" ["FilePurger"; "Quarantine"]).
    rewrite join_render_relative; [done|done| | |].
    - constructor; [reflexivity|constructor; [reflexivity|constructor]].
    - by apply proper_plain.
    - by destruct parents. }
  unfold purge_file. rewrite Hfilter, Hstat.
  change (Ok t ≫= fromtimestamp w) with (fromtimestamp w t).
  rewrite Htime, Hage. cbn [negb].
  rewrite Hsrc.
  rewrite relpath_render by (by try (by destruct parents)).
  rewrite Hdest, Hmkdir, Hmove.
  split; [cbn [emit perform ops]; by rewrite <- app_assoc|].
  apply ScanFacts.new_events_app. cbn [emit perform log].
  by rewrite <- app_assoc.
Qed.

Lemma safe_purge_destination_drops_the_drive_witness :
  plain_char "D" = true
  ∧ Forall (fun s => proper_name s = true) ["Users"; "Bob"]
  ∧ proper_name "report.pdf" = true
  ∧ filtered_out [".pdf"] "report.pdf" = false
  ∧ (1 <=? (1000000 - 0) / 86400) = true
  ∧ new_events st0
      (purge_file a_host [".pdf"] 1000000 1 false "D:\" "D:\Users\Bob"
         (File "report.pdf" (Ok 0) None None) st0)
    = [ EvMatch "D:\Users\Bob\report.pdf" 11;
        EvMove "D:\Users\Bob\report.pdf"
               "C:\FilePurger\Quarantine\Users\Bob\report.pdf" 11 ].
Proof.
  assert (plain_char "D" = true) as H1 by reflexivity.
  assert (Forall (fun s => proper_name s = true) ["Users"; "Bob"]) as H2
    by (constructor; [reflexivity|constructor; [reflexivity|constructor]]).
  assert (proper_name "report.pdf" = true) as H3 by reflexivity.
  assert (filtered_out [".pdf"] "report.pdf" = false) as H4 by reflexivity.
  assert ((1 <=? (1000000 - 0) / 86400) = true) as H5 by reflexivity.
  repeat (split; [assumption|]).
  exact (proj2 (safe_purge_destination_drops_the_drive a_host [".pdf"]
                  1000000 1 "D" ["Users"; "Bob"]
                  (File "report.pdf" (Ok 0) None None) 0 0 st0
                  H1 H2 H3 H4 eq_refl eq_refl H5 eq_refl eq_refl)).
Defined.

(** X15. Category names that safe_purge does not know select nothing, and
    an empty selection switches the extension filter off: when none of the
    given categories is a key of FILE_CATEGORIES (or none is given), the
    list of extensions that [purge_files] works with is empty, and then
    [purge_file] passes over no file: whatever its name, the file gets a
    line, the first one being [MATCH] when it is old enough, [SKIP] when it
    is not, and an error line when its time cannot be read. *)
Theorem unknown_categories_switch_the_filter_off (categories : list string) :
  (∀ cat, cat ∈ categories → FILE_CATEGORIES !! cat = None) →
  extensions_of categories = []
  ∧ ∀ w now rd dry drive root f s,
      ∃ e rest,
        new_events s
          (purge_file w (extensions_of categories) now rd dry drive root f s)
        = e :: rest
        ∧ purge_verdict w now rd (NtPath.join root (file_name f)) f e.
Proof.
  intros Hcats.
  assert (extensions_of categories = []) as Hnone.
  { unfold extensions_of. induction categories as [|cat cats IH]; [done|].
    cbn [fmap list_fmap mjoin list_join].
    rewrite (Hcats cat) by (by left). cbn [default app].
    apply IH. intros cat' Hin. apply Hcats. by right. }
  split; [done|]. intros w now rd dry drive root f s. rewrite Hnone.
  destruct (purge_file_verdict w [] now rd dry drive root f s eq_refl)
    as (e & rest & Hl & Hv).
  exists e, rest. split; [|done]. by apply ScanFacts.new_events_app.
Qed.

Lemma unknown_categories_switch_the_filter_off_witness :
  (∀ cat, cat ∈ ["music"] → FILE_CATEGORIES !! cat = None)
  ∧ extensions_of ["music"] = []
  ∧ new_events st0
      (purge_file a_host (extensions_of ["music"]) 1000000 1 true
         "C:\" "C:\" exe_file st0)
    = [EvMatch "C:\setup.EXE" 11].
Proof.
  assert (∀ cat, cat ∈ ["music"] → FILE_CATEGORIES !! cat = None) as H0.
  { intros cat Hin. apply list_elem_of_singleton in Hin as ->.
    vm_compute. reflexivity. }
  split; [exact H0|].
  destruct (unknown_categories_switch_the_filter_off ["music"] H0)
    as [Hnone _].
  split; [exact Hnone|]. vm_compute. reflexivity.
Defined.

(** X16. Every line of a run of safe_purge that is about a file comes from a
    directory it examines, one on an existing drive that is neither excluded
    nor below an excluded directory, and is about a file of that directory
    that the extension filter lets through; a dry run logs no move. *)
Theorem safe_purge_lines_come_from_examined_directories
    (w : world) (categories : list string) (rd : Z) (dry : bool) (e : event) :
  e ∈ log (purge_files w categories rd dry) →
  is_file_event e = true →
  ∃ drive names d' f,
    examined_dir w drive names d'
    ∧ f ∈ files_of d'
    ∧ filtered_out (extensions_of categories) (file_name f) = false
    ∧ event_path e = Some (NtPath.join (walk_path drive names) (file_name f))
    ∧ (dry = true → is_move_event e = false).
Proof.
  intros He Hfile.
  destruct (purge_files_log w categories rd dry)
    as (before & after & Hlog & Hbefore & Hafter).
  destruct (purge_drives_positions w (extensions_of categories)
              (fst (datetime_now w st0)) rd dry
              (log_disk_usage w (snd (datetime_now w st0))))
    as (l & Hl & Hall).
  rewrite (ScanFacts.new_events_app _ _ l Hl) in Hlog.
  rewrite Hlog in He. rewrite Forall_forall in Hbefore, Hafter, Hall.
  apply elem_of_app in He as [He|He].
  { by rewrite (Hbefore e He) in Hfile. }
  apply elem_of_app in He as [He|He].
  2:{ by rewrite (Hafter e He) in Hfile. }
  destruct (Hall e He) as (drive & names & d' & f & Hpos & Hf & H1 & H2 & H3).
  by exists drive, names, d', f.
Qed.

Lemma safe_purge_lines_come_from_examined_directories_witness :
  EvSkip "C:\Users\Bob\notes.PDF" 0
    ∈ log (purge_files host_with_documents ["documents"] 1 true)
  ∧ is_file_event (EvSkip "C:\Users\Bob\notes.PDF" 0) = true
  ∧ ∃ drive names d' f,
      examined_dir host_with_documents drive names d'
      ∧ f ∈ files_of d'
      ∧ filtered_out (extensions_of ["documents"]) (file_name f) = false
      ∧ event_path (EvSkip "C:\Users\Bob\notes.PDF" 0)
        = Some (NtPath.join (walk_path drive names) (file_name f))
      ∧ (true = true → is_move_event (EvSkip "C:\Users\Bob\notes.PDF" 0) = false).
Proof.
  assert (EvSkip "C:\Users\Bob\notes.PDF" 0
            ∈ log (purge_files host_with_documents ["documents"] 1 true))
    as H1.
  { apply (list_elem_of_lookup_2 _ 2). vm_compute. reflexivity. }
  split; [exact H1|]. split; [reflexivity|].
  exact (safe_purge_lines_come_from_examined_directories host_with_documents
           ["documents"] 1 true _ H1 eq_refl).
Defined.

End PurgeTheorems.

(** ** Destinations in the quarantine, and deletion in a dry run *)

Module QuarantineTheorems.
Import PyStr Spec PathFacts UnderFacts AutoPurge RunScan Scenarios Hosts
  RunFacts RunParts.

(** X17. The destinations of auto_purge keep files of different origin
    apart: two files that [build_quarantine_dest] sends to the same
    destination in a quarantine lie on the same drive and in the same
    folder. (Within one folder the names are told apart by the digest of the
    whole path.) *)
Theorem destinations_keep_drive_and_folder
    (Q : PathLib.PurePath) (c c' : ascii) (parents parents' : list string)
    (nm nm' : string) (d : PathLib.PurePath) :
  plain_name (String c EmptyString) = true →
  plain_name (String c' EmptyString) = true →
  Forall (fun s => plain_name s = true) parents →
  Forall (fun s => plain_name s = true) parents' →
  plain_name nm = true →
  plain_name nm' = true →
  build_quarantine_dest Q (PathLib.parse_path (render c (parents ++ [nm])))
  = Ok d →
  build_quarantine_dest Q (PathLib.parse_path (render c' (parents' ++ [nm'])))
  = Ok d →
  c = c' ∧ parents = parents'.
Proof.
  intros Hc Hc' Hp Hp' Hn Hn' H1 H2.
  rewrite (build_dest_of_path_string Q c parents nm Hc Hp Hn) in H1.
  rewrite (build_dest_of_path_string Q c' parents' nm' Hc' Hp' Hn') in H2.
  rewrite <- H2 in H1. injection H1 as Htail.
  apply app_inv_head in Htail. injection Htail as -> Htail.
  apply app_inj_tail in Htail as [-> _]. done.
Qed.

Lemma destinations_keep_drive_and_folder_witness :
  plain_name "C" = true
  ∧ Forall (fun s => plain_name s = true) ["Users"; "Bob"]
  ∧ plain_name "report.pdf" = true
  ∧ build_quarantine_dest (PathLib.MkPath "C:" "\" ["Q"])
      (PathLib.parse_path (render "C" (["Users"; "Bob"] ++ ["report.pdf"])))
    = Ok (PathLib.MkPath "C:" "\"
            ["Q"; "C"; "Users"; "Bob"; "report__fb795ad5.pdf"])
  ∧ "C"%char = "C"%char ∧ ["Users"; "Bob"] = ["Users"; "Bob"].
Proof.
  assert (plain_name "C" = true) as H1 by reflexivity.
  assert (Forall (fun s => plain_name s = true) ["Users"; "Bob"]) as H2
    by (constructor; [reflexivity|constructor; [reflexivity|constructor]]).
  assert (plain_name "report.pdf" = true) as H3 by reflexivity.
  assert (build_quarantine_dest (PathLib.MkPath "C:" "\" ["Q"])
            (PathLib.parse_path
               (render "C" (["Users"; "Bob"] ++ ["report.pdf"])))
          = Ok (PathLib.MkPath "C:" "\"
                  ["Q"; "C"; "Users"; "Bob"; "report__fb795ad5.pdf"])) as H4
    by (vm_compute; reflexivity).
  repeat (split; [assumption|]).
  exact (destinations_keep_drive_and_folder _ "C" "C" ["Users"; "Bob"]
           ["Users"; "Bob"] "report.pdf" "report.pdf" _ H1 H1 H2 H2 H3 H3
           H4 H4).
Defined.



End QuarantineTheorems.
